(** * Route handlers of the media studio: request validation and publish fan-out

    Shallow embedding of
    - [src/app/src/types/media.ts]: the aspect-ratio table, the publish
      schema [publishSchema] and the publish route handler [POST];
    - the image generation route handler ([requestSchema], [POST]);
    - [src/app/src/app/api/generate/video/route.ts]: the video generation
      route handler ([requestSchema], [POST]) and the handlers and state of
      the page ([activePlatforms], [handleGenerateImage],
      [handleGenerateVideo], [handlePublish]).

    JavaScript strings are sequences of UTF-16 code units, JSON request bodies
    are trees, zod (version 3) schemas are functions from an input to a
    status and a list of issues, and a route handler is a computation that
    may throw and that leaves a trace of the calls it made to its external
    collaborators.  What [new URL] accepts, the environment, the image
    client and [fetch] are parameters.  The orchestrator behind the publish
    handler, [publishToSocialPlatforms], is not among the sources: it is
    modelled from the specification in [Module Socials]. *)

From stdpp Require Import base decidable option list numbers strings pretty
  relations.

(** ** JavaScript values *)

(** A JavaScript string: its UTF-16 code units.  [String.length] of the
    source is [length] here. *)
Abbreviation jsstring := (list N).

(** The string written with an ASCII literal. *)
Definition js (s : string) : jsstring :=
  (λ a, Ascii.N_of_ascii a) <$> String.list_ascii_of_string s.
Arguments js s%_string.

(** The value returned by [request.json()].  [JObj] lists the own properties
    of the object; a property is read with [get_prop], which returns the first
    binding of the key.  The schemas below never look inside a number, so it is
    kept as its literal. *)
#[warnings="-register-all"]
Inductive json : Type :=
| JNull
| JBool (b : bool)
| JNum (literal : jsstring)
| JStr (s : jsstring)
| JArr (items : list json)
| JObj (props : list (jsstring * json)).

(** [obj[key]]: [None] is [undefined]. *)
Fixpoint get_prop (key : jsstring) (props : list (jsstring * json)) : option json :=
  match props with
  | [] => None
  | (k, v) :: rest => if decide (k = key) then Some v else get_prop key rest
  end.

(** JavaScript truthiness of an optional string: [undefined] and the empty
    string are falsy. *)
Definition truthy (v : option jsstring) : bool :=
  match v with
  | None | Some [] => false
  | Some (_ :: _) => true
  end.

(** The issues of a [z.ZodError]. *)
Inductive ZodIssueCode : Type :=
| invalid_type | invalid_enum_value | too_small | too_big | invalid_string
| custom.

Inductive PathSegment : Type :=
| Key (k : jsstring)
| Index (i : nat).

(** [message = None] stands for zod's built-in message of the issue code. *)
Record ZodIssue : Type := mkIssue {
  code : ZodIssueCode;
  path : list PathSegment;
  message : option jsstring;
}.

(** What a [throw] carries, as far as the handlers' [catch] blocks can tell
    the values apart: a [z.ZodError], another [Error] with its message, or a
    value that is not an [Error]. *)
Inductive Thrown : Type :=
| ZodError (issues : list ZodIssue)
| Error (message : jsstring)
| NotAnError.

#[global] Instance ZodIssueCode_eq_dec : EqDecision ZodIssueCode.
Proof. solve_decision. Defined.
#[global] Instance PathSegment_eq_dec : EqDecision PathSegment.
Proof. solve_decision. Defined.
#[global] Instance ZodIssue_eq_dec : EqDecision ZodIssue.
Proof. solve_decision. Defined.
#[global] Instance Thrown_eq_dec : EqDecision Thrown.
Proof. solve_decision. Defined.

(** ** The part of zod the schemas use *)

Module Zod.

(** zod's parse status: [valid], [dirty] (issues were added, a value is still
    produced) and [aborted] (no value). *)
Inductive ParseStatus (A : Type) : Type :=
| OK (value : A)
| DIRTY (value : A)
| INVALID.
Arguments OK {A} value.
Arguments DIRTY {A} value.
Arguments INVALID {A}.

(** The status together with the issues added to the parse context. *)
Definition ParseReturn (A : Type) : Type := ParseStatus A * list ZodIssue.

(** A schema parses the input found at a path; [None] is [undefined]. *)
Definition Schema (A : Type) : Type :=
  list PathSegment → option json → ParseReturn A.

Definition issue (c : ZodIssueCode) (p : list PathSegment)
    (m : option jsstring) : ZodIssue :=
  {| code := c; path := p; message := m |}.

Definition dirty_if {A} (b : bool) (v : A) : ParseStatus A :=
  if b then DIRTY v else OK v.

(** The checks chained on [z.string()]. *)
Inductive StringCheck : Type :=
| min (value : nat) (message : option jsstring)
| url.

Section WithURL.
(** [new URL(s)] does not throw. *)
Variable URL_ok : jsstring → bool.

Definition check_fails (s : jsstring) (c : StringCheck) : bool :=
  match c with
  | min n _ => bool_decide (length s < n)
  | url => negb (URL_ok s)
  end.

Definition check_issue (p : list PathSegment) (c : StringCheck) : ZodIssue :=
  match c with
  | min _ m => issue too_small p m
  | url => issue invalid_string p None
  end.

(** [z.string()] with its checks: a value that is not a string aborts, a
    failed check adds an issue and makes the result dirty. *)
Definition string (checks : list StringCheck) : Schema jsstring := λ p input,
  match input with
  | Some (JStr s) =>
      let failed := filter (λ c, check_fails s c = true) checks in
      (dirty_if (negb (bool_decide (failed = []))) s, check_issue p <$> failed)
  | _ => (INVALID, [issue invalid_type p None])
  end.
End WithURL.

(** [z.enum([...])]: each literal with the value of the union type it
    stands for. *)
Fixpoint enum_lookup {A} (s : jsstring) (options : list (jsstring * A)) : option A :=
  match options with
  | [] => None
  | (k, a) :: rest => if decide (k = s) then Some a else enum_lookup s rest
  end.

Definition enum {A} (options : list (jsstring * A)) : Schema A := λ p input,
  match input with
  | Some (JStr s) =>
      match enum_lookup s options with
      | Some a => (OK a, [])
      | None => (INVALID, [issue invalid_enum_value p None])
      end
  | _ => (INVALID, [issue invalid_type p None])
  end.

(** [.optional()] *)
Definition optional {A} (inner : Schema A) : Schema (option A) := λ p input,
  match input with
  | None => (OK None, [])
  | Some _ =>
      match inner p input with
      | (OK v, iss) => (OK (Some v), iss)
      | (DIRTY v, iss) => (DIRTY (Some v), iss)
      | (INVALID, iss) => (INVALID, iss)
      end
  end.

(** [.default(d)]: [undefined] is replaced by [d] before the inner schema
    runs. *)
Definition default {A} (inner : Schema A) (d : json) : Schema A := λ p input,
  match input with
  | None => inner p (Some d)
  | Some _ => inner p input
  end.

(** Joining the status of a part to the status of what was parsed before
    it ([ParseStatus.mergeArray], [ParseStatus.mergeObjectSync]): every part
    has been parsed, so all issues are kept; one aborted part aborts the
    whole, one dirty part makes it dirty. *)
Definition ap {A B} (f : ParseReturn (A → B)) (x : ParseReturn A) : ParseReturn B :=
  (match f.1, x.1 with
   | INVALID, _ | _, INVALID => INVALID
   | OK g, OK a => OK (g a)
   | OK g, DIRTY a | DIRTY g, OK a | DIRTY g, DIRTY a => DIRTY (g a)
   end, f.2 ++ x.2).

Definition pure {A} (a : A) : ParseReturn A := (OK a, []).

Fixpoint parse_items {A} (elem : Schema A) (p : list PathSegment) (i : nat)
    (items : list json) : ParseReturn (list A) :=
  match items with
  | [] => pure []
  | item :: rest =>
      ap (ap (pure cons) (elem (p ++ [Index i]) (Some item)))
         (parse_items elem p (S i) rest)
  end.

(** [z.array(elem)], with [.min(n, message)] when [min_length] is given:
    the length check comes first and only makes the result dirty. *)
Definition array {A} (elem : Schema A) (min_length : option (nat * option jsstring))
    : Schema (list A) := λ p input,
  match input with
  | Some (JArr items) =>
      let short :=
        match min_length with
        | Some (n, m) =>
            if bool_decide (length items < n) then [issue too_small p m] else []
        | None => []
        end in
      ap (dirty_if (negb (bool_decide (short = []))) (λ l : list A, l), short)
         (parse_items elem p 0 items)
  | _ => (INVALID, [issue invalid_type p None])
  end.

(** The value of one key of an object's shape. *)
Definition shape_key {A} (p : list PathSegment) (props : list (jsstring * json))
    (key : String.string) (schema : Schema A) : ParseReturn A :=
  schema (p ++ [Key (js key)]) (get_prop (js key) props).

(** [.superRefine(f)]: [f] runs on the value of the inner schema unless that
    one aborted; [issues v] are the issues [f] adds through [ctx.addIssue],
    none of them fatal. *)
Definition superRefine {A} (inner : Schema A) (issues : A → list ZodIssue)
    : Schema A := λ p input,
  match inner p input with
  | (INVALID, iss) => (INVALID, iss)
  | (OK v, iss) =>
      let added := (λ i, issue (code i) (p ++ path i) (message i)) <$> issues v in
      (dirty_if (negb (bool_decide (added = []))) v, iss ++ added)
  | (DIRTY v, iss) =>
      let added := (λ i, issue (code i) (p ++ path i) (message i)) <$> issues v in
      (DIRTY v, iss ++ added)
  end.

(** [schema.parse(data)]: returns the value when the status is valid, throws
    a [ZodError] with the collected issues otherwise. *)
Definition parse {A} (schema : Schema A) (data : json) : Thrown + A :=
  match schema [] (Some data) with
  | (OK v, _) => inr v
  | (_, iss) => inl (ZodError iss)
  end.

End Zod.

(** ** Computations of a route handler *)

(** How a statement completes: normally with a value, or by a [throw]. *)
Inductive Completion (A : Type) : Type :=
| Normal (value : A)
| Throw (thrown : Thrown).
Arguments Normal {A} value.
Arguments Throw {A} thrown.

(** A computation over the trace of the calls made so far to an external
    collaborator; [E] is what is recorded of one call. *)
Definition Eff (E A : Type) : Type := list E → Completion A * list E.

#[global] Instance Eff_ret {E} : MRet (Eff E) := λ A a trace, (Normal a, trace).

#[global] Instance Eff_bind {E} : MBind (Eff E) := λ A B k m trace,
  match m trace with
  | (Normal a, trace') => k a trace'
  | (Throw t, trace') => (Throw t, trace')
  end.

Definition throw {E A} (t : Thrown) : Eff E A := λ trace, (Throw t, trace).

(** [try { body } catch (error) { handler }] *)
Definition try_catch {E A} (body : Eff E A) (handler : Thrown → Eff E A) : Eff E A :=
  λ trace,
    match body trace with
    | (Normal a, trace') => (Normal a, trace')
    | (Throw t, trace') => handler t trace'
    end.

(** A pure step that may throw, such as [schema.parse]. *)
Definition lift {E A} (r : Thrown + A) : Eff E A :=
  match r with
  | inl t => throw t
  | inr a => mret a
  end.

(** A call to an external collaborator: the call is recorded, then it
    completes the way the collaborator does. *)
Definition call {E A} (event : E) (outcome : Completion A) : Eff E A :=
  λ trace, (outcome, trace ++ [event]).

(** Running a handler from an empty trace. *)
Definition run {E A} (m : Eff E A) : Completion A * list E := m [].

(** ** Requests and responses *)

(** The incoming request, as far as a handler uses it: [request.json()]
    returns the parsed body or throws on a body that is not JSON. *)
Inductive NextRequest : Type :=
| Body (data : json)
| Malformed (message : jsstring).

Definition request_json {E} (request : NextRequest) : Eff E json :=
  match request with
  | Body data => mret data
  | Malformed m => throw (Error m)
  end.

(** The JSON body of a response: the handler's data, [{ error:
    error.flatten() }] of a [ZodError], or [{ error: message }] (with
    [details] on the routes that add them). *)
Inductive ResponseBody (A : Type) : Type :=
| Data (data : A)
| ErrorFlatten (issues : list ZodIssue)
| ErrorMessage (error : jsstring).
Arguments Data {A} data.
Arguments ErrorFlatten {A} issues.
Arguments ErrorMessage {A} error.

Record NextResponse (A : Type) : Type := NextResponse_json {
  response_body : ResponseBody A;
  response_status : nat;
}.
Arguments NextResponse_json {A} response_body response_status.
Arguments response_body {A} _.
Arguments response_status {A} _.

(** The [catch] block of the handlers: a [ZodError] is answered with status
    422 and its flattened issues, any other error with status 500 and its
    message, or [fallback] when the thrown value is not an [Error]. *)
Definition catch_response {A} (fallback : jsstring) (error : Thrown) : NextResponse A :=
  match error with
  | ZodError issues => NextResponse_json (ErrorFlatten issues) 422
  | Error m => NextResponse_json (ErrorMessage m) 500
  | NotAnError => NextResponse_json (ErrorMessage fallback) 500
  end.

(** ** [types/media.ts] *)

Inductive AspectRatio : Type :=
| square | portrait | landscape | ultrawide | vertical.

Inductive ImageSize : Type :=
| size_1024x1024 | size_1024x1536 | size_1536x1024 | size_1792x1024
| size_1024x1792.

Definition aspectRatioToSize (ratio : AspectRatio) : ImageSize :=
  match ratio with
  | square => size_1024x1024
  | portrait => size_1024x1536
  | landscape => size_1536x1024
  | ultrawide => size_1792x1024
  | vertical => size_1024x1792
  end.

(** The string of an [ImageSize], as it goes on the wire. *)
Definition ImageSize_literal (size : ImageSize) : jsstring :=
  match size with
  | size_1024x1024 => js "1024x1024"
  | size_1024x1536 => js "1024x1536"
  | size_1536x1024 => js "1536x1024"
  | size_1792x1024 => js "1792x1024"
  | size_1024x1792 => js "1024x1792"
  end.

Inductive MediaType : Type := image | video.

(** The string literals of the two union types. *)
Definition AspectRatio_literal (ratio : AspectRatio) : jsstring :=
  match ratio with
  | square => js "square"
  | portrait => js "portrait"
  | landscape => js "landscape"
  | ultrawide => js "ultrawide"
  | vertical => js "vertical"
  end.

Definition MediaType_literal (type : MediaType) : jsstring :=
  match type with
  | image => js "image"
  | video => js "video"
  end.

#[global] Instance AspectRatio_eq_dec : EqDecision AspectRatio.
Proof. solve_decision. Defined.
#[global] Instance ImageSize_eq_dec : EqDecision ImageSize.
Proof. solve_decision. Defined.
#[global] Instance MediaType_eq_dec : EqDecision MediaType.
Proof. solve_decision. Defined.

(** The schema both generation routes use for [aspectRatio]. *)
Definition aspectRatio_enum : Zod.Schema AspectRatio :=
  Zod.enum [(js "square", square); (js "portrait", portrait);
            (js "landscape", landscape); (js "ultrawide", ultrawide);
            (js "vertical", vertical)].

(** ** [lib/socials]: the publish orchestrator

    The module [@/lib/socials] is imported by the publish handler and is not
    among the sources.  Its types are read off their uses in the handler and
    in the page; what it does is modelled from the specification, and every
    definition that is says so. *)

Module Socials.

(** [SocialPlatform]: the literals of the publish schema's [platforms]
    enum. *)
Inductive SocialPlatform : Type :=
| platform_x | platform_instagram | platform_tiktok | platform_youtube.

Definition platform_literal (p : SocialPlatform) : jsstring :=
  match p with
  | platform_x => js "x"
  | platform_instagram => js "instagram"
  | platform_tiktok => js "tiktok"
  | platform_youtube => js "youtube"
  end.

(** The first argument of [publishToSocialPlatforms]: the object the publish
    handler builds from the parsed request. *)
Record PublishInput : Type := {
  mediaType : MediaType;
  caption : jsstring;
  title : option jsstring;
  tags : option (list jsstring);
  mediaUrl : option jsstring;
  mediaBase64 : option jsstring;
  mimeType : option jsstring;
  callToActionUrl : option jsstring;
  campaignId : option jsstring;
}.

(** Modelled from the spec: the status of a result, [success] or [failure]
    (the page tests [result.status === "success"]). *)
Inductive Status : Type := success | failure.

(** Modelled from the spec: one entry of [results],
    [{ platform, status, message?, postId? }]. *)
Record PlatformResult : Type := {
  platform : SocialPlatform;
  status : Status;
  message : option jsstring;
  postId : option jsstring;
}.

#[global] Instance SocialPlatform_eq_dec : EqDecision SocialPlatform.
Proof. solve_decision. Defined.
#[global] Instance PublishInput_eq_dec : EqDecision PublishInput.
Proof. solve_decision. Defined.
#[global] Instance Status_eq_dec : EqDecision Status.
Proof. solve_decision. Defined.
#[global] Instance PlatformResult_eq_dec : EqDecision PlatformResult.
Proof. solve_decision. Defined.

(** Modelled from the spec: the platform adapters, which are not part of
    the sources.  The spec gives them the signature
    [adapter(platform, request) -> PlatformResult]; a call either returns a
    structured result or raises.  Each call is independent of the others,
    so one call is a function of its arguments. *)
Definition Adapter : Type :=
  SocialPlatform → PublishInput → Completion PlatformResult.

(** What the trace records of one adapter call. *)
Definition AdapterCall : Type := SocialPlatform * PublishInput.

(** Modelled from the spec: the adapter answers for the platform it was
    called for. *)
Definition answers_for_platform (adapter : Adapter) : Prop :=
  ∀ p input r, adapter p input = Normal r → platform r = p.

(** Modelled from the spec: the message of the [failure] result an
    unexpected error is converted into, "derived from the error" and
    non-empty: the error's own message when it has one, a fixed text
    otherwise. *)
Definition fault_text : jsstring := js "Unexpected error while publishing.".

(** Modelled from the spec: the message derived from an error. *)
Definition fault_message (error : Thrown) : jsstring :=
  match error with
  | Error (c :: m) => c :: m
  | _ => fault_text
  end.

(** Modelled from the spec: what the orchestrator does with a target list
    that names a platform twice.  The spec leaves the choice open
    ("rejected or de-duplicated"): either the whole call fails with some
    error before any dispatch, or later occurrences are dropped. *)
Inductive DuplicatePolicy : Type :=
| reject_duplicates (error : Thrown)
| merge_duplicates.

(** Modelled from the spec: de-duplication keeps the targets without
    repetition, each at its first occurrence, so the order of the input is
    preserved. *)
Fixpoint dedupe (seen targets : list SocialPlatform) : list SocialPlatform :=
  match targets with
  | [] => []
  | p :: rest =>
      if bool_decide (p ∈ seen) then dedupe seen rest
      else p :: dedupe (p :: seen) rest
  end.

Section Orchestrator.
Variable policy : DuplicatePolicy.
Variable adapter : Adapter.

(** Modelled from the spec: one publish attempt.  The adapter of the
    target is invoked once; a structured result is collected as it is, an
    unexpected error becomes a [failure] result for that target. *)
Definition dispatch (input : PublishInput) (target : SocialPlatform)
    : Eff AdapterCall PlatformResult :=
  try_catch
    (call (target, input) (adapter target input))
    (λ error,
       mret {| platform := target; status := failure;
               message := Some (fault_message error); postId := None |}).

(** Modelled from the spec: the result [dispatch] collects for a target. *)
Definition collected (input : PublishInput) (target : SocialPlatform)
    : PlatformResult :=
  match adapter target input with
  | Normal result => result
  | Throw error =>
      {| platform := target; status := failure;
         message := Some (fault_message error); postId := None |}
  end.

(** Modelled from the spec: [publishToSocialPlatforms], whose module is
    not part of the sources.  One publish attempt per target, the results
    collected in the order of the targets. *)
Definition publishToSocialPlatforms (input : PublishInput)
    (targets : list SocialPlatform) : Eff AdapterCall (list PlatformResult) :=
  match policy with
  | reject_duplicates error =>
      if bool_decide (NoDup targets) then mapM (dispatch input) targets
      else throw error
  | merge_duplicates => mapM (dispatch input) (dedupe [] targets)
  end.
End Orchestrator.

End Socials.

(** ** The publish route *)

Module PublishRoute.
Import Socials.

(** The output type of [publishSchema]. *)
Record Parsed : Type := {
  mediaType : MediaType;
  caption : jsstring;
  title : option jsstring;
  tags : option (list jsstring);
  mediaUrl : option jsstring;
  mediaBase64 : option jsstring;
  mimeType : option jsstring;
  callToActionUrl : option jsstring;
  campaignId : option jsstring;
  platforms : list SocialPlatform;
}.

Notation "f <*> x" := (Zod.ap f x) (at level 50, left associativity).

Section Handler.
Variable URL_ok : jsstring → bool.
Variable policy : DuplicatePolicy.
Variable adapter : Adapter.

Definition platform_enum : Zod.Schema SocialPlatform :=
  Zod.enum [(js "x", platform_x); (js "instagram", platform_instagram);
            (js "tiktok", platform_tiktok); (js "youtube", platform_youtube)].

(** The [z.object({ ... })] of [publishSchema]; unknown keys are
    stripped. *)
Definition publishObject : Zod.Schema Parsed := λ p input,
  match input with
  | Some (JObj props) =>
      let key {A} := @Zod.shape_key A p props in
      Zod.pure Build_Parsed
      <*> key "mediaType" (Zod.enum [(js "image", image); (js "video", video)])
      <*> key "caption"
            (Zod.string URL_ok
               [Zod.min 3 (Some (js "Caption must be at least 3 characters."))])
      <*> key "title" (Zod.optional (Zod.string URL_ok []))
      <*> key "tags"
            (Zod.optional (Zod.array (Zod.string URL_ok []) None))
      <*> key "mediaUrl" (Zod.optional (Zod.string URL_ok [Zod.url]))
      <*> key "mediaBase64" (Zod.optional (Zod.string URL_ok []))
      <*> key "mimeType" (Zod.optional (Zod.string URL_ok []))
      <*> key "callToActionUrl" (Zod.optional (Zod.string URL_ok [Zod.url]))
      <*> key "campaignId" (Zod.optional (Zod.string URL_ok []))
      <*> key "platforms"
            (Zod.array platform_enum
               (Some (1, Some (js "Select at least one platform."))))
  | _ => (Zod.INVALID, [Zod.issue invalid_type p None])
  end.

(** The callback of [.superRefine]. *)
Definition media_issues (value : Parsed) : list ZodIssue :=
  if negb (truthy (mediaUrl value)) && negb (truthy (mediaBase64 value))
  then [Zod.issue custom [Key (js "mediaUrl")]
          (Some (js "Provide either mediaUrl or mediaBase64."))]
  else [].

Definition publishSchema : Zod.Schema Parsed :=
  Zod.superRefine publishObject media_issues.

(** The object literal handed to [publishToSocialPlatforms]. *)
Definition publish_input (parsed : Parsed) : PublishInput :=
  {| Socials.mediaType := mediaType parsed;
     Socials.caption := caption parsed;
     Socials.title := title parsed;
     Socials.tags := tags parsed;
     Socials.mediaUrl := mediaUrl parsed;
     Socials.mediaBase64 := mediaBase64 parsed;
     Socials.mimeType := mimeType parsed;
     Socials.callToActionUrl := callToActionUrl parsed;
     Socials.campaignId := campaignId parsed |}.

Definition NotAnError_text : jsstring :=
  js "Unexpected error while publishing to social platforms.".

(** The route handler.  [console.error] is left out. *)
Definition POST (request : NextRequest)
    : Eff AdapterCall (NextResponse (list PlatformResult)) :=
  try_catch
    (body ← request_json request;
     parsed ← lift (Zod.parse publishSchema body);
     results ←
       publishToSocialPlatforms policy adapter (publish_input parsed)
         (platforms parsed);
     mret (NextResponse_json (Data results) 200))
    (λ error, mret (catch_response NotAnError_text error)).
End Handler.

End PublishRoute.

(** ** The image generation route *)

(** The types of the [openai] package the handler uses. *)
Module OpenAI.

Inductive ImageStyle : Type := vivid | natural.
Inductive ImageQuality : Type := hd | standard.

Record ImageGenerateParams : Type := {
  model : jsstring;
  prompt : jsstring;
  size : ImageSize;
  quality : ImageQuality;
  style : ImageStyle;
}.

Record Image : Type := {
  b64_json : option jsstring;
  url : option jsstring;
  revised_prompt : option jsstring;
}.

Record ImagesResponse : Type := {
  created : N;
  data : option (list Image);
}.

(** The client: [openai.images.generate(payload)] returns a response or
    throws. *)
Record Client : Type := {
  images_generate : ImageGenerateParams → Completion ImagesResponse;
}.

End OpenAI.

Module ImageRoute.

Inductive Style : Type :=
| cinematic | style_3d | illustration | photographic | digital_art.

Inductive Quality : Type := standard | high.

(** The output type of [requestSchema]. *)
Record Parsed : Type := {
  prompt : jsstring;
  aspectRatio : AspectRatio;
  style : Style;
  negativePrompt : option jsstring;
  quality : Quality;
}.

(** The response of a successful generation. *)
Record Generated : Type := {
  imageBase64 : option jsstring;
  imageUrl : option jsstring;
  revisedPrompt : option jsstring;
  created : N;
}.

Notation "f <*> x" := (Zod.ap f x) (at level 50, left associativity).

(** White space and line terminators, the code units [String.prototype.trim]
    removes. *)
Definition is_white_space (c : N) : bool :=
  bool_decide (c ∈ [9; 10; 11; 12; 13; 32; 160; 5760; 8232; 8233; 8239; 8287;
                    12288; 65279]%N)
  || (bool_decide (8192 ≤ c)%N && bool_decide (c ≤ 8202)%N).

Fixpoint trimStart (s : jsstring) : jsstring :=
  match s with
  | [] => []
  | c :: rest => if is_white_space c then trimStart rest else c :: rest
  end.

Definition trim (s : jsstring) : jsstring :=
  reverse (trimStart (reverse (trimStart s))).

Section Handler.
(** [new URL(s)] does not throw; this schema has no URL field, the
    parameter is the one of [z.string()]. *)
Variable URL_ok : jsstring → bool.
(** [env.VEO_MODEL] *)
Variable VEO_MODEL : option jsstring.
(** [getOpenAIClient()] returns the client or throws. *)
Variable getOpenAIClient : Completion OpenAI.Client.

Definition requestSchema : Zod.Schema Parsed := λ p input,
  match input with
  | Some (JObj props) =>
      let key {A} := @Zod.shape_key A p props in
      Zod.pure Build_Parsed
      <*> key "prompt"
            (Zod.string URL_ok
               [Zod.min 10 (Some (js "Prompt must be at least 10 characters."))])
      <*> key "aspectRatio" (Zod.default aspectRatio_enum (JStr (js "square")))
      <*> key "style"
            (Zod.default
               (Zod.enum [(js "cinematic", cinematic); (js "3d", style_3d);
                          (js "illustration", illustration);
                          (js "photographic", photographic);
                          (js "digital-art", digital_art)])
               (JStr (js "cinematic")))
      <*> key "negativePrompt" (Zod.optional (Zod.string URL_ok []))
      <*> key "quality"
            (Zod.default
               (Zod.enum [(js "standard", standard); (js "high", high)])
               (JStr (js "high")))
  | _ => (Zod.INVALID, [Zod.issue invalid_type p None])
  end.

Definition styleMappings (s : Style) : OpenAI.ImageStyle :=
  match s with
  | cinematic => OpenAI.vivid
  | style_3d => OpenAI.vivid
  | illustration => OpenAI.vivid
  | photographic => OpenAI.natural
  | digital_art => OpenAI.vivid
  end.

(** [const prompt = ...]: the template literal joins the two strings with
    two line feeds and ["Avoid: "]. *)
Definition prompt_of (parsed : Parsed) : jsstring :=
  match negativePrompt parsed with
  | Some negative =>
      if truthy (Some negative) && bool_decide (0 < length (trim negative))
      then prompt parsed ++ [10; 10]%N ++ js "Avoid: " ++ negative
      else prompt parsed
  | None => prompt parsed
  end.

(** [const payload: ImageGenerateParams = { ... }] *)
Definition payload_of (parsed : Parsed) : OpenAI.ImageGenerateParams :=
  {| OpenAI.model :=
       match VEO_MODEL with
       | Some m => if bool_decide (0 < length m) then m else js "veo-3"
       | None => js "veo-3"
       end;
     OpenAI.prompt := prompt_of parsed;
     OpenAI.size := aspectRatioToSize (aspectRatio parsed);
     OpenAI.quality :=
       match quality parsed with
       | high => OpenAI.hd
       | standard => OpenAI.standard
       end;
     OpenAI.style := styleMappings (style parsed) |}.

Definition NotAnError_text : jsstring :=
  js "Unexpected error during image generation.".

(** The route handler; the trace records the payloads sent upstream.
    [console.error] is left out. *)
Definition POST (request : NextRequest)
    : Eff OpenAI.ImageGenerateParams (NextResponse Generated) :=
  try_catch
    (body ← request_json request;
     parsed ← lift (Zod.parse requestSchema body);
     openai ← lift (match getOpenAIClient with
                    | Normal c => inr c
                    | Throw t => inl t
                    end);
     let payload := payload_of parsed in
     response ← call payload (OpenAI.images_generate openai payload);
     match OpenAI.data response ≫= head with
     | None =>
         mret (NextResponse_json
                 (ErrorMessage (js "Image generation returned no results."))
                 502)
     | Some first =>
         mret (NextResponse_json
                 (Data {| imageBase64 := OpenAI.b64_json first;
                          imageUrl := OpenAI.url first;
                          revisedPrompt := OpenAI.revised_prompt first;
                          created := OpenAI.created response |})
                 200)
     end)
    (λ error, mret (catch_response NotAnError_text error)).
End Handler.

End ImageRoute.

(** ** Reading the publish schema declaratively *)

(** What an optional string key must hold for the schema to parse it as [o]. *)
Definition optional_string (check : jsstring → bool) (input : option json)
    (o : option jsstring) : Prop :=
  match input with
  | None => o = None
  | Some (JStr s) => o = Some s ∧ check s = true
  | Some _ => False
  end.

(** The objects the [z.object] of [publishSchema] parses without an issue,
    with the value each is parsed to. *)
Definition fields_as (URL_ok : jsstring → bool) (props : list (jsstring * json))
    (v : PublishRoute.Parsed) : Prop :=
  get_prop (js "mediaType") props = Some (JStr (MediaType_literal (PublishRoute.mediaType v))) ∧
  get_prop (js "caption") props = Some (JStr (PublishRoute.caption v)) ∧
  3 ≤ length (PublishRoute.caption v) ∧
  optional_string (λ _, true) (get_prop (js "title") props) (PublishRoute.title v) ∧
  match get_prop (js "tags") props with
  | None => PublishRoute.tags v = None
  | Some item => ∃ l, PublishRoute.tags v = Some l ∧ item = JArr (JStr <$> l)
  end ∧
  optional_string URL_ok (get_prop (js "mediaUrl") props) (PublishRoute.mediaUrl v) ∧
  optional_string (λ _, true) (get_prop (js "mediaBase64") props) (PublishRoute.mediaBase64 v) ∧
  optional_string (λ _, true) (get_prop (js "mimeType") props) (PublishRoute.mimeType v) ∧
  optional_string URL_ok (get_prop (js "callToActionUrl") props)
    (PublishRoute.callToActionUrl v) ∧
  optional_string (λ _, true) (get_prop (js "campaignId") props) (PublishRoute.campaignId v) ∧
  get_prop (js "platforms") props =
    Some (JArr ((λ p, JStr (Socials.platform_literal p)) <$> PublishRoute.platforms v)) ∧
  PublishRoute.platforms v ≠ [].

(** The request bodies [publishSchema] accepts: the refinement asks for a
    truthy [mediaUrl] or a truthy [mediaBase64]. *)
Definition accepts_as (URL_ok : jsstring → bool) (props : list (jsstring * json))
    (v : PublishRoute.Parsed) : Prop :=
  fields_as URL_ok props v ∧
  (truthy (PublishRoute.mediaUrl v) = true ∨ truthy (PublishRoute.mediaBase64 v) = true).

(** A key that holds a non-empty string. *)
Definition has_text (value : option json) : bool :=
  match value with
  | Some (JStr (_ :: _)) => true
  | _ => false
  end.

(** The four platform literals, as JSON strings. *)
Definition recognized_platforms : list json :=
  (λ p, JStr (Socials.platform_literal p)) <$>
  [Socials.platform_x; Socials.platform_instagram; Socials.platform_tiktok;
   Socials.platform_youtube].

(** The body of a request with another caption. *)
Definition with_caption (s : jsstring) (props : list (jsstring * json))
    : list (jsstring * json) :=
  (js "caption", JStr s) :: props.

(** ** Sample requests and collaborators *)

Module Samples.
Import Socials.

Definition cdn_url : jsstring := js "https://cdn.example.com/a.png".

(** An instance of [URL_ok] that accepts [cdn_url], an absolute URL that
    [new URL] accepts, and nothing else. *)
Definition URL_ok (s : jsstring) : bool := bool_decide (s = cdn_url).

(** The media reference of a request. *)
Definition by_url : list (jsstring * json) := [(js "mediaUrl", JStr cdn_url)].

Definition inline : list (jsstring * json) :=
  [(js "mediaBase64", JStr (js "aGVsbG8=")); (js "mimeType", JStr (js "image/png"))].

(** The properties of a request body. *)
Definition props (type caption : string) (media : list (jsstring * json))
    (targets : list string) : list (jsstring * json) :=
  [(js "mediaType", JStr (js type)); (js "caption", JStr (js caption))]
  ++ media ++ [(js "platforms", JArr ((λ t, JStr (js t)) <$> targets))].

Definition posted (p : SocialPlatform) : PlatformResult :=
  {| platform := p; status := success; message := None;
     postId := Some (js "post-1") |}.

(** Every platform accepts the post. *)
Definition healthy : Adapter := λ p _, Normal (posted p).

(** As [healthy], but the call to instagram raises. *)
Definition instagram_down : Adapter := λ p input,
  match p with
  | platform_instagram => Throw (Error (js "socket hang up"))
  | _ => healthy p input
  end.

(** No platform accepts the post: two report a failure, two raise. *)
Definition all_failing : Adapter := λ p _,
  match p with
  | platform_x =>
      Normal {| platform := platform_x; status := failure;
                message := Some (js "rejected credentials"); postId := None |}
  | platform_instagram => Throw (Error (js "socket hang up"))
  | platform_tiktok =>
      Normal {| platform := platform_tiktok; status := failure;
                message := Some (js "rate limited"); postId := None |}
  | platform_youtube => Throw NotAnError
  end.

(** An image client that returns one image. *)
Definition one_image : OpenAI.Client :=
  {| OpenAI.images_generate := λ _,
       Normal {| OpenAI.created := 1700000000%N;
                 OpenAI.data :=
                   Some [{| OpenAI.b64_json := None;
                            OpenAI.url := Some cdn_url;
                            OpenAI.revised_prompt := None |}] |} |}.

Definition image_request : json :=
  JObj [(js "prompt", JStr (js "a red fox at dawn"));
        (js "aspectRatio", JStr (js "portrait"))].

End Samples.

(** * The video route and the page *)

(** ** More of JavaScript's strings *)

(** [s.startsWith(prefix)] *)
Fixpoint startsWith (s prefix : jsstring) : bool :=
  match prefix, s with
  | [], _ => true
  | c :: prefix', d :: s' => bool_decide (c = d) && startsWith s' prefix'
  | _ :: _, [] => false
  end.

(** [s.split(sep)] for a separator of one code unit; the empty string gives
    one empty piece. *)
Fixpoint split (sep : N) (s : jsstring) : list jsstring :=
  match s with
  | [] => [[]]
  | c :: rest =>
      if decide (c = sep) then [] :: split sep rest
      else match split sep rest with
           | piece :: pieces => (c :: piece) :: pieces
           | [] => [[c]]
           end
  end.

(** [s.replace(/\/$/, "")]: a slash at the very end is removed. *)
Fixpoint strip_trailing_slash (s : jsstring) : jsstring :=
  match s with
  | [] => []
  | [c] => if decide (c = 47%N) then [] else [c]
  | c :: rest => c :: strip_trailing_slash rest
  end.

(** The decimal digits of a natural number, as a template literal prints
    it. *)
Definition decimal (n : nat) : jsstring := js (pretty n).

(** ** JSON numbers *)

(** The value of a JSON number literal, exactly:
    [(-1)^negative * mantissa * 10^exponent]. *)
Record Decimal : Type := {
  negative : bool;
  mantissa : N;
  exponent : Z;
}.

Definition digit (c : N) : option N :=
  if bool_decide (48 ≤ c ≤ 57)%N then Some (c - 48)%N else None.

(** The number a sequence of digits writes after [acc]; [None] when a code
    unit is not a digit. *)
Fixpoint digits_value (acc : N) (s : jsstring) : option N :=
  match s with
  | [] => Some acc
  | c :: rest => d ← digit c; digits_value (10 * acc + d)%N rest
  end.

(** The part of [s] before the first code unit that satisfies [stop], and
    the part after it when there is one. *)
Fixpoint break_at (stop : N → bool) (s : jsstring) : jsstring * option jsstring :=
  match s with
  | [] => ([], None)
  | c :: rest =>
      if stop c then ([], Some rest)
      else let '(before, after) := break_at stop rest in (c :: before, after)
  end.

(** The grammar of JSON numbers: an optional minus sign, an integer part
    without a leading zero, an optional fraction and an optional exponent.
    [None] for a text that is not a JSON number. *)
Definition number_literal (s : jsstring) : option Decimal :=
  let '(neg, unsigned) :=
    match s with
    | 45%N :: rest => (true, rest)
    | _ => (false, s)
    end in
  let '(significand, exp) :=
    break_at (λ c, bool_decide (c = 101%N ∨ c = 69%N)) unsigned in
  let '(int, frac) := break_at (λ c, bool_decide (c = 46%N)) significand in
  let fraction := default [] frac in
  _ ← guard (int ≠ [] ∧ (int = [48%N] ∨ head int ≠ Some 48%N));
  _ ← guard (frac ≠ Some []);
  m ← digits_value 0 (int ++ fraction);
  e ← match exp with
      | None => Some 0%Z
      | Some (43%N :: ((_ :: _) as ds)) => Z.of_N <$> digits_value 0 ds
      | Some (45%N :: ((_ :: _) as ds)) => Z.opp <$> (Z.of_N <$> digits_value 0 ds)
      | Some ((_ :: _) as ds) => Z.of_N <$> digits_value 0 ds
      | Some [] => None
      end;
  Some {| negative := neg; mantissa := m;
          exponent := (e - Z.of_nat (length fraction))%Z |}.

(** [v * 2^k] as a fraction with a positive denominator. *)
Definition scaled (v : Decimal) (k : Z) : Z * Z :=
  let m := if negative v then (- Z.of_N (mantissa v))%Z else Z.of_N (mantissa v) in
  if bool_decide (0 ≤ exponent v)%Z
  then (m * 10 ^ exponent v * 2 ^ k, 1)%Z
  else (m * 2 ^ k, 10 ^ (- exponent v))%Z.

(** [v < p / 2^k] and [p / 2^k < v] *)
Definition below (v : Decimal) (p k : Z) : bool :=
  let '(n, d) := scaled v k in bool_decide (n < p * d)%Z.

Definition above (v : Decimal) (p k : Z) : bool :=
  let '(n, d) := scaled v k in bool_decide (p * d < n)%Z.

(** [z.number().min(1).max(60)].  The checks compare the number that
    [request.json()] made of the literal, the double nearest to its value
    (ties to even).  That double is below 1 exactly when the value is below
    [1 - 2^-54], halfway to the double before 1, and above 60 exactly when the
    value is above [60 + 2^-48], halfway to the double after 60.  Both checks
    run, each adds an issue with zod's own message and makes the result
    dirty.  The number is kept as its literal. *)
Definition number_1_to_60 : Zod.Schema jsstring := λ p input,
  match input with
  | Some (JNum n) =>
      match number_literal n with
      | Some v =>
          let small :=
            if below v (2 ^ 54 - 1) 54 then [Zod.issue too_small p None] else [] in
          let big :=
            if above v (60 * 2 ^ 48 + 1) 48 then [Zod.issue too_big p None] else [] in
          (Zod.dirty_if (negb (bool_decide (small ++ big = []))) n, small ++ big)
      | None => (Zod.INVALID, [Zod.issue invalid_type p None])
      end
  | _ => (Zod.INVALID, [Zod.issue invalid_type p None])
  end.

(** ** The publish handler over any orchestrator *)

Module PublishHandler.
Import Socials PublishRoute.

Section Generic.
Context {E : Type}.
Variable URL_ok : jsstring → bool.
(** The imported [publishToSocialPlatforms]. *)
Variable publish :
  PublishInput → list SocialPlatform → Eff E (list PlatformResult).

(** The route handler of [PublishRoute], with the function it imports as a
    parameter. *)
Definition POST (request : NextRequest)
    : Eff E (NextResponse (list PlatformResult)) :=
  try_catch
    (body ← request_json request;
     parsed ← lift (Zod.parse (publishSchema URL_ok) body);
     results ← publish (publish_input parsed) (platforms parsed);
     mret (NextResponse_json (Data results) 200))
    (λ error, mret (catch_response NotAnError_text error)).
End Generic.

End PublishHandler.

(** ** The video generation route *)

(** What the handler uses of [fetch]. *)
Module Fetch.

(** The response of [fetch]: [ok], [status], and the two readers of the
    body, each of which may throw. *)
Record Response (J : Type) : Type := {
  ok : bool;
  status : nat;
  text : Completion jsstring;
  json : Completion J;
}.
Arguments ok {J} _.
Arguments status {J} _.
Arguments text {J} _.
Arguments json {J} _.

End Fetch.

(** The JSON of the upstream video API as the handler reads it; numbers are
    kept as their literals. *)
Module Sora.

Record Item : Type := {
  url : option jsstring;
  id : option jsstring;
  status : option jsstring;
  eta_seconds : option jsstring;
}.

(** The type the handler casts the body to. *)
Record Json : Type := {
  data : option (list Item);
  task_id : option jsstring;
}.

(** What [response.json()] resolves to.  The cast to [Json] is not checked
    when the handler runs, and [null] is JSON: it is kept apart, because
    reading [json.data] of it throws. *)
Inductive Body : Type :=
| Null
| Object (json : Json).

End Sora.

Module VideoRoute.

Inductive MotionStrength : Type := subtle | balanced | dynamic.

Inductive StylePreset : Type := cinematic | documentary | hyperreal | stylized.

(** The output type of [requestSchema]; [duration] is a number. *)
Record Parsed : Type := {
  prompt : jsstring;
  aspectRatio : AspectRatio;
  duration : jsstring;
  motionStrength : MotionStrength;
  stylePreset : StylePreset;
  negativePrompt : option jsstring;
  referenceImageUrl : option jsstring;
}.

(** The object sent upstream. *)
Module Upstream.
Record Payload : Type := {
  model : jsstring;
  prompt : jsstring;
  aspect_ratio : AspectRatio;
  duration : jsstring;
  motion_strength : MotionStrength;
  style_preset : StylePreset;
  negative_prompt : option jsstring;
  reference_image_url : option jsstring;
}.
End Upstream.

(** One call of [fetch]: the URL, the [Authorization] header and the body;
    the method is POST and the content type JSON in every call. *)
Record FetchCall : Type := {
  input : jsstring;
  Authorization : jsstring;
  body : Upstream.Payload;
}.

(** The body of the response for a generation that went through. *)
Record Generated : Type := {
  videoUrl : option jsstring;
  status : jsstring;
  etaSeconds : option jsstring;
  taskId : option jsstring;
  raw : Sora.Json;
}.

(** The bodies the handler answers with besides the ones of its [catch]
    block: the generation, or [{ error, details }] when upstream refused. *)
Inductive Reply : Type :=
| Video (generated : Generated)
| UpstreamFailure (error details : jsstring).

Notation "f <*> x" := (Zod.ap f x) (at level 50, left associativity).

Section Handler.
(** [new URL(s)] does not throw. *)
Variable URL_ok : jsstring → bool.
(** The schema of [duration].  The handler only passes the parsed number
    on, so the schema is a parameter of the handler; the one of the source,
    [z.number().min(1).max(60).default(10)], is [duration_1_to_60] below. *)
Variable duration_schema : Zod.Schema jsstring.
(** [requireEnv("OPENAI_API_KEY")] returns the key or throws. *)
Variable OPENAI_API_KEY : Completion jsstring.
(** [env.OPENAI_BASE_URL] and [env.SORA_MODEL] *)
Variable OPENAI_BASE_URL : option jsstring.
Variable SORA_MODEL : option jsstring.
(** [fetch] returns a response or throws. *)
Variable fetch : FetchCall → Completion (Fetch.Response Sora.Body).
(** The message of the [TypeError] that reading a property of [null] throws;
    its text is the JavaScript engine's. *)
Variable TypeError_message : jsstring.

Definition requestSchema : Zod.Schema Parsed := λ p input,
  match input with
  | Some (JObj props) =>
      let key {A} := @Zod.shape_key A p props in
      Zod.pure Build_Parsed
      <*> key "prompt"
            (Zod.string URL_ok
               [Zod.min 12 (Some (js "Prompt must be at least 12 characters."))])
      <*> key "aspectRatio" (Zod.default aspectRatio_enum (JStr (js "landscape")))
      <*> key "duration" duration_schema
      <*> key "motionStrength"
            (Zod.default
               (Zod.enum [(js "subtle", subtle); (js "balanced", balanced);
                          (js "dynamic", dynamic)])
               (JStr (js "balanced")))
      <*> key "stylePreset"
            (Zod.default
               (Zod.enum [(js "cinematic", cinematic);
                          (js "documentary", documentary);
                          (js "hyperreal", hyperreal);
                          (js "stylized", stylized)])
               (JStr (js "cinematic")))
      <*> key "negativePrompt" (Zod.optional (Zod.string URL_ok []))
      <*> key "referenceImageUrl" (Zod.optional (Zod.string URL_ok [Zod.url]))
  | _ => (Zod.INVALID, [Zod.issue invalid_type p None])
  end.

(** [const baseUrl = ...] *)
Definition baseUrl : jsstring :=
  match OPENAI_BASE_URL with
  | Some base => strip_trailing_slash base
  | None => js "https://api.openai.com/v1"
  end.

(** [const payload = { ... }] *)
Definition payload_of (parsed : Parsed) : Upstream.Payload :=
  {| Upstream.model :=
       match SORA_MODEL with
       | Some m => if bool_decide (0 < length m) then m else js "sora-2"
       | None => js "sora-2"
       end;
     Upstream.prompt := prompt parsed;
     Upstream.aspect_ratio := aspectRatio parsed;
     Upstream.duration := duration parsed;
     Upstream.motion_strength := motionStrength parsed;
     Upstream.style_preset := stylePreset parsed;
     Upstream.negative_prompt := negativePrompt parsed;
     Upstream.reference_image_url := referenceImageUrl parsed |}.

(** The call of [fetch]. *)
Definition fetch_call (apiKey : jsstring) (payload : Upstream.Payload) : FetchCall :=
  {| input := baseUrl ++ js "/videos/generations";
     Authorization := js "Bearer " ++ apiKey;
     body := payload |}.

Definition NotAnError_text : jsstring :=
  js "Unexpected error during video generation.".

(** The route handler; the trace records the calls of [fetch].
    [console.error] is left out. *)
Definition POST (request : NextRequest) : Eff FetchCall (NextResponse Reply) :=
  try_catch
    (body ← request_json request;
     parsed ← lift (Zod.parse requestSchema body);
     apiKey ← lift (match OPENAI_API_KEY with
                    | Normal k => inr k
                    | Throw t => inl t
                    end);
     let payload := payload_of parsed in
     let sent := fetch_call apiKey payload in
     response ← call sent (fetch sent);
     if negb (Fetch.ok response) then
       errorText ← lift (match Fetch.text response with
                         | Normal t => inr t
                         | Throw t => inl t
                         end);
       mret (NextResponse_json
               (Data (UpstreamFailure
                        (js "Video generation failed with status "
                           ++ decimal (Fetch.status response))
                        errorText))
               502)
     else
       received ← lift (match Fetch.json response with
                        | Normal j => inr j
                        | Throw t => inl t
                        end);
       (* [json.data?.[0]]: the [?.] guards [data], not [json] *)
       json ← lift (match received with
                    | Sora.Object o => inr o
                    | Sora.Null => inl (Error TypeError_message)
                    end);
       let first := Sora.data json ≫= head in
       mret (NextResponse_json
               (Data (Video
                        {| videoUrl := first ≫= Sora.url;
                           status :=
                             match first ≫= Sora.status with
                             | Some s => s
                             | None => js "queued"
                             end;
                           etaSeconds := first ≫= Sora.eta_seconds;
                           taskId :=
                             match first ≫= Sora.id with
                             | Some i => Some i
                             | None => Sora.task_id json
                             end;
                           raw := json |}))
               200))
    (λ error, mret (catch_response NotAnError_text error)).
End Handler.

(** [z.number().min(1).max(60).default(10)] *)
Definition duration_1_to_60 : Zod.Schema jsstring :=
  Zod.default number_1_to_60 (JNum (js "10")).

End VideoRoute.

(** ** The page *)

Module Page.

(** [AssetState]; [etaSeconds] is a number or [null]. *)
Record AssetState : Type := {
  type : MediaType;
  url : option jsstring;
  base64 : option jsstring;
  mimeType : option jsstring;
  revisedPrompt : option jsstring;
  status : option jsstring;
  taskId : option jsstring;
  etaSeconds : option jsstring;
}.

(** The state of [Home], one field per [useState].  [videoDuration] is a
    number: [Some] with its literal when it is finite, [None] otherwise. *)
Record State : Type := {
  mode : MediaType;
  imagePrompt : jsstring;
  videoPrompt : jsstring;
  negativePrompt : jsstring;
  imageAspect : AspectRatio;
  imageStyle : jsstring;
  imageQuality : jsstring;
  videoAspect : AspectRatio;
  videoDuration : option jsstring;
  videoMotion : jsstring;
  videoStyle : jsstring;
  referenceImageUrl : jsstring;
  asset : option AssetState;
  caption : jsstring;
  title : jsstring;
  tags : jsstring;
  ctaUrl : jsstring;
  platformConfig : Socials.SocialPlatform → bool;
}.

(** What a handler does that can be seen from outside, in the order it does
    it. *)
Inductive Event : Type :=
| fetched (path : jsstring) (body : json)
| setAsset (asset : AssetState)
| toast_success (text : jsstring)
| toast_error (text : jsstring)
| toast_message (text description : jsstring).

Definition emit (event : Event) : Eff Event unit := λ trace, (Normal (), trace ++ [event]).

Definition platforms : list Socials.SocialPlatform :=
  [Socials.platform_x; Socials.platform_instagram; Socials.platform_tiktok;
   Socials.platform_youtube].

Definition platformLabels (p : Socials.SocialPlatform) : jsstring :=
  match p with
  | Socials.platform_x => js "X / Twitter"
  | Socials.platform_instagram => js "Instagram"
  | Socials.platform_tiktok => js "TikTok"
  | Socials.platform_youtube => js "YouTube Shorts"
  end.

(** [const activePlatforms = useMemo(...)] *)
Definition activePlatforms (s : State) : list Socials.SocialPlatform :=
  filter (λ p, platformConfig s p = true) platforms.

(** A key of an object literal whose value may be [undefined]:
    [JSON.stringify] leaves such a key out. *)
Definition optional_key (key : string) (value : option json)
    : list (jsstring * json) :=
  match value with
  | Some v => [(js key, v)]
  | None => []
  end.

(** [value || undefined] *)
Definition or_undefined (value : jsstring) : option jsstring :=
  match value with
  | [] => None
  | _ :: _ => Some value
  end.

(** [response.ok] *)
Definition response_ok {A} (response : NextResponse A) : bool :=
  bool_decide (200 ≤ response_status response) &&
  bool_decide (response_status response ≤ 299).

(** [payload?.error ?? fallback] turned into the message of [new Error(...)]:
    a string is the message itself, the object of a flattened [ZodError]
    prints as ["[object Object]"], and a body without [error] gives
    [fallback]. *)
Definition error_text {A} (fallback : jsstring) (payload : ResponseBody A)
    (error_of : A → option jsstring) : jsstring :=
  match payload with
  | Data a => match error_of a with Some m => m | None => fallback end
  | ErrorFlatten _ => js "[object Object]"
  | ErrorMessage m => m
  end.

Section Handlers.
(** The message of a [ZodError]: its issues, printed. *)
Variable ZodError_message : list ZodIssue → jsstring.

(** [error instanceof Error ? error.message : fallback] *)
Definition message_or (fallback : jsstring) (error : Thrown) : jsstring :=
  match error with
  | ZodError issues => ZodError_message issues
  | Error m => m
  | NotAnError => fallback
  end.

(** *** [handleGenerateImage] *)

(** [fetch("/api/generate/image", ...)] returns the route's response or
    throws. *)
Variable image_api : json → Completion (NextResponse ImageRoute.Generated).

Definition image_body (s : State) : json :=
  JObj [(js "prompt", JStr (imagePrompt s));
        (js "aspectRatio", JStr (AspectRatio_literal (imageAspect s)));
        (js "style", JStr (imageStyle s));
        (js "quality", JStr (imageQuality s));
        (js "negativePrompt", JStr (negativePrompt s))].

(** [const dataUrl = ...] *)
Definition dataUrl (imageUrl imageBase64 : option jsstring) : option jsstring :=
  match imageUrl with
  | Some u => Some u
  | None =>
      if truthy imageBase64
      then (λ b, js "data:image/png;base64," ++ b) <$> imageBase64
      else None
  end.

Definition handleGenerateImage (s : State) : Eff Event unit :=
  try_catch
    (let body := image_body s in
     response ← call (fetched (js "/api/generate/image") body) (image_api body);
     if negb (response_ok response) then
       throw (Error (error_text (js "Failed to generate image.")
                       (response_body response) (λ _, None)))
     else
       let payload :=
         match response_body response with
         | Data generated => Some generated
         | _ => None
         end in
       let imageBase64 := payload ≫= ImageRoute.imageBase64 in
       let imageUrl := payload ≫= ImageRoute.imageUrl in
       if negb (truthy imageBase64) && negb (truthy imageUrl) then
         throw (Error (js "No image payload returned from Veo-3."))
       else
         _ ← emit (setAsset
                     {| type := image;
                        base64 := imageBase64;
                        url := dataUrl imageUrl imageBase64;
                        revisedPrompt := payload ≫= ImageRoute.revisedPrompt;
                        mimeType := Some (js "image/png");
                        status := None; taskId := None; etaSeconds := None |});
         emit (toast_success (js "Image generated with Veo-3.")))
    (λ error, emit (toast_error (message_or (js "Image generation failed.") error))).

(** *** [handleGenerateVideo] *)

Variable video_api : json → Completion (NextResponse VideoRoute.Reply).

Definition video_body (s : State) : json :=
  JObj ([(js "prompt", JStr (videoPrompt s));
         (js "aspectRatio", JStr (AspectRatio_literal (videoAspect s)));
         (js "duration",
          match videoDuration s with Some n => JNum n | None => JNull end);
         (js "motionStrength", JStr (videoMotion s));
         (js "stylePreset", JStr (videoStyle s));
         (js "negativePrompt", JStr (negativePrompt s))]
        ++ optional_key "referenceImageUrl"
             (JStr <$> or_undefined (referenceImageUrl s))).

Definition handleGenerateVideo (s : State) : Eff Event unit :=
  try_catch
    (let body := video_body s in
     response ← call (fetched (js "/api/generate/video") body) (video_api body);
     if negb (response_ok response) then
       throw (Error (error_text (js "Failed to generate video.")
                       (response_body response)
                       (λ reply, match reply with
                                 | VideoRoute.UpstreamFailure e _ => Some e
                                 | VideoRoute.Video _ => None
                                 end)))
     else
       let payload :=
         match response_body response with
         | Data (VideoRoute.Video generated) => Some generated
         | _ => None
         end in
       let videoUrl := payload ≫= VideoRoute.videoUrl in
       _ ← emit (setAsset
                   {| type := video;
                      url := videoUrl;
                      taskId := payload ≫= VideoRoute.taskId;
                      status := VideoRoute.status <$> payload;
                      etaSeconds := payload ≫= VideoRoute.etaSeconds;
                      mimeType := Some (js "video/mp4");
                      base64 := None; revisedPrompt := None |});
       if truthy videoUrl then emit (toast_success (js "Video generated with Sora-2."))
       else emit (toast_message (js "Sora-2 task queued")
                    (js "Video is rendering asynchronously. Monitor the task ID to retrieve the final asset.")))
    (λ error, emit (toast_error (message_or (js "Video generation failed.") error))).

(** *** [handlePublish] *)

Variable publish_api :
  json → Completion (NextResponse (list Socials.PlatformResult)).

(** [tags.split(",").map((tag) => tag.trim()).filter(Boolean)] *)
Definition tags_of (tags : jsstring) : list jsstring :=
  filter (λ tag, tag ≠ []) (ImageRoute.trim <$> split 44%N tags).

(** The [mediaUrl] and [mediaBase64] of the request. *)
Definition mediaUrl_of (a : AssetState) : option jsstring :=
  match url a with
  | Some u => if truthy (Some u) && negb (startsWith u (js "data:")) then Some u else None
  | None => None
  end.

Definition mediaBase64_of (a : AssetState) : option jsstring :=
  match base64 a with
  | Some b => Some b
  | None =>
      match url a with
      | Some u => if startsWith u (js "data:") then split 44%N u !! 1 else None
      | None => None
      end
  end.

(** The object literal of the request body, as [JSON.stringify] prints it. *)
Definition publish_props (s : State) (a : AssetState) : list (jsstring * json) :=
  [(js "mediaType", JStr (MediaType_literal (type a)));
   (js "caption", JStr (caption s));
   (js "title", JStr (title s));
   (js "tags", JArr (JStr <$> tags_of (tags s)))]
  ++ optional_key "mediaUrl" (JStr <$> mediaUrl_of a)
  ++ optional_key "mediaBase64" (JStr <$> mediaBase64_of a)
  ++ optional_key "mimeType" (JStr <$> mimeType a)
  ++ optional_key "callToActionUrl" (JStr <$> or_undefined (ctaUrl s))
  ++ [(js "platforms",
       JArr ((λ p, JStr (Socials.platform_literal p)) <$> activePlatforms s))].

Definition publish_body (s : State) (a : AssetState) : json :=
  JObj (publish_props s a).

(** The toast of one failed platform. *)
Definition failure_toast (failure : Socials.PlatformResult) : Event :=
  toast_error
    (js "Failed to publish on " ++ platformLabels (Socials.platform failure)
       ++ js ". "
       ++ match Socials.message failure with Some m => m | None => [] end).

Definition handlePublish (s : State) : Eff Event unit :=
  match asset s with
  | None => emit (toast_error (js "Generate an image or video before publishing."))
  | Some a =>
      if bool_decide (length (activePlatforms s) = 0) then
        emit (toast_error (js "Select at least one platform to publish."))
      else
        try_catch
          (let body := publish_body s a in
           response ← call (fetched (js "/api/publish") body) (publish_api body);
           if negb (response_ok response) then
             throw (Error (error_text (js "Publishing failed for social platforms.")
                             (response_body response) (λ _, None)))
           else
             let results :=
               match response_body response with
               | Data results => results
               | _ => []
               end in
             let successes :=
               filter (λ r, Socials.status r = Socials.success) results in
             let failures :=
               filter (λ r, Socials.status r ≠ Socials.success) results in
             _ ← (if bool_decide (0 < length successes) then
                    emit (toast_success
                            (js "Published to " ++ decimal (length successes)
                               ++ js " platform"
                               ++ (if bool_decide (1 < length successes)
                                   then js "s" else [])
                               ++ js "."))
                  else mret ());
             _ ← mapM (λ failure, emit (failure_toast failure)) failures;
             mret ())
          (λ error, emit (toast_error (message_or (js "Publishing failed.") error)))
  end.
End Handlers.

(** *** The state of the page and what changes it *)

(** The setters of [useState]. *)
Definition setMode (v : MediaType) (s : State) : State :=
  Build_State
    v (imagePrompt s) (videoPrompt s) (negativePrompt s) (imageAspect s)
    (imageStyle s) (imageQuality s) (videoAspect s) (videoDuration s)
    (videoMotion s) (videoStyle s) (referenceImageUrl s) (asset s)
    (caption s) (title s) (tags s) (ctaUrl s) (platformConfig s).

Definition setImagePrompt (v : jsstring) (s : State) : State :=
  Build_State
    (mode s) v (videoPrompt s) (negativePrompt s) (imageAspect s)
    (imageStyle s) (imageQuality s) (videoAspect s) (videoDuration s)
    (videoMotion s) (videoStyle s) (referenceImageUrl s) (asset s)
    (caption s) (title s) (tags s) (ctaUrl s) (platformConfig s).

Definition setVideoPrompt (v : jsstring) (s : State) : State :=
  Build_State
    (mode s) (imagePrompt s) v (negativePrompt s) (imageAspect s)
    (imageStyle s) (imageQuality s) (videoAspect s) (videoDuration s)
    (videoMotion s) (videoStyle s) (referenceImageUrl s) (asset s)
    (caption s) (title s) (tags s) (ctaUrl s) (platformConfig s).

Definition setNegativePrompt (v : jsstring) (s : State) : State :=
  Build_State
    (mode s) (imagePrompt s) (videoPrompt s) v (imageAspect s) (imageStyle s)
    (imageQuality s) (videoAspect s) (videoDuration s) (videoMotion s)
    (videoStyle s) (referenceImageUrl s) (asset s) (caption s) (title s)
    (tags s) (ctaUrl s) (platformConfig s).

Definition setImageAspect (v : AspectRatio) (s : State) : State :=
  Build_State
    (mode s) (imagePrompt s) (videoPrompt s) (negativePrompt s) v
    (imageStyle s) (imageQuality s) (videoAspect s) (videoDuration s)
    (videoMotion s) (videoStyle s) (referenceImageUrl s) (asset s)
    (caption s) (title s) (tags s) (ctaUrl s) (platformConfig s).

Definition setImageStyle (v : jsstring) (s : State) : State :=
  Build_State
    (mode s) (imagePrompt s) (videoPrompt s) (negativePrompt s)
    (imageAspect s) v (imageQuality s) (videoAspect s) (videoDuration s)
    (videoMotion s) (videoStyle s) (referenceImageUrl s) (asset s)
    (caption s) (title s) (tags s) (ctaUrl s) (platformConfig s).

Definition setImageQuality (v : jsstring) (s : State) : State :=
  Build_State
    (mode s) (imagePrompt s) (videoPrompt s) (negativePrompt s)
    (imageAspect s) (imageStyle s) v (videoAspect s) (videoDuration s)
    (videoMotion s) (videoStyle s) (referenceImageUrl s) (asset s)
    (caption s) (title s) (tags s) (ctaUrl s) (platformConfig s).

Definition setVideoAspect (v : AspectRatio) (s : State) : State :=
  Build_State
    (mode s) (imagePrompt s) (videoPrompt s) (negativePrompt s)
    (imageAspect s) (imageStyle s) (imageQuality s) v (videoDuration s)
    (videoMotion s) (videoStyle s) (referenceImageUrl s) (asset s)
    (caption s) (title s) (tags s) (ctaUrl s) (platformConfig s).

Definition setVideoDuration (v : option jsstring) (s : State) : State :=
  Build_State
    (mode s) (imagePrompt s) (videoPrompt s) (negativePrompt s)
    (imageAspect s) (imageStyle s) (imageQuality s) (videoAspect s) v
    (videoMotion s) (videoStyle s) (referenceImageUrl s) (asset s)
    (caption s) (title s) (tags s) (ctaUrl s) (platformConfig s).

Definition setVideoMotion (v : jsstring) (s : State) : State :=
  Build_State
    (mode s) (imagePrompt s) (videoPrompt s) (negativePrompt s)
    (imageAspect s) (imageStyle s) (imageQuality s) (videoAspect s)
    (videoDuration s) v (videoStyle s) (referenceImageUrl s) (asset s)
    (caption s) (title s) (tags s) (ctaUrl s) (platformConfig s).

Definition setVideoStyle (v : jsstring) (s : State) : State :=
  Build_State
    (mode s) (imagePrompt s) (videoPrompt s) (negativePrompt s)
    (imageAspect s) (imageStyle s) (imageQuality s) (videoAspect s)
    (videoDuration s) (videoMotion s) v (referenceImageUrl s) (asset s)
    (caption s) (title s) (tags s) (ctaUrl s) (platformConfig s).

Definition setReferenceImageUrl (v : jsstring) (s : State) : State :=
  Build_State
    (mode s) (imagePrompt s) (videoPrompt s) (negativePrompt s)
    (imageAspect s) (imageStyle s) (imageQuality s) (videoAspect s)
    (videoDuration s) (videoMotion s) (videoStyle s) v (asset s) (caption s)
    (title s) (tags s) (ctaUrl s) (platformConfig s).

Definition storeAsset (v : option AssetState) (s : State) : State :=
  Build_State
    (mode s) (imagePrompt s) (videoPrompt s) (negativePrompt s)
    (imageAspect s) (imageStyle s) (imageQuality s) (videoAspect s)
    (videoDuration s) (videoMotion s) (videoStyle s) (referenceImageUrl s) v
    (caption s) (title s) (tags s) (ctaUrl s) (platformConfig s).

Definition setCaption (v : jsstring) (s : State) : State :=
  Build_State
    (mode s) (imagePrompt s) (videoPrompt s) (negativePrompt s)
    (imageAspect s) (imageStyle s) (imageQuality s) (videoAspect s)
    (videoDuration s) (videoMotion s) (videoStyle s) (referenceImageUrl s)
    (asset s) v (title s) (tags s) (ctaUrl s) (platformConfig s).

Definition setTitle (v : jsstring) (s : State) : State :=
  Build_State
    (mode s) (imagePrompt s) (videoPrompt s) (negativePrompt s)
    (imageAspect s) (imageStyle s) (imageQuality s) (videoAspect s)
    (videoDuration s) (videoMotion s) (videoStyle s) (referenceImageUrl s)
    (asset s) (caption s) v (tags s) (ctaUrl s) (platformConfig s).

Definition setTags (v : jsstring) (s : State) : State :=
  Build_State
    (mode s) (imagePrompt s) (videoPrompt s) (negativePrompt s)
    (imageAspect s) (imageStyle s) (imageQuality s) (videoAspect s)
    (videoDuration s) (videoMotion s) (videoStyle s) (referenceImageUrl s)
    (asset s) (caption s) (title s) v (ctaUrl s) (platformConfig s).

Definition setCtaUrl (v : jsstring) (s : State) : State :=
  Build_State
    (mode s) (imagePrompt s) (videoPrompt s) (negativePrompt s)
    (imageAspect s) (imageStyle s) (imageQuality s) (videoAspect s)
    (videoDuration s) (videoMotion s) (videoStyle s) (referenceImageUrl s)
    (asset s) (caption s) (title s) (tags s) v (platformConfig s).

Definition setPlatformConfig (v : Socials.SocialPlatform → bool) (s : State) : State :=
  Build_State
    (mode s) (imagePrompt s) (videoPrompt s) (negativePrompt s)
    (imageAspect s) (imageStyle s) (imageQuality s) (videoAspect s)
    (videoDuration s) (videoMotion s) (videoStyle s) (referenceImageUrl s)
    (asset s) (caption s) (title s) (tags s) (ctaUrl s) v.

(** The values the selectors offer. *)
Definition imageStyle_options : list jsstring :=
  js <$> ["cinematic"; "3d"; "illustration"; "digital-art"; "photographic"]%string.

Definition videoMotion_options : list jsstring :=
  js <$> ["subtle"; "balanced"; "dynamic"]%string.

Definition imageQuality_options : list jsstring :=
  js <$> ["standard"; "high"]%string.

Definition videoStyle_options : list jsstring :=
  js <$> ["cinematic"; "documentary"; "hyperreal"; "stylized"]%string.

(** The state [Home] starts in. *)
Definition initial : State :=
  {| mode := image;
     imagePrompt :=
       js "Hyper-realistic portrait of a future city fashion model wearing volumetric neon light armor, cinematic lighting, rain reflections, depth of field";
     videoPrompt :=
       js "Cinematic drone shot of bioluminescent rainforest canopy with mist rolling in, dynamic camera move, ultra-detailed foliage, volumetric lighting";
     negativePrompt := js "blurry, distorted, low-resolution, text artifacts";
     imageAspect := portrait;
     imageStyle := js "cinematic";
     imageQuality := js "high";
     videoAspect := vertical;
     videoDuration := Some (js "12");
     videoMotion := js "balanced";
     videoStyle := js "cinematic";
     referenceImageUrl := [];
     asset := None;
     caption :=
       js "Exploring the future of immersive storytelling with Veo-3 imagery and Sora-2 video intelligence.";
     title := js "Future Forward Media Drop";
     tags := js "AI,Innovation,CreativeTech";
     ctaUrl := js "https://agentic-2fbbfaf2.vercel.app";
     platformConfig := λ _, true |}.

(** One change of the state: an input or a button of the page, each offered
    only in the mode that renders it, or a handler storing an asset. *)
Inductive step : State → State → Prop :=
| switch_mode s m : step s (setMode m s)
| type_prompt s text :
    step s (match mode s with
            | image => setImagePrompt text s
            | video => setVideoPrompt text s
            end)
| type_negativePrompt s text : step s (setNegativePrompt text s)
| select_aspect s ratio :
    step s (match mode s with
            | image => setImageAspect ratio s
            | video => setVideoAspect ratio s
            end)
| select_imageStyle s value :
    mode s = image → value ∈ imageStyle_options → step s (setImageStyle value s)
| select_videoMotion s value :
    mode s = video → value ∈ videoMotion_options → step s (setVideoMotion value s)
| select_imageQuality s value :
    mode s = image → value ∈ imageQuality_options → step s (setImageQuality value s)
| type_videoDuration s number :
    mode s = video → step s (setVideoDuration number s)
| select_videoStyle s value :
    mode s = video → value ∈ videoStyle_options → step s (setVideoStyle value s)
| type_referenceImageUrl s text :
    mode s = video → step s (setReferenceImageUrl text s)
| type_title s text : step s (setTitle text s)
| type_caption s text : step s (setCaption text s)
| type_tags s text : step s (setTags text s)
| type_ctaUrl s text : step s (setCtaUrl text s)
| toggle_platform s platform :
    step s (setPlatformConfig
              (λ p, if decide (p = platform) then negb (platformConfig s p)
                    else platformConfig s p) s)
| store_asset s a : step s (storeAsset (Some a) s).

(** The states the page can be in. *)
Definition reachable (s : State) : Prop := rtc step initial s.

(** The publish route as the page reaches it: the body travels as JSON and
    comes back as the handler's response. *)
Definition publish_server (URL_ok : jsstring → bool)
    (policy : Socials.DuplicatePolicy) (adapter : Socials.Adapter)
    : json → Completion (NextResponse (list Socials.PlatformResult)) :=
  λ body, (run (PublishRoute.POST URL_ok policy adapter (Body body))).1.

(** The image route as the page reaches it. *)
Definition image_server (URL_ok : jsstring → bool) (VEO_MODEL : option jsstring)
    (getOpenAIClient : Completion OpenAI.Client)
    : json → Completion (NextResponse ImageRoute.Generated) :=
  λ body, (run (ImageRoute.POST URL_ok VEO_MODEL getOpenAIClient (Body body))).1.

End Page.

(** The keys of the shape of [publishSchema]. *)
Definition publish_keys : list jsstring :=
  js <$> ["mediaType"; "caption"; "title"; "tags"; "mediaUrl"; "mediaBase64";
          "mimeType"; "callToActionUrl"; "campaignId"; "platforms"]%string.

(** The issues the publish schema words itself. *)
Definition caption_issue : ZodIssue :=
  Zod.issue too_small [Key (js "caption")]
    (Some (js "Caption must be at least 3 characters.")).

Definition platforms_issue : ZodIssue :=
  Zod.issue too_small [Key (js "platforms")]
    (Some (js "Select at least one platform.")).

Definition media_issue : ZodIssue :=
  Zod.issue custom [Key (js "mediaUrl")]
    (Some (js "Provide either mediaUrl or mediaBase64.")).

(** ** Reading the image schema declaratively *)

Definition Style_literal (s : ImageRoute.Style) : jsstring :=
  match s with
  | ImageRoute.cinematic => js "cinematic"
  | ImageRoute.style_3d => js "3d"
  | ImageRoute.illustration => js "illustration"
  | ImageRoute.photographic => js "photographic"
  | ImageRoute.digital_art => js "digital-art"
  end.

Definition Quality_literal (q : ImageRoute.Quality) : jsstring :=
  match q with
  | ImageRoute.standard => js "standard"
  | ImageRoute.high => js "high"
  end.

(** What a key with a default must hold for an enum schema to parse it as
    [a]: nothing, when [a] is the default, or the literal of [a]. *)
Definition defaulted {A} (literal : A → jsstring) (d : A) (input : option json)
    (a : A) : Prop :=
  match input with
  | None => a = d
  | Some value => value = JStr (literal a)
  end.

(** The request bodies the image [requestSchema] accepts, with the value each
    is parsed to. *)
Definition image_accepts_as (props : list (jsstring * json))
    (v : ImageRoute.Parsed) : Prop :=
  get_prop (js "prompt") props = Some (JStr (ImageRoute.prompt v)) ∧
  10 ≤ length (ImageRoute.prompt v) ∧
  defaulted AspectRatio_literal square (get_prop (js "aspectRatio") props)
    (ImageRoute.aspectRatio v) ∧
  defaulted Style_literal ImageRoute.cinematic (get_prop (js "style") props)
    (ImageRoute.style v) ∧
  optional_string (λ _, true) (get_prop (js "negativePrompt") props)
    (ImageRoute.negativePrompt v) ∧
  defaulted Quality_literal ImageRoute.high (get_prop (js "quality") props)
    (ImageRoute.quality v).

(** A string of white space only. *)
Definition blank (s : jsstring) : Prop :=
  Forall (λ c, ImageRoute.is_white_space c = true) s.

(** ** The page's publish request, as the route reads it *)

(** The value [publishSchema] parses the page's request body to, when it
    accepts it. *)
Definition page_request (s : Page.State) (a : Page.AssetState) : PublishRoute.Parsed :=
  {| PublishRoute.mediaType := Page.type a;
     PublishRoute.caption := Page.caption s;
     PublishRoute.title := Some (Page.title s);
     PublishRoute.tags := Some (Page.tags_of (Page.tags s));
     PublishRoute.mediaUrl := Page.mediaUrl_of a;
     PublishRoute.mediaBase64 := Page.mediaBase64_of a;
     PublishRoute.mimeType := Page.mimeType a;
     PublishRoute.callToActionUrl := Page.or_undefined (Page.ctaUrl s);
     PublishRoute.campaignId := None;
     PublishRoute.platforms := Page.activePlatforms s |}.

(** An optional URL that is absent or well formed. *)
Definition url_or_absent (URL_ok : jsstring → bool) (value : option jsstring) : Prop :=
  match value with
  | Some u => URL_ok u = true
  | None => True
  end.

(** What every state of the page satisfies: each selector holds one of the
    values it offers. *)
Definition selectors_hold_options (s : Page.State) : Prop :=
  Page.imageStyle s ∈ Page.imageStyle_options ∧
  Page.imageQuality s ∈ Page.imageQuality_options ∧
  Page.videoMotion s ∈ Page.videoMotion_options ∧
  Page.videoStyle s ∈ Page.videoStyle_options.

(** A schema that adds no issue when its status is valid. *)
Definition clean {A} (schema : Zod.Schema A) : Prop :=
  ∀ p input v, (schema p input).1 = Zod.OK v → (schema p input).2 = [].


(** ** More sample requests and collaborators *)

Module Examples.

Definition ZodError_message : list ZodIssue → jsstring := λ _, js "Invalid input".

(** The schema of [duration] in the source. *)
Definition duration_schema : Zod.Schema jsstring := VideoRoute.duration_1_to_60.

Definition video_request : json :=
  JObj [(js "prompt", JStr (js "a slow pan over a misty lake"));
        (js "duration", JNum (js "8"))].

(** What [video_request] is parsed to. *)
Definition video_parsed : VideoRoute.Parsed :=
  {| VideoRoute.prompt := js "a slow pan over a misty lake";
     VideoRoute.aspectRatio := landscape;
     VideoRoute.duration := js "8";
     VideoRoute.motionStrength := VideoRoute.balanced;
     VideoRoute.stylePreset := VideoRoute.cinematic;
     VideoRoute.negativePrompt := None;
     VideoRoute.referenceImageUrl := None |}.

(** Upstream refuses with status 429. *)
Definition refusal : Fetch.Response Sora.Body :=
  {| Fetch.ok := false; Fetch.status := 429;
     Fetch.text := Normal (js "rate limited");
     Fetch.json := Throw NotAnError |}.

Definition refusing_fetch
    : VideoRoute.FetchCall → Completion (Fetch.Response Sora.Body) :=
  λ _, Normal refusal.

(** Upstream queues the task and returns no item yet. *)
Definition queued_json : Sora.Json :=
  {| Sora.data := None; Sora.task_id := Some (js "task-7") |}.

Definition queued : Fetch.Response Sora.Body :=
  {| Fetch.ok := true; Fetch.status := 200;
     Fetch.text := Normal [];
     Fetch.json := Normal (Sora.Object queued_json) |}.

Definition queueing_fetch
    : VideoRoute.FetchCall → Completion (Fetch.Response Sora.Body) :=
  λ _, Normal queued.

(** Upstream answers 200 with the body [null]. *)
Definition null_body : Fetch.Response Sora.Body :=
  {| Fetch.ok := true; Fetch.status := 200;
     Fetch.text := Normal (js "null");
     Fetch.json := Normal Sora.Null |}.

Definition null_fetch
    : VideoRoute.FetchCall → Completion (Fetch.Response Sora.Body) :=
  λ _, Normal null_body.

(** The message of V8 for reading [data] of [null]. *)
Definition TypeError_message : jsstring :=
  js "Cannot read properties of null (reading 'data')".

(** What the video route answers for a queued task. *)
Definition queued_reply : VideoRoute.Generated :=
  {| VideoRoute.videoUrl := None; VideoRoute.status := js "queued";
     VideoRoute.etaSeconds := None; VideoRoute.taskId := Some (js "task-7");
     VideoRoute.raw := queued_json |}.

(** An image asset with a remote URL. *)
Definition remote_image : Page.AssetState :=
  {| Page.type := image; Page.url := Some Samples.cdn_url; Page.base64 := None;
     Page.mimeType := Some (js "image/png"); Page.revisedPrompt := None;
     Page.status := None; Page.taskId := None; Page.etaSeconds := None |}.

(** The page after a generation stored [a], with an empty call to action. *)
Definition page_with (a : Page.AssetState) : Page.State :=
  Page.setCtaUrl [] (Page.storeAsset (Some a) Page.initial).

(** The image route answering with a URL and inline content, or with inline
    content only. *)
Definition generated_both : ImageRoute.Generated :=
  {| ImageRoute.imageBase64 := Some (js "aGVsbG8=");
     ImageRoute.imageUrl := Some Samples.cdn_url;
     ImageRoute.revisedPrompt := None;
     ImageRoute.created := 1700000000%N |}.

Definition generated_inline : ImageRoute.Generated :=
  {| ImageRoute.imageBase64 := Some (js "aGVsbG8=");
     ImageRoute.imageUrl := None;
     ImageRoute.revisedPrompt := None;
     ImageRoute.created := 1700000000%N |}.

(** An image client that returns no image. *)
Definition no_image : OpenAI.Client :=
  {| OpenAI.images_generate := λ _,
       Normal {| OpenAI.created := 1700000000%N; OpenAI.data := Some [] |} |}.

(** An orchestrator that posts everywhere and records nothing. *)
Definition post_everywhere
    : Socials.PublishInput → list Socials.SocialPlatform →
      Eff Socials.AdapterCall (list Socials.PlatformResult) :=
  λ _ targets, mret (Samples.posted <$> targets).

End Examples.

(** * Properties *)

(** ** The effect of a handler *)

Section EffFacts.
Context {E : Type}.

Lemma mapM_Eff_total {A B} (f : A → Eff E B) (g : A → B) (ev : A → E) l trace :
  (∀ a tr, f a tr = (Normal (g a), tr ++ [ev a])) →
  mapM f l trace = (Normal (g <$> l), trace ++ (ev <$> l)).
Proof.
  intros Hf. revert trace.
  induction l as [|a l IH]; intros trace; simpl.
  - by rewrite app_nil_r.
  - unfold mbind, Eff_bind at 1. rewrite Hf.
    unfold mbind, Eff_bind at 1. rewrite IH.
    unfold mret, Eff_ret. by rewrite <-app_assoc.
Qed.

End EffFacts.

(** ** zod *)

Section ZodFacts.
Import Zod.
Variable URL_ok : jsstring → bool.

Lemma ap_OK {A B} (f : ParseReturn (A → B)) (x : ParseReturn A) v :
  (ap f x).1 = OK v ↔ ∃ g a, f.1 = OK g ∧ x.1 = OK a ∧ v = g a.
Proof.
  unfold ap. destruct f as [[g|g|] fi], x as [[a|a|] xi]; simpl;
    split; try (intros (? & ? & ? & ? & ?)); try discriminate;
    try (intros [= <-]; by eauto).
  by simplify_eq.
Qed.

Lemma ap_OK_intro {A B} (f : ParseReturn (A → B)) (x : ParseReturn A) g a :
  f.1 = OK g → x.1 = OK a → (ap f x).1 = OK (g a).
Proof. intros. apply ap_OK. eauto. Qed.

Lemma pure_OK {A} (a v : A) : (pure a).1 = OK v ↔ v = a.
Proof. unfold pure; simpl. split; [by intros [= ->] | by intros ->]. Qed.

Lemma dirty_if_OK {A} b (v w : A) : dirty_if b v = OK w ↔ b = false ∧ w = v.
Proof. destruct b; simpl; split; try (by intros [= ->]); intros [? ?]; by simplify_eq. Qed.

Lemma string_OK checks p input s :
  (string URL_ok checks p input).1 = OK s ↔
  input = Some (JStr s) ∧ Forall (λ c, check_fails URL_ok s c = false) checks.
Proof.
  unfold string. destruct input as [[]|]; simpl;
    try (split; [discriminate | by intros [[=] _]]).
  rewrite dirty_if_OK, negb_false_iff, bool_decide_eq_true.
  split.
  - intros [Hnil ->]. split; [done|].
    apply Forall_forall. intros c Hc.
    destruct (check_fails URL_ok s0 c) eqn:Hf; [|done].
    assert (c ∈ filter (λ c, check_fails URL_ok s0 c = true) checks) as Hin
      by (apply list_elem_of_filter; done).
    rewrite Hnil in Hin. by apply elem_of_nil in Hin.
  - intros [[= ->] Hall]. split; [|done].
    induction Hall as [|c l Hc Hall IH]; [done|].
    rewrite filter_cons. rewrite decide_False by congruence. done.
Qed.

Lemma enum_OK {A} (options : list (jsstring * A)) p input a :
  (enum options p input).1 = OK a ↔
  ∃ s, input = Some (JStr s) ∧ enum_lookup s options = Some a.
Proof.
  unfold enum. destruct input as [[]|]; simpl;
    try (split; [discriminate | by intros (? & [=] & _)]).
  destruct (enum_lookup s options) eqn:Hl; simpl; split.
  - intros [= ->]. eauto.
  - intros (? & [= <-] & ?). congruence.
  - discriminate.
  - intros (? & [= <-] & ?). congruence.
Qed.

Lemma optional_OK {A} (inner : Schema A) p input o :
  (optional inner p input).1 = OK o ↔
  match input with
  | None => o = None
  | Some _ => ∃ v, o = Some v ∧ (inner p input).1 = OK v
  end.
Proof.
  unfold optional. destruct input as [j|]; simpl.
  - destruct (inner p (Some j)) as [[v|v|] iss]; simpl; split;
      try discriminate; try (intros (? & ? & [=])); try (intros [= <-]; by eauto).
    by subst.
  - split; [by intros [= <-] | by intros ->].
Qed.

Lemma default_OK {A} (inner : Schema A) d p input a :
  (default inner d p input).1 = OK a ↔
  (inner p (Some (match input with Some j => j | None => d end))).1 = OK a.
Proof. unfold default. by destruct input. Qed.

Lemma parse_items_OK {A} (elem : Schema A) (R : json → A → Prop) p i items l :
  (∀ q item a, (elem q (Some item)).1 = OK a ↔ R item a) →
  (parse_items elem p i items).1 = OK l ↔ Forall2 R items l.
Proof.
  intros Helem. revert i l.
  induction items as [|item items IH]; intros i l; cbn [parse_items].
  - rewrite pure_OK. split; [intros ->; constructor | by inversion 1].
  - rewrite ap_OK. split.
    + intros (g & a & Hg & Ha & ->).
      apply ap_OK in Hg as (g' & b & Hg' & Hb & ->).
      apply pure_OK in Hg' as ->.
      constructor; [by apply Helem in Hb | by apply IH in Ha].
    + inversion 1 as [|? b ? l' Hb Hl]; subst.
      exists (cons b), l'. split_and!; [|by apply IH|done].
      apply ap_OK. exists cons, b. rewrite pure_OK. by rewrite Helem.
Qed.

Lemma array_OK {A} (elem : Schema A) min_length p input l :
  (array elem min_length p input).1 = OK l ↔
  ∃ items, input = Some (JArr items) ∧
    match min_length with Some (n, _) => n ≤ length items | None => True end ∧
    (parse_items elem p 0 items).1 = OK l.
Proof.
  unfold array. destruct input as [[| | | |items|]|];
    try (simpl; split; [discriminate | by intros (? & [=] & _)]).
  rewrite ap_OK. split.
  - intros (g & a & Hg & Ha & ->). simpl in Hg.
    apply dirty_if_OK in Hg as [Hshort ->].
    apply negb_false_iff, bool_decide_eq_true in Hshort.
    exists items. split_and!; [done| |done].
    destruct min_length as [[n m]|]; [|done].
    case_bool_decide; [discriminate | lia].
  - intros (? & [= <-] & Hmin & Hl).
    exists (λ l, l), l. split_and!; [|done|done]. simpl.
    apply dirty_if_OK. split; [|done].
    apply negb_false_iff, bool_decide_eq_true.
    destruct min_length as [[n m]|]; [|done].
    rewrite bool_decide_eq_false_2 by lia. done.
Qed.

Lemma superRefine_OK {A} (inner : Schema A) issues p input v :
  (superRefine inner issues p input).1 = OK v ↔
  (inner p input).1 = OK v ∧ issues v = [].
Proof.
  unfold superRefine. destruct (inner p input) as [[w|w|] iss]; simpl;
    try (split; [discriminate | by intros [[=] _]]).
  rewrite dirty_if_OK, negb_false_iff, bool_decide_eq_true.
  split.
  - intros [Hnil ->]. split; [done|]. by apply fmap_nil_inv in Hnil.
  - intros [[= ->] ->]. done.
Qed.

Lemma parse_inr {A} (schema : Schema A) data v :
  parse schema data = inr v ↔ (schema [] (Some data)).1 = OK v.
Proof.
  unfold parse. destruct (schema [] (Some data)) as [[w|w|] iss]; simpl;
    split; try discriminate; by intros [= ->].
Qed.

Lemma parse_inl {A} (schema : Schema A) data t :
  parse schema data = inl t → ∃ issues, t = ZodError issues.
Proof.
  unfold parse. destruct (schema [] (Some data)) as [[w|w|] iss];
    intros [=]; eauto.
Qed.

End ZodFacts.

(** ** The publish schema *)

Section PublishSchemaFacts.
Import Zod Socials PublishRoute.
Variable URL_ok : jsstring → bool.

Lemma Forall2_eq_fmap {A B} (f : B → A) (l : list A) (k : list B) :
  Forall2 (λ a b, a = f b) l k ↔ l = f <$> k.
Proof.
  split.
  - induction 1 as [|a b l k Hab _ IH]; [done|]. rewrite fmap_cons. by f_equal.
  - intros ->. induction k; constructor; auto.
Qed.

Lemma platform_enum_lookup s p :
  enum_lookup s [(js "x", platform_x); (js "instagram", platform_instagram);
                 (js "tiktok", platform_tiktok); (js "youtube", platform_youtube)]
    = Some p ↔ s = platform_literal p.
Proof.
  split.
  - cbn [enum_lookup]. repeat case_decide; intros [= <-]; by subst.
  - intros ->. by destruct p.
Qed.

Lemma MediaType_enum_lookup s m :
  enum_lookup s [(js "image", image); (js "video", video)] = Some m ↔
  s = MediaType_literal m.
Proof.
  split.
  - cbn [enum_lookup]. repeat case_decide; intros [= <-]; by subst.
  - intros ->. by destruct m.
Qed.

Lemma optional_string_OK checks p input o :
  (optional (string URL_ok checks) p input).1 = OK o ↔
  optional_string
    (λ s, bool_decide (Forall (λ c, check_fails URL_ok s c = false) checks)) input o.
Proof.
  rewrite optional_OK. unfold optional_string.
  destruct input as [j|]; [|done].
  setoid_rewrite string_OK. split.
  - intros (s & -> & [= ->] & Hall). by rewrite bool_decide_eq_true.
  - destruct j; try done. intros [-> Hall%bool_decide_eq_true]. eauto.
Qed.

Lemma optional_string_plain p input o :
  (optional (string URL_ok []) p input).1 = OK o ↔
  optional_string (λ _, true) input o.
Proof.
  rewrite optional_string_OK. unfold optional_string.
  by destruct input as [[]|].
Qed.

Lemma optional_string_url p input o :
  (optional (string URL_ok [url]) p input).1 = OK o ↔
  optional_string URL_ok input o.
Proof.
  rewrite optional_string_OK. unfold optional_string.
  destruct input as [[]|]; try done.
  rewrite bool_decide_eq_true, Forall_singleton. simpl.
  by rewrite negb_false_iff.
Qed.

Lemma caption_OK m p input s :
  (string URL_ok [min 3 m] p input).1 = OK s ↔
  input = Some (JStr s) ∧ 3 ≤ length s.
Proof.
  rewrite string_OK, Forall_singleton. simpl.
  rewrite bool_decide_eq_false. split; intros [? ?]; split; try done; lia.
Qed.

Lemma tags_OK p input o :
  (optional (array (string URL_ok []) None) p input).1 = OK o ↔
  match input with
  | None => o = None
  | Some item => ∃ l, o = Some l ∧ item = JArr (JStr <$> l)
  end.
Proof.
  rewrite optional_OK. destruct input as [item|]; [|done].
  setoid_rewrite array_OK.
  assert (∀ q item (a : jsstring),
    (string URL_ok [] q (Some item)).1 = OK a ↔ item = JStr a) as Helem.
  { intros q j a. rewrite string_OK. split; [by intros [[= ->] _] | by intros ->]. }
  split.
  - intros (l & -> & items & [= ->] & _ & Hl). exists l. split; [done|].
    rewrite (parse_items_OK _ _ _ _ _ _ Helem) in Hl.
    by apply Forall2_eq_fmap in Hl as ->.
  - intros (l & -> & ->). exists l. split; [done|].
    eexists. split_and!; [done..|].
    rewrite (parse_items_OK _ _ _ _ _ _ Helem). by apply Forall2_eq_fmap.
Qed.

Lemma platforms_OK m p input l :
  (array platform_enum (Some (1, m)) p input).1 = OK l ↔
  input = Some (JArr ((λ p, JStr (platform_literal p)) <$> l)) ∧ l ≠ [].
Proof.
  rewrite array_OK.
  assert (∀ q item a,
    (platform_enum q (Some item)).1 = OK a ↔ item = JStr (platform_literal a))
    as Helem.
  { intros q j a. unfold platform_enum. rewrite enum_OK. split.
    - intros (s & [= ->] & Hs). by apply platform_enum_lookup in Hs as ->.
    - intros ->. eexists. split; [done|]. by apply platform_enum_lookup. }
  split.
  - intros (items & -> & Hmin & Hl).
    rewrite (parse_items_OK _ _ _ _ _ _ Helem) in Hl.
    apply Forall2_eq_fmap in Hl as ->. split; [done|].
    intros ->. simpl in Hmin. lia.
  - intros [-> Hne]. eexists. split_and!; [done| |].
    + rewrite length_fmap. destruct l; [done | simpl; lia].
    + rewrite (parse_items_OK _ _ _ _ _ _ Helem). by apply Forall2_eq_fmap.
Qed.

Lemma media_issues_nil v :
  media_issues v = [] ↔ truthy (mediaUrl v) = true ∨ truthy (mediaBase64 v) = true.
Proof.
  unfold media_issues.
  destruct (truthy (mediaUrl v)), (truthy (mediaBase64 v)); simpl;
    split; auto; try discriminate; intros [?|?]; discriminate.
Qed.

Lemma publishObject_OK p props v :
  (publishObject URL_ok p (Some (JObj props))).1 = OK v ↔ fields_as URL_ok props v.
Proof.
  unfold publishObject, fields_as. cbv zeta. split.
  - intros H.
    repeat (apply ap_OK in H as (? & ? & H & ? & ->)).
    apply pure_OK in H as ->. cbn [mediaType caption title tags mediaUrl
      mediaBase64 mimeType callToActionUrl campaignId platforms].
    unfold shape_key in *.
    repeat match goal with
    | H : (enum _ _ _).1 = OK _ |- _ =>
        apply enum_OK in H as (? & ? & ?%MediaType_enum_lookup); subst
    | H : (string _ [min _ _] _ _).1 = OK _ |- _ => apply caption_OK in H as [? ?]
    | H : (optional (string _ []) _ _).1 = OK _ |- _ =>
        apply optional_string_plain in H
    | H : (optional (string _ [url]) _ _).1 = OK _ |- _ =>
        apply optional_string_url in H
    | H : (optional (array _ _) _ _).1 = OK _ |- _ => apply tags_OK in H
    | H : (array platform_enum _ _ _).1 = OK _ |- _ => apply platforms_OK in H as [? ?]
    end.
    by split_and!.
  - intros (Hm & Hc & Hlen & Ht & Htags & Hu & Hb & Hmime & Hcta & Hcamp & Hp & Hne).
    destruct v as [vm vc vt vtags vu vb vmime vcta vcamp vp].
    cbn [mediaType caption title tags mediaUrl mediaBase64 mimeType
      callToActionUrl campaignId platforms] in *.
    repeat (apply ap_OK_intro); [done|..]; unfold shape_key.
    + apply enum_OK. eexists. split; [done|]. by apply MediaType_enum_lookup.
    + by apply caption_OK.
    + by apply optional_string_plain.
    + by apply tags_OK.
    + by apply optional_string_url.
    + by apply optional_string_plain.
    + by apply optional_string_plain.
    + by apply optional_string_url.
    + by apply optional_string_plain.
    + by apply platforms_OK.
Qed.

Lemma publishSchema_accepts body v :
  parse (publishSchema URL_ok) body = inr v ↔
  ∃ props, body = JObj props ∧ accepts_as URL_ok props v.
Proof.
  rewrite parse_inr. unfold publishSchema. rewrite superRefine_OK, media_issues_nil.
  destruct body as [| | | | |props];
    try (split; [by intros [[=] _] | by intros (? & [=] & _)]).
  rewrite publishObject_OK. unfold accepts_as. split.
  - intros [? ?]. by exists props.
  - by intros (? & [= <-] & ? & ?).
Qed.

End PublishSchemaFacts.

(** ** The orchestrator *)

Section OrchestratorFacts.
Import Socials.
Variable adapter : Adapter.

Lemma dedupe_elem_of seen targets p :
  p ∈ dedupe seen targets ↔ p ∈ targets ∧ p ∉ seen.
Proof.
  revert seen. induction targets as [|q rest IH]; intros seen; simpl.
  - rewrite elem_of_nil. tauto.
  - case_bool_decide as Hq.
    + rewrite IH, elem_of_cons. split; [tauto|].
      intros [[->|?] ?]; [done | tauto].
    + rewrite !elem_of_cons, IH, elem_of_cons.
      destruct (decide (p = q)) as [->|]; tauto.
Qed.

Lemma dedupe_NoDup seen targets : NoDup (dedupe seen targets).
Proof.
  revert seen. induction targets as [|q rest IH]; intros seen; simpl.
  - constructor.
  - case_bool_decide; [done|]. constructor; [|done].
    rewrite dedupe_elem_of, elem_of_cons. tauto.
Qed.

Lemma dedupe_id seen targets :
  NoDup targets → (∀ p, p ∈ targets → p ∉ seen) → dedupe seen targets = targets.
Proof.
  intros Hnd. revert seen.
  induction Hnd as [|q rest Hq Hnd IH]; intros seen Hseen; simpl; [done|].
  rewrite bool_decide_eq_false_2 by (apply Hseen; by left).
  f_equal. apply IH. intros p Hp. rewrite elem_of_cons.
  intros [->|?]; [done|]. apply (Hseen p); [by right | done].
Qed.

Lemma dispatch_run input target trace :
  dispatch adapter input target trace =
  (Normal (collected adapter input target), trace ++ [(target, input)]).
Proof.
  unfold dispatch, try_catch, call, collected.
  by destruct (adapter target input).
Qed.

Lemma fan_out_run input targets trace :
  mapM (dispatch adapter input) targets trace =
  (Normal (collected adapter input <$> targets),
   trace ++ ((λ p, (p, input)) <$> targets)).
Proof. apply mapM_Eff_total. intros p tr. apply dispatch_run. Qed.

Lemma publish_unique policy input targets :
  NoDup targets →
  run (publishToSocialPlatforms policy adapter input targets) =
  (Normal (collected adapter input <$> targets), (λ p, (p, input)) <$> targets).
Proof.
  intros Hnd. unfold run, publishToSocialPlatforms. destruct policy as [e|].
  - rewrite bool_decide_eq_true_2 by done. apply fan_out_run.
  - rewrite dedupe_id by (done || intros ? _; apply not_elem_of_nil).
    apply fan_out_run.
Qed.

Lemma collected_status_message input target e :
  adapter target input = Throw e →
  status (collected adapter input target) = failure ∧
  platform (collected adapter input target) = target ∧
  ∃ m, message (collected adapter input target) = Some m ∧ m ≠ [].
Proof.
  unfold collected. intros ->. simpl. split_and!; [done..|].
  eexists. split; [done|]. by destruct e as [|[]|].
Qed.

Lemma collected_platform input target :
  answers_for_platform adapter → platform (collected adapter input target) = target.
Proof.
  intros Hc. unfold collected.
  destruct (adapter target input) eqn:Hr; [by apply Hc in Hr | done].
Qed.

End OrchestratorFacts.

(** ** The publish handler *)

Section PublishHandlerFacts.
Import Socials PublishRoute.
Variable URL_ok : jsstring → bool.
Variable policy : DuplicatePolicy.
Variable adapter : Adapter.

Lemma POST_malformed m :
  run (POST URL_ok policy adapter (Malformed m)) =
  (Normal (NextResponse_json (ErrorMessage m) 500), []).
Proof. done. Qed.

Lemma POST_rejected body t :
  Zod.parse (publishSchema URL_ok) body = inl t →
  ∃ issues,
    t = ZodError issues ∧
    run (POST URL_ok policy adapter (Body body)) =
    (Normal (NextResponse_json (ErrorFlatten issues) 422), []).
Proof.
  intros Hp. destruct (parse_inl _ _ _ Hp) as [issues ->]. exists issues.
  split; [done|].
  unfold run, POST, try_catch, mbind, Eff_bind. simpl. by rewrite Hp.
Qed.

Lemma POST_accepted body parsed :
  Zod.parse (publishSchema URL_ok) body = inr parsed →
  run (POST URL_ok policy adapter (Body body)) =
  match run (publishToSocialPlatforms policy adapter (publish_input parsed)
               (platforms parsed)) with
  | (Normal results, trace) => (Normal (NextResponse_json (Data results) 200), trace)
  | (Throw error, trace) => (Normal (catch_response NotAnError_text error), trace)
  end.
Proof.
  intros Hp. unfold run, POST, try_catch, mbind, Eff_bind. simpl. rewrite Hp. simpl.
  by destruct (publishToSocialPlatforms _ _ _ _ _) as [[results|error] trace].
Qed.

Lemma not_accepted_rejected body :
  (∀ parsed, Zod.parse (publishSchema URL_ok) body ≠ inr parsed) →
  ∃ issues,
    Zod.parse (publishSchema URL_ok) body = inl (ZodError issues) ∧
    run (POST URL_ok policy adapter (Body body)) =
    (Normal (NextResponse_json (ErrorFlatten issues) 422), []).
Proof.
  intros Hno. destruct (Zod.parse (publishSchema URL_ok) body) as [t|parsed] eqn:Hp.
  - destruct (POST_rejected _ _ Hp) as (issues & -> & Hrun). eauto.
  - by destruct (Hno parsed).
Qed.

End PublishHandlerFacts.

(** ** The publish route against its claims *)

Section PublishClaims.
Import Socials PublishRoute.
Variable URL_ok : jsstring → bool.
Variable policy : DuplicatePolicy.

Lemma accepted_platforms props parsed :
  Zod.parse (publishSchema URL_ok) (JObj props) = inr parsed →
  get_prop (js "platforms") props =
    Some (JArr ((λ p, JStr (platform_literal p)) <$> platforms parsed)) ∧
  platforms parsed ≠ [].
Proof.
  intros (? & [= <-] & Hf & _)%publishSchema_accepts.
  unfold fields_as in Hf. tauto.
Qed.

Lemma platform_literal_inj p q : platform_literal p = platform_literal q → p = q.
Proof. by destruct p, q. Qed.

Lemma truthy_has_text check input o :
  optional_string check input o → truthy o = true → has_text input = true.
Proof.
  unfold optional_string. destruct input as [[]|]; try done.
  - intros [-> _]. by destruct s.
  - by intros ->.
Qed.

(** C1.  For every valid publish request whose [platforms] array names N
    platforms without repetition, the handler answers with status 200 and
    exactly N results, one per requested platform and in the order of the
    array: the i-th result carries the i-th platform of the request.  The
    adapters are taken to answer for the platform they are called for. *)
Theorem publish_one_result_per_target adapter props items parsed :
  answers_for_platform adapter →
  Zod.parse (publishSchema URL_ok) (JObj props) = inr parsed →
  get_prop (js "platforms") props = Some (JArr items) →
  NoDup items →
  ∃ results calls,
    run (POST URL_ok policy adapter (Body (JObj props))) =
      (Normal (NextResponse_json (Data results) 200), calls) ∧
    length results = length items ∧
    (λ r, JStr (platform_literal (platform r))) <$> results = items.
Proof.
  intros Hadapter Hparse Hitems Hnd.
  destruct (accepted_platforms _ _ Hparse) as [Hp _].
  rewrite Hp in Hitems. injection Hitems as <-.
  apply NoDup_fmap_1 in Hnd.
  rewrite (POST_accepted _ _ _ _ _ Hparse), publish_unique by done.
  eexists _, _. split_and!; [done| |].
  - by rewrite !length_fmap.
  - rewrite <-list_fmap_compose. apply list_fmap_ext. intros i p _. simpl.
    by rewrite collected_platform.
Qed.

(** C4.  Platform-level failures never fail the call: for every valid
    request with distinct targets and for adapters that behave in any way at
    all (each may succeed, report a failure or raise), the handler answers
    with status 200 and one result per requested platform, each being what
    was collected from that platform's adapter. *)
Theorem platform_failures_are_contained adapter body parsed :
  Zod.parse (publishSchema URL_ok) body = inr parsed →
  NoDup (platforms parsed) →
  ∃ results calls,
    run (POST URL_ok policy adapter (Body body)) =
      (Normal (NextResponse_json (Data results) 200), calls) ∧
    length results = length (platforms parsed) ∧
    results = collected adapter (publish_input parsed) <$> platforms parsed.
Proof.
  intros Hparse Hnd.
  rewrite (POST_accepted _ _ _ _ _ Hparse), publish_unique by done.
  eexists _, _. split_and!; [done| |done]. by rewrite length_fmap.
Qed.

(** C3.  An adapter that raises is isolated.  Take a valid request with
    distinct targets and two adapters that differ only in that the call for
    [target] raises [error] in [faulty].  Both calls answer 200 with one
    result per target, and with [faulty] the adapter of every target has
    still been invoked, once and in the order of the targets.  With
    [faulty], the result of [target] is a [failure] whose message is derived
    from [error]: it is not empty, and it is the error's own message whenever
    the error has one.  The result of every other target is the one obtained
    with [adapter], and it is what the adapter of that target returned (or
    the failure derived from what it raised). *)
Theorem adapter_fault_is_isolated (adapter faulty : Adapter) body parsed target error :
  Zod.parse (publishSchema URL_ok) body = inr parsed →
  NoDup (platforms parsed) →
  faulty target (publish_input parsed) = Throw error →
  (∀ p, p ≠ target →
     faulty p (publish_input parsed) = adapter p (publish_input parsed)) →
  ∃ results results' calls calls',
    run (POST URL_ok policy adapter (Body body)) =
      (Normal (NextResponse_json (Data results) 200), calls) ∧
    run (POST URL_ok policy faulty (Body body)) =
      (Normal (NextResponse_json (Data results') 200), calls') ∧
    length results' = length (platforms parsed) ∧
    calls' = (λ p, (p, publish_input parsed)) <$> platforms parsed ∧
    ∀ i p, platforms parsed !! i = Some p →
      if decide (p = target)
      then ∃ r m, results' !! i = Some r ∧ platform r = target ∧
             status r = failure ∧ message r = Some m ∧ m ≠ [] ∧
             m = fault_message error ∧
             (∀ text, error = Error text → text ≠ [] → m = text)
      else results' !! i = results !! i ∧
           match adapter p (publish_input parsed) with
           | Normal r => results' !! i = Some r
           | Throw e =>
               results' !! i =
               Some {| platform := p; status := failure;
                       message := Some (fault_message e); postId := None |}
           end.
Proof.
  intros Hparse Hnd Hthrow Hsame.
  rewrite !(POST_accepted _ _ _ _ _ Hparse), !publish_unique by done.
  eexists _, _, _, _. split_and!; [done|done|by rewrite length_fmap|done|].
  intros i p Hi. rewrite !list_lookup_fmap, Hi. simpl.
  case_decide as Hp.
  - subst p.
    destruct (collected_status_message faulty _ _ _ Hthrow) as (Hs & Hpl & m & Hm & Hne).
    exists (collected faulty (publish_input parsed) target), m.
    assert (m = fault_message error) as Hderived.
    { unfold collected in Hm. rewrite Hthrow in Hm. simpl in Hm. congruence. }
    split_and!; try done.
    intros text -> Htext. rewrite Hderived. by destruct text.
  - unfold collected. rewrite Hsame by done. split; [done|].
    by destruct (adapter p (publish_input parsed)).
Qed.

(** C6.  Whatever the request, and so for a request that names a platform
    twice: either the call is rejected (a response that is not 200, without
    results, no adapter invoked), or the response carries results in which
    every requested platform appears exactly once, and the adapters invoked
    are exactly the platforms of these results, each once.  This holds for
    each of the two policies the orchestrator may follow. *)
Theorem duplicate_targets_rejected_or_merged adapter body :
  answers_for_platform adapter →
  ∃ response calls,
    run (POST URL_ok policy adapter (Body body)) = (Normal response, calls) ∧
    match response_body response with
    | Data results =>
        response_status response = 200 ∧
        NoDup (platform <$> results) ∧
        calls.*1 = platform <$> results ∧
        ∀ parsed, Zod.parse (publishSchema URL_ok) body = inr parsed →
          ∀ p, p ∈ platforms parsed ↔ p ∈ platform <$> results
    | _ => response_status response ≠ 200 ∧ calls = []
    end.
Proof.
  intros Hadapter.
  assert (∀ input (targets : list SocialPlatform),
    platform <$> (collected adapter input <$> targets) = targets) as Hplat.
  { intros input targets. rewrite <-list_fmap_compose.
    rewrite <-(list_fmap_id targets) at 2. apply list_fmap_ext.
    intros i p _. simpl. by rewrite collected_platform. }
  assert (∀ (input : PublishInput) (targets : list SocialPlatform),
    ((λ p, (p, input)) <$> targets).*1 = targets) as Hcalls.
  { intros input targets. rewrite <-list_fmap_compose.
    rewrite <-(list_fmap_id targets) at 2. by apply list_fmap_ext. }
  destruct (Zod.parse (publishSchema URL_ok) body) as [t|parsed] eqn:Hparse.
  - destruct (POST_rejected URL_ok policy adapter _ _ Hparse) as (issues & _ & ->).
    eexists _, _. split; [done|]. simpl. by split.
  - rewrite (POST_accepted _ _ _ _ _ Hparse).
    unfold run, publishToSocialPlatforms. destruct policy as [e|].
    + case_bool_decide as Hnd.
      * rewrite fan_out_run. eexists _, _. split; [done|]. simpl.
        rewrite Hplat, Hcalls. split_and!; try done.
        by intros ? [= <-].
      * unfold throw. eexists _, _. split; [done|].
        by destruct e.
    + rewrite fan_out_run. eexists _, _. split; [done|]. simpl.
      rewrite Hplat, Hcalls. split_and!; try done.
      * apply dedupe_NoDup.
      * intros ? [= <-] p. rewrite dedupe_elem_of, elem_of_nil. tauto.
Qed.

End PublishClaims.

Section PublishValidationClaims.
Import Socials PublishRoute.
Variable URL_ok : jsstring → bool.
Variable policy : DuplicatePolicy.
Variable adapter : Adapter.

Local Abbreviation rejected props :=
  (∃ issues,
     Zod.parse (publishSchema URL_ok) (JObj props) = inl (ZodError issues) ∧
     run (POST URL_ok policy adapter (Body (JObj props))) =
     (Normal (NextResponse_json (ErrorFlatten issues) 422), [])).

Lemma recognized_literal p : JStr (platform_literal p) ∈ recognized_platforms.
Proof.
  unfold recognized_platforms. apply list_elem_of_fmap. exists p.
  split; [done|]. destruct p; repeat constructor.
Qed.

Lemma accepted_media props parsed :
  Zod.parse (publishSchema URL_ok) (JObj props) = inr parsed →
  has_text (get_prop (js "mediaUrl") props) = true ∨
  has_text (get_prop (js "mediaBase64") props) = true.
Proof.
  intros (? & [= <-] & Hf & Hmedia)%publishSchema_accepts.
  destruct Hf as (_ & _ & _ & _ & _ & Hu & Hb & _).
  destruct Hmedia as [Ht|Ht]; [left|right]; by eapply truthy_has_text.
Qed.

Lemma accepted_caption props parsed :
  Zod.parse (publishSchema URL_ok) (JObj props) = inr parsed →
  get_prop (js "caption") props = Some (JStr (caption parsed)) ∧
  3 ≤ length (caption parsed).
Proof.
  intros (? & [= <-] & Hf & _)%publishSchema_accepts.
  unfold fields_as in Hf. tauto.
Qed.

Lemma accepted_urls props parsed key value :
  Zod.parse (publishSchema URL_ok) (JObj props) = inr parsed →
  key ∈ [js "mediaUrl"; js "callToActionUrl"] →
  get_prop key props = Some value →
  ∃ s, value = JStr s ∧ URL_ok s = true.
Proof.
  intros (? & [= <-] & Hf & _)%publishSchema_accepts Hkey Hget.
  destruct Hf as (_ & _ & _ & _ & _ & Hu & _ & _ & Hcta & _).
  apply elem_of_cons in Hkey as [->|Hkey];
    [|apply list_elem_of_singleton in Hkey as ->];
    rewrite Hget in *; unfold optional_string in *;
    destruct value as [| | |s| |]; try done; exists s; tauto.
Qed.

(** C2, as the handler has it.  A request in which neither [mediaUrl] nor
    [mediaBase64] holds a non-empty string fails validation: [parse] throws
    a [ZodError], the handler answers 422 and no adapter is invoked.  So a
    request is accepted only if at least one of the two is present; it need
    not be exactly one, and [mimeType] is not asked for. *)
Theorem media_reference_required props :
  has_text (get_prop (js "mediaUrl") props) = false →
  has_text (get_prop (js "mediaBase64") props) = false →
  rejected props.
Proof.
  intros Hu Hb. apply not_accepted_rejected. intros parsed Hparse.
  destruct (accepted_media _ _ Hparse); congruence.
Qed.

(** C5, as the handler has it.  A request with a caption shorter than 3,
    with an empty target list, with a target that is not one of the four
    platform literals, or with neither media reference, fails as a whole:
    [parse] throws a [ZodError], the handler answers 422 with the issues and
    no results, and no adapter is invoked. *)
Theorem validation_failure_fails_whole_call props :
  (∃ s, get_prop (js "caption") props = Some (JStr s) ∧ length s < 3) ∨
  get_prop (js "platforms") props = Some (JArr []) ∨
  (∃ items item, get_prop (js "platforms") props = Some (JArr items) ∧
     item ∈ items ∧ item ∉ recognized_platforms) ∨
  (has_text (get_prop (js "mediaUrl") props) = false ∧
   has_text (get_prop (js "mediaBase64") props) = false) →
  rejected props.
Proof.
  intros Hbad. apply not_accepted_rejected. intros parsed Hparse.
  destruct Hbad as [(s & Hs & Hlen)|[Hempty|[(items & item & Hitems & Hin & Hnot)|[Hu Hb]]]].
  - destruct (accepted_caption _ _ Hparse) as [Hc ?].
    rewrite Hc in Hs. injection Hs as <-. lia.
  - destruct (accepted_platforms _ _ _ Hparse) as [Hp Hne].
    rewrite Hp in Hempty. injection Hempty as Hnil.
    by apply fmap_nil_inv in Hnil.
  - destruct (accepted_platforms _ _ _ Hparse) as [Hp _].
    rewrite Hp in Hitems. injection Hitems as <-.
    apply list_elem_of_fmap in Hin as (p & -> & _).
    apply Hnot, recognized_literal.
  - destruct (accepted_media _ _ Hparse); congruence.
Qed.

(** C8.  Validation accepts a request only if its target list is a
    non-empty array whose elements are all among the literals x, instagram,
    tiktok and youtube; a request with an empty target list fails validation
    (status 422, no adapter invoked). *)
Theorem target_list_validated props :
  (∀ parsed, Zod.parse (publishSchema URL_ok) (JObj props) = inr parsed →
     ∃ items, get_prop (js "platforms") props = Some (JArr items) ∧
       0 < length items ∧ Forall (λ item, item ∈ recognized_platforms) items) ∧
  (get_prop (js "platforms") props = Some (JArr []) → rejected props).
Proof.
  split.
  - intros parsed Hparse. destruct (accepted_platforms _ _ _ Hparse) as [Hp Hne].
    eexists. split_and!; [done| |].
    + rewrite length_fmap. destruct (platforms parsed); [done | simpl; lia].
    + apply Forall_fmap, Forall_forall. intros p _. apply recognized_literal.
  - intros Hempty. apply not_accepted_rejected. intros parsed Hparse.
    destruct (accepted_platforms _ _ _ Hparse) as [Hp Hne].
    rewrite Hp in Hempty. injection Hempty as Hnil.
    by apply fmap_nil_inv in Hnil.
Qed.

(** C9.  When [mediaUrl] or [callToActionUrl] is present and is not a
    string that [new URL] accepts, validation rejects the whole request:
    [parse] throws a [ZodError], the handler answers 422 and no adapter is
    invoked. *)
Theorem malformed_url_rejected props key value :
  key ∈ [js "mediaUrl"; js "callToActionUrl"] →
  get_prop key props = Some value →
  (∀ s, value = JStr s → URL_ok s = false) →
  rejected props.
Proof.
  intros Hkey Hget Hbad. apply not_accepted_rejected. intros parsed Hparse.
  destruct (accepted_urls _ _ _ _ Hparse Hkey Hget) as (s & -> & Hok).
  rewrite (Hbad s) in Hok; done.
Qed.

Lemma get_prop_with_caption key s props :
  key ≠ js "caption" → get_prop key (with_caption s props) = get_prop key props.
Proof. intros Hk. unfold with_caption. simpl. by rewrite decide_False. Qed.

Lemma fields_as_with_caption s0 s props v :
  fields_as URL_ok (with_caption s0 props) v →
  3 ≤ length s →
  fields_as URL_ok (with_caption s props)
    {| mediaType := mediaType v; caption := s; title := title v; tags := tags v;
       mediaUrl := mediaUrl v; mediaBase64 := mediaBase64 v;
       mimeType := mimeType v; callToActionUrl := callToActionUrl v;
       campaignId := campaignId v; platforms := platforms v |}.
Proof.
  unfold fields_as.
  rewrite !(get_prop_with_caption _ s0), !(get_prop_with_caption _ s) by done.
  cbn [mediaType caption title tags mediaUrl mediaBase64 mimeType
    callToActionUrl campaignId platforms].
  intros (? & _ & _ & ?) ?. split_and!; tauto.
Qed.

(** C7.  For a request whose other fields validate, validation accepts the
    request if and only if the caption has at least 3 code units ([length]
    is JavaScript's [String.length]). *)
Theorem caption_min_length props good s parsed :
  Zod.parse (publishSchema URL_ok) (JObj (with_caption good props)) = inr parsed →
  (∃ parsed', Zod.parse (publishSchema URL_ok) (JObj (with_caption s props)) = inr parsed')
  ↔ 3 ≤ length s.
Proof.
  intros Hgood. split.
  - intros [parsed' Hparse]. destruct (accepted_caption _ _ Hparse) as [Hc Hlen].
    unfold with_caption in Hc. simpl in Hc. by injection Hc as ->.
  - intros Hlen.
    apply publishSchema_accepts in Hgood as (? & [= <-] & Hf & Hmedia).
    eexists. apply publishSchema_accepts. eexists. split; [done|].
    split; [by eapply fields_as_with_caption|done].
Qed.

End PublishValidationClaims.

(** ** The image generation route *)

Section ImageRouteFacts.
Import ImageRoute.
Variable URL_ok : jsstring → bool.
Variable VEO_MODEL : option jsstring.
Variable getOpenAIClient : Completion OpenAI.Client.

Lemma AspectRatio_enum_lookup s ratio :
  Zod.enum_lookup s
    [(js "square", square); (js "portrait", portrait); (js "landscape", landscape);
     (js "ultrawide", ultrawide); (js "vertical", vertical)] = Some ratio ↔
  s = AspectRatio_literal ratio.
Proof.
  split.
  - cbn [Zod.enum_lookup]. repeat case_decide; intros [= <-]; by subst.
  - intros ->. by destruct ratio.
Qed.

Lemma requestSchema_aspectRatio props parsed :
  Zod.parse (requestSchema URL_ok) (JObj props) = inr parsed →
  match get_prop (js "aspectRatio") props with
  | None => aspectRatio parsed = square
  | Some value => value = JStr (AspectRatio_literal (aspectRatio parsed))
  end.
Proof.
  rewrite parse_inr. unfold requestSchema. cbv zeta. intros H.
  repeat (apply ap_OK in H as (? & ? & H & ? & ->)).
  apply pure_OK in H as ->. cbn [aspectRatio].
  match goal with
  | H : (Zod.shape_key _ _ "aspectRatio" _).1 = _ |- _ =>
      unfold Zod.shape_key in H; apply default_OK in H;
      unfold aspectRatio_enum in H;
      apply enum_OK in H as (s & Hs & Hl%AspectRatio_enum_lookup)
  end.
  destruct (get_prop (js "aspectRatio") props) as [value|].
  - injection Hs as ->. by subst.
  - injection Hs as <-.
    match goal with |- ?r = square => by destruct r; vm_compute in Hl end.
Qed.

Lemma requestSchema_object body parsed :
  Zod.parse (requestSchema URL_ok) body = inr parsed → ∃ props, body = JObj props.
Proof.
  rewrite parse_inr. destruct body; try discriminate. eauto.
Qed.

Lemma POST_sends body parsed :
  Zod.parse (requestSchema URL_ok) body = inr parsed →
  (run (POST URL_ok VEO_MODEL getOpenAIClient (Body body))).2 =
  match getOpenAIClient with
  | Normal _ => [payload_of VEO_MODEL parsed]
  | Throw _ => []
  end.
Proof.
  intros Hparse. unfold run, POST, try_catch, mbind, Eff_bind. simpl.
  rewrite Hparse. simpl. destruct getOpenAIClient as [client|t]; simpl; [|done].
  unfold call.
  destruct (OpenAI.images_generate client _) as [response|t]; simpl; [|done].
  by destruct (option_bind _ _ head (OpenAI.data response)).
Qed.

(** C10.  The table [aspectRatioToSize] sends square, portrait, landscape,
    ultrawide and vertical to 1024x1024, 1024x1536, 1536x1024, 1792x1024 and
    1024x1792; and for every valid image request the payload built has as
    [size] the entry of the request's [aspectRatio] ([square] when the key is
    absent), and this payload is the one sent upstream whenever the client
    is available. *)
Theorem image_size_follows_aspect_ratio :
  (ImageSize_literal (aspectRatioToSize square) = js "1024x1024" ∧
   ImageSize_literal (aspectRatioToSize portrait) = js "1024x1536" ∧
   ImageSize_literal (aspectRatioToSize landscape) = js "1536x1024" ∧
   ImageSize_literal (aspectRatioToSize ultrawide) = js "1792x1024" ∧
   ImageSize_literal (aspectRatioToSize vertical) = js "1024x1792") ∧
  ∀ body parsed,
    Zod.parse (requestSchema URL_ok) body = inr parsed →
    (∃ props, body = JObj props ∧
       match get_prop (js "aspectRatio") props with
       | None => aspectRatio parsed = square
       | Some value => value = JStr (AspectRatio_literal (aspectRatio parsed))
       end) ∧
    OpenAI.size (payload_of VEO_MODEL parsed) = aspectRatioToSize (aspectRatio parsed) ∧
    (run (POST URL_ok VEO_MODEL getOpenAIClient (Body body))).2 =
      match getOpenAIClient with
      | Normal _ => [payload_of VEO_MODEL parsed]
      | Throw _ => []
      end.
Proof.
  split; [done|]. intros body parsed Hparse. split_and!.
  - destruct (requestSchema_object _ _ Hparse) as [props ->].
    exists props. split; [done|]. by apply requestSchema_aspectRatio.
  - done.
  - by apply POST_sends.
Qed.

End ImageRouteFacts.

(** ** The claims on sample requests *)

Section OnSamples.
Import Socials PublishRoute.

Lemma healthy_answers : answers_for_platform Samples.healthy.
Proof. by intros p input r [= <-]. Qed.

Lemma instagram_down_answers : answers_for_platform Samples.instagram_down.
Proof. intros [] input r [= <-]; done. Qed.

Lemma NoDup_three_targets :
  NoDup [JStr (js "x"); JStr (js "instagram"); JStr (js "tiktok")].
Proof.
  repeat (constructor; [rewrite ?elem_of_cons, elem_of_nil; intuition discriminate|]).
  constructor.
Qed.

Lemma publish_one_result_per_target_witness :
  ∃ results calls,
    run (POST Samples.URL_ok merge_duplicates Samples.instagram_down
           (Body (JObj (Samples.props "image" "abc" Samples.by_url
                          ["x"; "instagram"; "tiktok"])))) =
      (Normal (NextResponse_json (Data results) 200), calls) ∧
    length results = 3 ∧
    (λ r, JStr (platform_literal (platform r))) <$> results =
      [JStr (js "x"); JStr (js "instagram"); JStr (js "tiktok")].
Proof.
  eapply (publish_one_result_per_target Samples.URL_ok merge_duplicates
            Samples.instagram_down
            (Samples.props "image" "abc" Samples.by_url ["x"; "instagram"; "tiktok"])
            [JStr (js "x"); JStr (js "instagram"); JStr (js "tiktok")]).
  - exact instagram_down_answers.
  - vm_compute. reflexivity.
  - reflexivity.
  - exact NoDup_three_targets.
Defined.

Lemma platform_failures_are_contained_witness :
  ∃ results calls,
    run (POST Samples.URL_ok (reject_duplicates (Error (js "duplicate platform")))
           Samples.all_failing
           (Body (JObj (Samples.props "video" "launch day" Samples.inline
                          ["x"; "instagram"; "tiktok"; "youtube"])))) =
      (Normal (NextResponse_json (Data results) 200), calls) ∧
    length results = 4 ∧
    status <$> results = [failure; failure; failure; failure].
Proof.
  edestruct (platform_failures_are_contained Samples.URL_ok
               (reject_duplicates (Error (js "duplicate platform")))
               Samples.all_failing
               (JObj (Samples.props "video" "launch day" Samples.inline
                        ["x"; "instagram"; "tiktok"; "youtube"])))
    as (results & calls & Hrun & Hlen & Hres).
  - vm_compute. reflexivity.
  - apply (bool_decide_unpack _). vm_compute. exact I.
  - exists results, calls. split; [exact Hrun|]. split; [exact Hlen|].
    rewrite Hres. reflexivity.
Defined.

Lemma adapter_fault_is_isolated_witness :
  ∃ results results' calls calls',
    run (POST Samples.URL_ok merge_duplicates Samples.healthy
           (Body (JObj (Samples.props "image" "abc" Samples.by_url
                          ["x"; "instagram"; "tiktok"])))) =
      (Normal (NextResponse_json (Data results) 200), calls) ∧
    run (POST Samples.URL_ok merge_duplicates Samples.instagram_down
           (Body (JObj (Samples.props "image" "abc" Samples.by_url
                          ["x"; "instagram"; "tiktok"])))) =
      (Normal (NextResponse_json (Data results') 200), calls') ∧
    length results' = 3 ∧
    calls'.*1 = [platform_x; platform_instagram; platform_tiktok] ∧
    results' !! 0 = results !! 0 ∧
    results' !! 0 = Some (Samples.posted platform_x) ∧
    (∃ r, results' !! 1 = Some r ∧ platform r = platform_instagram ∧
       status r = failure ∧ message r = Some (js "socket hang up")) ∧
    results' !! 2 = results !! 2 ∧
    results' !! 2 = Some (Samples.posted platform_tiktok).
Proof.
  edestruct (adapter_fault_is_isolated Samples.URL_ok merge_duplicates
               Samples.healthy Samples.instagram_down
               (JObj (Samples.props "image" "abc" Samples.by_url
                        ["x"; "instagram"; "tiktok"])))
    with (target := platform_instagram) (error := Error (js "socket hang up"))
    as (results & results' & calls & calls' & Hrun & Hrun' & Hlen & Hcalls & Hall).
  - vm_compute. reflexivity.
  - apply (bool_decide_unpack _). vm_compute. exact I.
  - reflexivity.
  - intros p Hp. destruct p; [reflexivity | destruct (Hp eq_refl) | reflexivity..].
  - exists results, results', calls, calls'.
    split; [exact Hrun|]. split; [exact Hrun'|]. split; [exact Hlen|].
    split; [rewrite Hcalls; reflexivity|].
    split; [exact (proj1 (Hall 0 platform_x eq_refl))|].
    split; [exact (proj2 (Hall 0 platform_x eq_refl))|].
    split.
    + destruct (Hall 1 platform_instagram eq_refl)
        as (r & m & Hr & Hpl & Hst & Hm & _ & _ & Hown).
      exists r. split; [exact Hr|]. split; [exact Hpl|]. split; [exact Hst|].
      rewrite Hm. f_equal. apply Hown; [reflexivity | discriminate].
    + split; [exact (proj1 (Hall 2 platform_tiktok eq_refl))|].
      exact (proj2 (Hall 2 platform_tiktok eq_refl)).
Defined.

Lemma duplicate_targets_rejected_or_merged_witness :
  ∃ response calls,
    run (POST Samples.URL_ok merge_duplicates Samples.healthy
           (Body (JObj (Samples.props "image" "abc" Samples.by_url
                          ["x"; "instagram"; "x"])))) =
      (Normal response, calls) ∧
    match response_body response with
    | Data results =>
        response_status response = 200 ∧
        NoDup (platform <$> results) ∧
        calls.*1 = platform <$> results ∧
        ∀ parsed,
          Zod.parse (publishSchema Samples.URL_ok)
            (JObj (Samples.props "image" "abc" Samples.by_url
                     ["x"; "instagram"; "x"])) = inr parsed →
          ∀ p, p ∈ platforms parsed ↔ p ∈ platform <$> results
    | _ => response_status response ≠ 200 ∧ calls = []
    end.
Proof.
  exact (duplicate_targets_rejected_or_merged Samples.URL_ok merge_duplicates
           Samples.healthy
           (JObj (Samples.props "image" "abc" Samples.by_url ["x"; "instagram"; "x"]))
           healthy_answers).
Defined.

Lemma media_reference_required_witness :
  ∃ issues,
    Zod.parse (publishSchema Samples.URL_ok)
      (JObj (Samples.props "image" "abc" [] ["x"])) = inl (ZodError issues) ∧
    run (POST Samples.URL_ok merge_duplicates Samples.healthy
           (Body (JObj (Samples.props "image" "abc" [] ["x"])))) =
    (Normal (NextResponse_json (ErrorFlatten issues) 422), []).
Proof.
  apply (media_reference_required Samples.URL_ok merge_duplicates Samples.healthy
           (Samples.props "image" "abc" [] ["x"])); reflexivity.
Defined.

Lemma validation_failure_fails_whole_call_witness :
  ∃ issues,
    Zod.parse (publishSchema Samples.URL_ok)
      (JObj (Samples.props "image" "ab" Samples.by_url ["x"])) = inl (ZodError issues) ∧
    run (POST Samples.URL_ok merge_duplicates Samples.healthy
           (Body (JObj (Samples.props "image" "ab" Samples.by_url ["x"])))) =
    (Normal (NextResponse_json (ErrorFlatten issues) 422), []).
Proof.
  apply (validation_failure_fails_whole_call Samples.URL_ok merge_duplicates
           Samples.healthy (Samples.props "image" "ab" Samples.by_url ["x"])).
  left. exists (js "ab"). split; [reflexivity | exact (le_n 3)].
Defined.

Lemma caption_min_length_witness :
  (∃ parsed',
     Zod.parse (publishSchema Samples.URL_ok)
       (JObj (with_caption (js "abc") (Samples.props "image" "" Samples.by_url ["x"])))
     = inr parsed')
  ↔ 3 ≤ length (js "abc").
Proof.
  eapply (caption_min_length Samples.URL_ok
            (Samples.props "image" "" Samples.by_url ["x"])
            (js "launch day") (js "abc")).
  vm_compute. reflexivity.
Defined.

Lemma target_list_validated_witness :
  (∃ items,
     get_prop (js "platforms")
       (Samples.props "image" "abc" Samples.by_url ["youtube"]) = Some (JArr items) ∧
     0 < length items ∧ Forall (λ item, item ∈ recognized_platforms) items) ∧
  (∃ issues,
     Zod.parse (publishSchema Samples.URL_ok)
       (JObj (Samples.props "image" "abc" Samples.by_url [])) = inl (ZodError issues) ∧
     run (POST Samples.URL_ok merge_duplicates Samples.healthy
            (Body (JObj (Samples.props "image" "abc" Samples.by_url [])))) =
     (Normal (NextResponse_json (ErrorFlatten issues) 422), [])).
Proof.
  split.
  - eapply (proj1 (target_list_validated Samples.URL_ok merge_duplicates
                     Samples.healthy
                     (Samples.props "image" "abc" Samples.by_url ["youtube"]))).
    vm_compute. reflexivity.
  - apply (proj2 (target_list_validated Samples.URL_ok merge_duplicates
                    Samples.healthy
                    (Samples.props "image" "abc" Samples.by_url []))).
    reflexivity.
Defined.

Lemma malformed_url_rejected_witness :
  ∃ issues,
    Zod.parse (publishSchema Samples.URL_ok)
      (JObj (Samples.props "image" "abc"
               [(js "mediaUrl", JStr (js "not a url"))] ["x"])) = inl (ZodError issues) ∧
    run (POST Samples.URL_ok merge_duplicates Samples.healthy
           (Body (JObj (Samples.props "image" "abc"
                          [(js "mediaUrl", JStr (js "not a url"))] ["x"])))) =
    (Normal (NextResponse_json (ErrorFlatten issues) 422), []).
Proof.
  apply (malformed_url_rejected Samples.URL_ok merge_duplicates Samples.healthy
           (Samples.props "image" "abc" [(js "mediaUrl", JStr (js "not a url"))] ["x"])
           (js "mediaUrl") (JStr (js "not a url"))).
  - apply list_elem_of_here.
  - reflexivity.
  - intros s Hs. injection Hs as <-. reflexivity.
Defined.

Lemma image_size_follows_aspect_ratio_witness :
  ∃ parsed,
    Zod.parse (ImageRoute.requestSchema Samples.URL_ok) Samples.image_request
      = inr parsed ∧
    ImageRoute.aspectRatio parsed = portrait ∧
    OpenAI.size (ImageRoute.payload_of None parsed) = size_1024x1536 ∧
    (run (ImageRoute.POST Samples.URL_ok None (Normal Samples.one_image)
            (Body Samples.image_request))).2 = [ImageRoute.payload_of None parsed].
Proof.
  eexists. split; [vm_compute; reflexivity|].
  split; [reflexivity|].
  destruct (proj2 (image_size_follows_aspect_ratio Samples.URL_ok None
                     (Normal Samples.one_image))
              Samples.image_request _ ltac:(vm_compute; reflexivity))
    as (_ & Hsize & Hsent).
  split; [exact Hsize | exact Hsent].
Defined.

(** Against C2 as stated: a request that carries a media URL together with
    inline base64 content and a MIME type passes validation; the handler
    answers 200 and the adapter of the target has been invoked. *)
Lemma both_media_references_accepted :
  has_text (get_prop (js "mediaUrl")
              (Samples.props "image" "abc" (Samples.by_url ++ Samples.inline) ["x"]))
    = true ∧
  has_text (get_prop (js "mediaBase64")
              (Samples.props "image" "abc" (Samples.by_url ++ Samples.inline) ["x"]))
    = true ∧
  is_Some (get_prop (js "mimeType")
             (Samples.props "image" "abc" (Samples.by_url ++ Samples.inline) ["x"])) ∧
  (run (POST Samples.URL_ok merge_duplicates Samples.healthy
          (Body (JObj (Samples.props "image" "abc"
                         (Samples.by_url ++ Samples.inline) ["x"]))))).1 =
    Normal (NextResponse_json (Data [Samples.posted platform_x]) 200) ∧
  (run (POST Samples.URL_ok merge_duplicates Samples.healthy
          (Body (JObj (Samples.props "image" "abc"
                         (Samples.by_url ++ Samples.inline) ["x"]))))).2.*1 =
    [platform_x].
Proof. vm_compute. repeat split. by eexists. Qed.

(** Against C5 as stated: both media references present is not a validation
    failure.  For a video sent to two platforms the call does not fail, both
    adapters are invoked and both results are returned. *)
Lemma both_media_references_published :
  has_text (get_prop (js "mediaUrl")
              (Samples.props "video" "launch day" (Samples.inline ++ Samples.by_url)
                 ["youtube"; "tiktok"]))
    = true ∧
  has_text (get_prop (js "mediaBase64")
              (Samples.props "video" "launch day" (Samples.inline ++ Samples.by_url)
                 ["youtube"; "tiktok"]))
    = true ∧
  (run (POST Samples.URL_ok (reject_duplicates (Error (js "duplicate platform")))
          Samples.healthy
          (Body (JObj (Samples.props "video" "launch day"
                         (Samples.inline ++ Samples.by_url) ["youtube"; "tiktok"]))))).1 =
    Normal (NextResponse_json
              (Data [Samples.posted platform_youtube; Samples.posted platform_tiktok])
              200) ∧
  (run (POST Samples.URL_ok (reject_duplicates (Error (js "duplicate platform")))
          Samples.healthy
          (Body (JObj (Samples.props "video" "launch day"
                         (Samples.inline ++ Samples.by_url) ["youtube"; "tiktok"]))))).2.*1 =
    [platform_youtube; platform_tiktok].
Proof. vm_compute. repeat split. Qed.

(** The caption boundary on concrete requests: three code units pass, two
    fail. *)
Example caption_of_three_passes :
  caption <$>
    (match Zod.parse (publishSchema Samples.URL_ok)
             (JObj (Samples.props "image" "abc" Samples.by_url ["x"])) with
     | inr parsed => Some parsed
     | inl _ => None
     end) = Some (js "abc").
Proof. vm_compute. reflexivity. Qed.

Example caption_of_two_fails :
  Zod.parse (publishSchema Samples.URL_ok)
    (JObj (Samples.props "image" "ab" Samples.by_url ["x"])) =
  inl (ZodError
         [Zod.issue too_small [Key (js "caption")]
            (Some (js "Caption must be at least 3 characters."))]).
Proof. vm_compute. reflexivity. Qed.

(** The schema itself keeps a repeated platform: it is the orchestrator
    that has to reject or merge it. *)
Example publishSchema_keeps_duplicates :
  platforms <$>
    (match Zod.parse (publishSchema Samples.URL_ok)
             (JObj (Samples.props "image" "abc" Samples.by_url ["x"; "instagram"; "x"])) with
     | inr parsed => Some parsed
     | inl _ => None
     end) = Some [platform_x; platform_instagram; platform_x].
Proof. vm_compute. reflexivity. Qed.

Example duplicates_rejected_without_dispatch :
  run (POST Samples.URL_ok (reject_duplicates (Error (js "duplicate platform")))
         Samples.healthy
         (Body (JObj (Samples.props "image" "abc" Samples.by_url ["x"; "instagram"; "x"]))))
  = (Normal (NextResponse_json (ErrorMessage (js "duplicate platform")) 500), []).
Proof. vm_compute. reflexivity. Qed.

Example duplicates_merged :
  (run (POST Samples.URL_ok merge_duplicates Samples.healthy
          (Body (JObj (Samples.props "image" "abc" Samples.by_url
                         ["x"; "instagram"; "x"]))))).1
  = Normal (NextResponse_json
              (Data [Samples.posted platform_x; Samples.posted platform_instagram])
              200).
Proof. vm_compute. reflexivity. Qed.

End OnSamples.

(** * Properties of the handlers and of the page *)

(** ** The publish handler, whatever the orchestrator *)

Section PublishHandlerFacts.
Import Socials PublishRoute.
Context {E : Type}.
Variable URL_ok : jsstring → bool.
Variable publish :
  PublishInput → list SocialPlatform → Eff E (list PlatformResult).

Lemma handler_run_rejected body t :
  Zod.parse (publishSchema URL_ok) body = inl t →
  run (PublishHandler.POST URL_ok publish (Body body)) =
  (Normal (catch_response NotAnError_text t), []).
Proof.
  intros Hp. unfold run, PublishHandler.POST, try_catch, mbind, Eff_bind. simpl.
  by rewrite Hp.
Qed.

Lemma handler_run_accepted body parsed :
  Zod.parse (publishSchema URL_ok) body = inr parsed →
  run (PublishHandler.POST URL_ok publish (Body body)) =
  match run (publish (publish_input parsed) (platforms parsed)) with
  | (Normal results, trace) => (Normal (NextResponse_json (Data results) 200), trace)
  | (Throw error, trace) => (Normal (catch_response NotAnError_text error), trace)
  end.
Proof.
  intros Hp. unfold run, PublishHandler.POST, try_catch, mbind, Eff_bind. simpl.
  rewrite Hp. simpl.
  by destruct (publish _ _ _) as [[results|error] trace].
Qed.

Lemma catch_response_status {A} fallback t :
  response_status (@catch_response A fallback t) ∈ [422; 500] ∧
  ∀ a, response_body (@catch_response A fallback t) ≠ Data a.
Proof.
  destruct t; simpl; split; try done.
  - apply list_elem_of_here.
  - apply list_elem_of_further, list_elem_of_here.
  - apply list_elem_of_further, list_elem_of_here.
Qed.

(** X1.  The publish handler never throws: whatever the request and whatever
    publishToSocialPlatforms does, it completes with a response whose status
    is 200, 422 or 500, and the status is 200 exactly when the body carries
    results. *)
Theorem publish_handler_answers_200_422_500 request :
  ∃ response trace,
    run (PublishHandler.POST URL_ok publish request) = (Normal response, trace) ∧
    response_status response ∈ [200; 422; 500] ∧
    (response_status response = 200 ↔ ∃ results, response_body response = Data results).
Proof.
  assert (∀ t, ∃ response : NextResponse (list PlatformResult),
    response = catch_response NotAnError_text t ∧
    response_status response ∈ [200; 422; 500] ∧
    (response_status response = 200 ↔ ∃ results, response_body response = Data results))
    as Hcatch.
  { intros t. eexists. split; [done|].
    destruct (@catch_response_status (list PlatformResult) NotAnError_text t)
      as [Hs Hb].
    split; [by apply list_elem_of_further|]. split.
    - intros H200. rewrite H200 in Hs.
      apply elem_of_cons in Hs as [?|Hs]; [done|].
      by apply list_elem_of_singleton in Hs.
    - intros [results Hr]. by destruct (Hb results). }
  destruct request as [body|m].
  - destruct (Zod.parse (publishSchema URL_ok) body) as [t|parsed] eqn:Hp.
    + rewrite (handler_run_rejected _ _ Hp).
      destruct (Hcatch t) as (r & -> & ? & ?). eauto.
    + rewrite (handler_run_accepted _ _ Hp).
      destruct (run (publish _ _)) as [[results|t] trace].
      * eexists _, _. split; [done|]. simpl. split; [apply list_elem_of_here|].
        split; eauto.
      * destruct (Hcatch t) as (r & -> & ? & ?). eauto.
  - destruct (Hcatch (Error m)) as (r & -> & ? & ?). eexists _, _. by split.
Qed.

(** X2.  A request that is not a valid body is answered without running
    publishToSocialPlatforms at all: a body that is not JSON gets status 500
    with the parser's message, a body that publishSchema rejects gets status
    422 with the issues of the ZodError. *)
Theorem publish_handler_validates_before_dispatch request :
  (∀ body parsed, request = Body body →
     Zod.parse (publishSchema URL_ok) body ≠ inr parsed) →
  ∃ response,
    run (PublishHandler.POST URL_ok publish request) = (Normal response, []) ∧
    match request with
    | Malformed m => response = NextResponse_json (ErrorMessage m) 500
    | Body body =>
        ∃ issues, Zod.parse (publishSchema URL_ok) body = inl (ZodError issues) ∧
          response = NextResponse_json (ErrorFlatten issues) 422
    end.
Proof.
  intros Hbad. destruct request as [body|m].
  - destruct (Zod.parse (publishSchema URL_ok) body) as [t|parsed] eqn:Hp.
    + destruct (parse_inl _ _ _ Hp) as [issues ->].
      rewrite (handler_run_rejected _ _ Hp). eauto.
    + by destruct (Hbad body parsed).
  - eexists. by split.
Qed.

(** X3.  For an accepted request the handler runs publishToSocialPlatforms
    once, with the parsed fields and with the platforms in the order of the
    request's array; results it returns are sent back unchanged with status
    200, and whatever it throws is answered by the catch block (422 for a
    ZodError, 500 otherwise). *)
Theorem publish_handler_forwards props parsed :
  Zod.parse (publishSchema URL_ok) (JObj props) = inr parsed →
  get_prop (js "platforms") props =
    Some (JArr ((λ p, JStr (platform_literal p)) <$> platforms parsed)) ∧
  run (PublishHandler.POST URL_ok publish (Body (JObj props))) =
  match run (publish (publish_input parsed) (platforms parsed)) with
  | (Normal results, trace) => (Normal (NextResponse_json (Data results) 200), trace)
  | (Throw error, trace) => (Normal (catch_response NotAnError_text error), trace)
  end.
Proof.
  intros Hp. split; [|by apply handler_run_accepted].
  apply publishSchema_accepts in Hp as (? & [= <-] & Hf & _).
  unfold fields_as in Hf. tauto.
Qed.

End PublishHandlerFacts.

Lemma POST_is_generic URL_ok policy adapter request :
  PublishRoute.POST URL_ok policy adapter request =
  PublishHandler.POST URL_ok (Socials.publishToSocialPlatforms policy adapter) request.
Proof. reflexivity. Qed.

(** ** The issues of the publish schema *)

Section IssueFacts.
Import Zod.
Variable URL_ok : jsstring → bool.

Lemma ap_clean {A B} (f : ParseReturn (A → B)) (x : ParseReturn A) v :
  (ap f x).1 = OK v →
  (∀ g, f.1 = OK g → f.2 = []) → (∀ a, x.1 = OK a → x.2 = []) →
  (ap f x).2 = [].
Proof.
  intros (g & a & Hg & Ha & _)%ap_OK Hf Hx. unfold ap. simpl.
  by rewrite (Hf g), (Hx a).
Qed.

Lemma string_clean checks : clean (string URL_ok checks).
Proof.
  intros p input v. unfold string. destruct input as [[]|]; simpl; try done.
  rewrite dirty_if_OK, negb_false_iff, bool_decide_eq_true. by intros [-> _].
Qed.

Lemma enum_clean {A} (options : list (jsstring * A)) : clean (enum options).
Proof.
  intros p input v. unfold enum. destruct input as [[]|]; simpl; try done.
  by destruct (enum_lookup s options).
Qed.

Lemma optional_clean {A} (inner : Schema A) : clean inner → clean (optional inner).
Proof.
  intros Hinner p input v. unfold optional. destruct input as [j|]; [|done].
  specialize (Hinner p (Some j)).
  destruct (inner p (Some j)) as [[w|w|] iss]; simpl in *; try done.
  intros _. by apply (Hinner w).
Qed.

Lemma parse_items_clean {A} (elem : Schema A) p i items :
  clean elem → ∀ l, (parse_items elem p i items).1 = OK l →
  (parse_items elem p i items).2 = [].
Proof.
  intros Helem. revert i.
  induction items as [|item items IH]; intros i l; cbn [parse_items]; [done|].
  intros H. eapply ap_clean; [done| |].
  - intros g Hg. eapply ap_clean; [done|done|]. intros a. apply Helem.
  - intros a. apply IH.
Qed.

Lemma array_clean {A} (elem : Schema A) min_length :
  clean elem → clean (array elem min_length).
Proof.
  intros Helem p input l. unfold array.
  destruct input as [[| | | |items|]|]; try done.
  intros H. eapply ap_clean; [done| |].
  - simpl. intros g Hg. apply dirty_if_OK in Hg as [Hs _].
    by apply negb_false_iff, bool_decide_eq_true in Hs.
  - intros a. by apply parse_items_clean.
Qed.

Lemma publishObject_clean : clean (PublishRoute.publishObject URL_ok).
Proof.
  intros p input v. unfold PublishRoute.publishObject.
  destruct input as [[| | | | |props]|]; try done. cbv zeta.
  intros H.
  repeat (eapply ap_clean;
          [done| |unfold shape_key; intros ?;
                  first [apply enum_clean | apply string_clean
                        | apply optional_clean, string_clean
                        | apply optional_clean, array_clean, string_clean
                        | apply array_clean, enum_clean]];
          intros ? ?).
  all: try done.
Qed.
End IssueFacts.

Section PublishIssues.
Import Zod Socials PublishRoute.
Variable URL_ok : jsstring → bool.

Lemma parse_issues {A} (schema : Schema A) data issues :
  parse schema data = inl (ZodError issues) → issues = (schema [] (Some data)).2.
Proof.
  unfold parse. destruct (schema [] (Some data)) as [[v|v|] iss]; simpl;
    by intros [= ->].
Qed.

Lemma superRefine_issues {A} (inner : Schema A) issues p input i :
  i ∈ (inner p input).2 → i ∈ (superRefine inner issues p input).2.
Proof.
  unfold superRefine. destruct (inner p input) as [[v|v|] iss]; simpl; [|  |done];
    intros; apply elem_of_app; by left.
Qed.

Lemma not_accepted body :
  (∀ parsed, parse (publishSchema URL_ok) body ≠ inr parsed) →
  ∃ issues, parse (publishSchema URL_ok) body = inl (ZodError issues).
Proof.
  intros Hno. destruct (parse (publishSchema URL_ok) body) as [t|parsed] eqn:Hp.
  - destruct (parse_inl _ _ _ Hp) as [issues ->]. eauto.
  - by destruct (Hno parsed).
Qed.

(** X4.  publishSchema reads only its ten keys: two request objects that agree
    on mediaType, caption, title, tags, mediaUrl, mediaBase64, mimeType,
    callToActionUrl, campaignId and platforms are parsed to the same value or
    rejected with the same issues, so unknown keys are ignored. *)
Theorem publishSchema_reads_its_keys props props' :
  (∀ key, key ∈ publish_keys → get_prop key props = get_prop key props') →
  parse (publishSchema URL_ok) (JObj props) =
  parse (publishSchema URL_ok) (JObj props').
Proof.
  intros Hkeys. unfold parse, publishSchema, superRefine, publishObject, shape_key.
  cbv zeta.
  rewrite !Hkeys; [done|..]; unfold publish_keys;
    rewrite list_elem_of_fmap; eexists; (split; [reflexivity|]);
    repeat first [apply list_elem_of_here | apply list_elem_of_further].
Qed.

(** X5.  When the caption is a string shorter than 3, the ZodError of the
    rejection contains the issue too_small at path caption with the message
    'Caption must be at least 3 characters.', whatever the other fields hold. *)
Theorem short_caption_is_reported props s :
  get_prop (js "caption") props = Some (JStr s) →
  length s < 3 →
  ∃ issues,
    parse (publishSchema URL_ok) (JObj props) = inl (ZodError issues) ∧
    caption_issue ∈ issues.
Proof.
  intros Hc Hlen.
  destruct (not_accepted (JObj props)) as [issues Hp].
  { intros parsed (? & [= <-] & Hf & _)%publishSchema_accepts.
    destruct Hf as (_ & Hc' & ? & _). rewrite Hc in Hc'. injection Hc' as ->. lia. }
  exists issues. split; [done|].
  rewrite (parse_issues _ _ _ Hp). apply superRefine_issues.
  unfold publishObject, shape_key, ap. cbn [snd]. cbv zeta. cbn [snd].
  rewrite Hc. unfold string at 1. cbn [snd filter list_filter].
  rewrite !elem_of_app. do 8 left. right.
  simpl. rewrite bool_decide_eq_true_2 by lia. simpl. apply list_elem_of_here.
Qed.

(** X6.  When platforms is an empty array, the ZodError of the rejection
    contains the issue too_small at path platforms with the message 'Select at
    least one platform.', whatever the other fields hold. *)
Theorem empty_platforms_is_reported props :
  get_prop (js "platforms") props = Some (JArr []) →
  ∃ issues,
    parse (publishSchema URL_ok) (JObj props) = inl (ZodError issues) ∧
    platforms_issue ∈ issues.
Proof.
  intros Hempty.
  destruct (not_accepted (JObj props)) as [issues Hp].
  { intros parsed (? & [= <-] & Hf & _)%publishSchema_accepts.
    destruct Hf as (_ & _ & _ & _ & _ & _ & _ & _ & _ & _ & Hp & Hne).
    rewrite Hp in Hempty. injection Hempty as Hnil.
    by apply fmap_nil_inv in Hnil. }
  exists issues. split; [done|].
  rewrite (parse_issues _ _ _ Hp). apply superRefine_issues.
  unfold publishObject, shape_key, ap. cbn [snd]. cbv zeta. cbn [snd].
  rewrite Hempty. rewrite !elem_of_app. right.
  simpl. apply list_elem_of_here.
Qed.

(** X7.  A request whose fields all validate but in which neither mediaUrl nor
    mediaBase64 is truthy is rejected with exactly one issue: the custom issue
    at path mediaUrl with the message 'Provide either mediaUrl or
    mediaBase64.'. *)
Theorem missing_media_is_the_only_issue props v :
  fields_as URL_ok props v →
  truthy (mediaUrl v) = false →
  truthy (mediaBase64 v) = false →
  parse (publishSchema URL_ok) (JObj props) = inl (ZodError [media_issue]).
Proof.
  intros Hf Hu Hb. apply (publishObject_OK URL_ok []) in Hf.
  unfold parse, publishSchema, superRefine.
  pose proof (publishObject_clean URL_ok _ _ _ Hf) as Hclean.
  destruct (publishObject URL_ok [] (Some (JObj props))) as [st iss].
  simpl in Hf, Hclean. subst st iss.
  unfold media_issues. rewrite Hu, Hb. reflexivity.
Qed.

(** X8.  publishSchema accepts exactly the JSON objects with mediaType image
    or video, a caption string of length at least 3, optional string title,
    mimeType, mediaBase64 and campaignId, optional tags array of strings,
    optional well-formed mediaUrl and callToActionUrl, a non-empty platforms
    array of the four literals, and a truthy mediaUrl or mediaBase64; the
    parsed value carries the same strings and the platforms in the same order. *)
Theorem publish_request_accepted_iff body v :
  parse (publishSchema URL_ok) body = inr v ↔
  ∃ props, body = JObj props ∧ accepts_as URL_ok props v.
Proof. apply publishSchema_accepts. Qed.

End PublishIssues.

(** ** The image route *)

Section ImageRouteMore.
Import Zod ImageRoute.
Variable URL_ok : jsstring → bool.
Variable VEO_MODEL : option jsstring.
Variable getOpenAIClient : Completion OpenAI.Client.

Lemma Style_enum_lookup s style :
  enum_lookup s
    [(js "cinematic", cinematic); (js "3d", style_3d);
     (js "illustration", illustration); (js "photographic", photographic);
     (js "digital-art", digital_art)] = Some style ↔
  s = Style_literal style.
Proof.
  split.
  - cbn [enum_lookup]. repeat case_decide; intros [= <-]; by subst.
  - intros ->. by destruct style.
Qed.

Lemma Quality_enum_lookup s quality :
  enum_lookup s [(js "standard", standard); (js "high", high)] = Some quality ↔
  s = Quality_literal quality.
Proof.
  split.
  - cbn [enum_lookup]. repeat case_decide; intros [= <-]; by subst.
  - intros ->. by destruct quality.
Qed.

Lemma default_enum_OK {A} (options : list (jsstring * A)) (literal : A → jsstring)
    (d : A) p input a :
  (∀ s b, enum_lookup s options = Some b ↔ s = literal b) →
  Inj (=) (=) literal →
  (default (enum options) (JStr (literal d)) p input).1 = OK a ↔
  defaulted literal d input a.
Proof.
  intros Hlookup Hinj. rewrite default_OK, enum_OK. unfold defaulted.
  destruct input as [value|]; split.
  - intros (s & [= ->] & ->%Hlookup). done.
  - intros ->. eexists. split; [done|]. by apply Hlookup.
  - intros (s & [= <-] & Hs%Hlookup). by apply Hinj in Hs.
  - intros ->. eexists. split; [done|]. by apply Hlookup.
Qed.

Lemma AspectRatio_literal_inj : Inj (=) (=) AspectRatio_literal.
Proof. by intros [] [] H; vm_compute in H. Qed.
Lemma Style_literal_inj : Inj (=) (=) Style_literal.
Proof. by intros [] [] H; vm_compute in H. Qed.
Lemma Quality_literal_inj : Inj (=) (=) Quality_literal.
Proof. by intros [] [] H; vm_compute in H. Qed.

Lemma prompt_OK n m p input s :
  (string URL_ok [min n m] p input).1 = OK s ↔
  input = Some (JStr s) ∧ n ≤ length s.
Proof.
  rewrite string_OK, Forall_singleton. simpl.
  rewrite bool_decide_eq_false. split; intros [? ?]; split; try done; lia.
Qed.

Lemma requestSchema_OK p props v :
  (requestSchema URL_ok p (Some (JObj props))).1 = OK v ↔ image_accepts_as props v.
Proof.
  unfold requestSchema, image_accepts_as. cbv zeta. split.
  - intros H.
    repeat (apply ap_OK in H as (? & ? & H & ? & ->)).
    apply pure_OK in H as ->.
    cbn [prompt aspectRatio style negativePrompt quality].
    unfold shape_key, aspectRatio_enum in *.
    repeat match goal with
    | H : (string _ [min _ _] _ _).1 = OK _ |- _ => apply prompt_OK in H as [? ?]
    | H : (optional (string _ []) _ _).1 = OK _ |- _ =>
        apply optional_string_plain in H
    end.
    split_and!; try done.
    + by eapply (default_enum_OK _ AspectRatio_literal square);
        [apply AspectRatio_enum_lookup|apply AspectRatio_literal_inj|].
    + by eapply (default_enum_OK _ Style_literal cinematic);
        [apply Style_enum_lookup|apply Style_literal_inj|].
    + by eapply (default_enum_OK _ Quality_literal high);
        [apply Quality_enum_lookup|apply Quality_literal_inj|].
  - intros (Hp & Hlen & Ha & Hs & Hn & Hq).
    destruct v as [vp va vs vn vq].
    cbn [prompt aspectRatio style negativePrompt quality] in *.
    repeat (apply ap_OK_intro); [done|..]; unfold shape_key, aspectRatio_enum.
    + by apply prompt_OK.
    + by apply (default_enum_OK _ AspectRatio_literal square);
        [apply AspectRatio_enum_lookup|apply AspectRatio_literal_inj|].
    + by apply (default_enum_OK _ Style_literal cinematic);
        [apply Style_enum_lookup|apply Style_literal_inj|].
    + by apply optional_string_plain.
    + by apply (default_enum_OK _ Quality_literal high);
        [apply Quality_enum_lookup|apply Quality_literal_inj|].
Qed.

Lemma image_schema_accepts body v :
  parse (requestSchema URL_ok) body = inr v ↔
  ∃ props, body = JObj props ∧ image_accepts_as props v.
Proof.
  rewrite parse_inr.
  destruct body as [| | | | |props];
    try (split; [discriminate | by intros (? & [=] & _)]).
  rewrite requestSchema_OK. split.
  - intros ?. by exists props.
  - by intros (? & [= <-] & ?).
Qed.

(** X9.  The image requestSchema accepts exactly the JSON objects with a
    prompt string of length at least 10, an aspectRatio, style and quality
    that are absent or one of their literals, and a negativePrompt that is
    absent or a string; absent aspectRatio, style and quality are parsed to
    square, cinematic and high. *)
Theorem image_request_accepted_iff body v :
  parse (requestSchema URL_ok) body = inr v ↔
  ∃ props, body = JObj props ∧ image_accepts_as props v.
Proof. apply image_schema_accepts. Qed.

Lemma image_run_rejected body t :
  parse (requestSchema URL_ok) body = inl t →
  run (POST URL_ok VEO_MODEL getOpenAIClient (Body body)) =
  (Normal (catch_response NotAnError_text t), []).
Proof.
  intros Hp. unfold run, POST, try_catch, mbind, Eff_bind. simpl. by rewrite Hp.
Qed.

(** The response to a valid request, from what the client does. *)
Lemma image_run_accepted body parsed :
  parse (requestSchema URL_ok) body = inr parsed →
  run (POST URL_ok VEO_MODEL getOpenAIClient (Body body)) =
  match getOpenAIClient with
  | Throw t => (Normal (catch_response NotAnError_text t), [])
  | Normal openai =>
      (Normal
         match OpenAI.images_generate openai (payload_of VEO_MODEL parsed) with
         | Throw t => catch_response NotAnError_text t
         | Normal response =>
             match OpenAI.data response with
             | Some (first :: _) =>
                 NextResponse_json
                   (Data {| imageBase64 := OpenAI.b64_json first;
                            imageUrl := OpenAI.url first;
                            revisedPrompt := OpenAI.revised_prompt first;
                            created := OpenAI.created response |})
                   200
             | _ =>
                 NextResponse_json
                   (ErrorMessage (js "Image generation returned no results.")) 502
             end
         end,
       [payload_of VEO_MODEL parsed])
  end.
Proof.
  intros Hp. unfold run, POST, try_catch, mbind, Eff_bind. simpl.
  rewrite Hp. simpl. destruct getOpenAIClient as [client|t]; simpl; [|done].
  unfold call.
  destruct (OpenAI.images_generate client _) as [response|t]; simpl; [|done].
  by destruct (OpenAI.data response) as [[|first rest]|].
Qed.

(** X10.  An image request that requestSchema rejects is answered with status
    422 and the issues, and nothing is sent to the image API, whether or not a
    client is available. *)
Theorem image_invalid_request_sends_nothing body :
  (∀ parsed, parse (requestSchema URL_ok) body ≠ inr parsed) →
  ∃ issues,
    parse (requestSchema URL_ok) body = inl (ZodError issues) ∧
    run (POST URL_ok VEO_MODEL getOpenAIClient (Body body)) =
    (Normal (NextResponse_json (ErrorFlatten issues) 422), []).
Proof.
  intros Hno. destruct (parse (requestSchema URL_ok) body) as [t|parsed] eqn:Hp.
  - destruct (parse_inl _ _ _ Hp) as [issues ->]. exists issues.
    split; [done|]. by rewrite (image_run_rejected _ _ Hp).
  - by destruct (Hno parsed).
Qed.

(** X11.  For an accepted image request the payload's model is never empty,
    its style is natural exactly when the request's style is 'photographic'
    (vivid otherwise, also by default), and its quality is standard exactly
    when the request's quality is 'standard' (hd otherwise, also by default). *)
Theorem image_payload_follows_request props parsed :
  parse (requestSchema URL_ok) (JObj props) = inr parsed →
  OpenAI.model (payload_of VEO_MODEL parsed) ≠ [] ∧
  (OpenAI.style (payload_of VEO_MODEL parsed) = OpenAI.natural ↔
     get_prop (js "style") props = Some (JStr (js "photographic"))) ∧
  (OpenAI.quality (payload_of VEO_MODEL parsed) = OpenAI.standard ↔
     get_prop (js "quality") props = Some (JStr (js "standard"))).
Proof.
  intros (? & [= <-] & Hacc)%image_schema_accepts.
  destruct Hacc as (_ & _ & _ & Hs & _ & Hq). split_and!.
  - simpl. destruct VEO_MODEL as [[|c m]|]; done.
  - unfold payload_of, styleMappings, defaulted in *. simpl.
    destruct (get_prop (js "style") props) as [value|]; [subst value|subst];
      destruct (style parsed); split; try done; by intros [= H].
  - unfold payload_of, defaulted in *. simpl.
    destruct (get_prop (js "quality") props) as [value|]; [subst value|subst];
      destruct (quality parsed); split; try done; by intros [= H].
Qed.

Lemma trimStart_head s c rest :
  trimStart s = c :: rest → is_white_space c = false.
Proof.
  induction s as [|d s IH]; simpl; [done|].
  destruct (is_white_space d) eqn:Hd; [done|]. by intros [= <- _].
Qed.

Lemma trimStart_nil s : trimStart s = [] ↔ blank s.
Proof.
  unfold blank. induction s as [|d s IH]; simpl; [by split; [constructor|]|].
  destruct (is_white_space d) eqn:Hd.
  - rewrite IH. split; [by constructor | by inversion 1].
  - split; [done|]. inversion 1; congruence.
Qed.

Lemma trimStart_blank s : blank (trimStart s) → blank s.
Proof.
  intros Hb. apply trimStart_nil.
  destruct (trimStart s) as [|c rest] eqn:Hs; [done|].
  apply trimStart_head in Hs. inversion Hb; congruence.
Qed.

Lemma trim_nil s : trim s = [] ↔ blank s.
Proof.
  unfold trim. split.
  - intros H. apply (f_equal reverse) in H. rewrite reverse_involutive in H.
    simpl in H. apply trimStart_nil in H. unfold blank in H.
    rewrite Forall_reverse in H. by apply trimStart_blank.
  - intros Hb. apply trimStart_nil in Hb. rewrite Hb. done.
Qed.

(** X12.  The prompt sent upstream is the request's prompt when negativePrompt
    is absent, empty or only white space; otherwise it is the prompt followed
    by two line feeds, 'Avoid: ' and the negativePrompt as given, untrimmed. *)
Theorem negative_prompt_is_appended_verbatim parsed :
  prompt_of parsed =
  match negativePrompt parsed with
  | Some negative =>
      if decide (blank negative) then prompt parsed
      else prompt parsed ++ [10; 10]%N ++ js "Avoid: " ++ negative
  | None => prompt parsed
  end.
Proof.
  unfold prompt_of. destruct (negativePrompt parsed) as [negative|]; [|done].
  case_decide as Hb.
  - apply trim_nil in Hb. rewrite Hb. simpl. by rewrite andb_false_r.
  - destruct negative as [|c negative]; [by destruct Hb; constructor|].
    simpl truthy. rewrite andb_true_l.
    rewrite bool_decide_eq_true_2; [done|].
    destruct (trim (c :: negative)) eqn:Ht; [by apply trim_nil in Ht|simpl; lia].
Qed.

(** X13.  For an accepted image request: when getOpenAIClient throws, nothing
    is sent and the error is answered by the catch block; otherwise exactly
    one payload is sent, and the response is the catch block's when the API
    throws, status 502 'Image generation returned no results.' when the API
    returns no image, and status 200 with the first image's b64_json, url and
    revised_prompt otherwise. *)
Theorem image_handler_outcomes body parsed :
  parse (requestSchema URL_ok) body = inr parsed →
  ∃ response sent,
    run (POST URL_ok VEO_MODEL getOpenAIClient (Body body)) = (Normal response, sent) ∧
    match getOpenAIClient with
    | Throw t => sent = [] ∧ response = catch_response NotAnError_text t
    | Normal openai =>
        sent = [payload_of VEO_MODEL parsed] ∧
        match OpenAI.images_generate openai (payload_of VEO_MODEL parsed) with
        | Throw t => response = catch_response NotAnError_text t
        | Normal upstream =>
            match OpenAI.data upstream ≫= head with
            | Some first =>
                response =
                NextResponse_json
                  (Data {| imageBase64 := OpenAI.b64_json first;
                           imageUrl := OpenAI.url first;
                           revisedPrompt := OpenAI.revised_prompt first;
                           created := OpenAI.created upstream |})
                  200
            | None =>
                response =
                NextResponse_json
                  (ErrorMessage (js "Image generation returned no results.")) 502
            end
        end
    end.
Proof.
  intros Hp. rewrite (image_run_accepted _ _ Hp).
  destruct getOpenAIClient as [openai|t]; [|by eexists _, _].
  eexists _, _. split; [done|]. split; [done|].
  destruct (OpenAI.images_generate openai _) as [upstream|t]; [|done].
  by destruct (OpenAI.data upstream) as [[|first rest]|].
Qed.

End ImageRouteMore.

(** ** The video route *)

Lemma strip_trailing_slash_app s : strip_trailing_slash (s ++ [47%N]) = s.
Proof.
  induction s as [|c s IH]; [done|]. destruct s as [|d s]; [done|].
  change (strip_trailing_slash ((c :: d :: s) ++ [47%N]))
    with (c :: strip_trailing_slash ((d :: s) ++ [47%N])).
  by rewrite IH.
Qed.

Lemma strip_trailing_slash_id s :
  last s ≠ Some 47%N → strip_trailing_slash s = s.
Proof.
  induction s as [|c s IH]; [done|]. destruct s as [|d s].
  - simpl. intros Hc. rewrite decide_False; [done|]. by intros ->.
  - intros Hl. cbn [strip_trailing_slash]. f_equal. by apply IH.
Qed.

Section VideoRouteFacts.
Import VideoRoute.
Variable URL_ok : jsstring → bool.
Variable duration_schema : Zod.Schema jsstring.
Variable OPENAI_API_KEY : Completion jsstring.
Variable OPENAI_BASE_URL : option jsstring.
Variable SORA_MODEL : option jsstring.
Variable fetch : FetchCall → Completion (Fetch.Response Sora.Body).
Variable TypeError_message : jsstring.

Local Abbreviation handler :=
  (POST URL_ok duration_schema OPENAI_API_KEY OPENAI_BASE_URL SORA_MODEL fetch
     TypeError_message).
Local Abbreviation schema := (requestSchema URL_ok duration_schema).
Local Abbreviation sent_with apiKey parsed :=
  (fetch_call OPENAI_BASE_URL apiKey (payload_of SORA_MODEL parsed)).

(** X14.  A video request that requestSchema rejects is answered with status
    422 and the issues, and fetch is not called. *)
Theorem video_invalid_request_is_not_fetched body :
  (∀ parsed, Zod.parse schema body ≠ inr parsed) →
  ∃ issues,
    Zod.parse schema body = inl (ZodError issues) ∧
    run (handler (Body body)) =
    (Normal (NextResponse_json (ErrorFlatten issues) 422), []).
Proof.
  intros Hno. destruct (Zod.parse schema body) as [t|parsed] eqn:Hp.
  - destruct (parse_inl _ _ _ Hp) as [issues ->]. exists issues.
    split; [done|].
    unfold run, POST, try_catch, mbind, Eff_bind. simpl. by rewrite Hp.
  - by destruct (Hno parsed).
Qed.

(** X15.  When requireEnv('OPENAI_API_KEY') throws on a valid video request,
    the error is answered by the catch block (status 500 with its message) and
    fetch is not called. *)
Theorem video_without_key_is_not_fetched body parsed t :
  Zod.parse schema body = inr parsed →
  OPENAI_API_KEY = Throw t →
  run (handler (Body body)) = (Normal (catch_response NotAnError_text t), []).
Proof.
  intros Hp Hkey. unfold run, POST, try_catch, mbind, Eff_bind. simpl.
  rewrite Hp, Hkey. done.
Qed.

(** X16.  When the upstream response of a valid video request is not ok, fetch
    has been called exactly once and the handler answers status 502 with error
    'Video generation failed with status <status>' and the upstream body text
    as details (or the catch block's response when reading the text throws). *)
Theorem video_upstream_refusal_is_502 body parsed apiKey upstream :
  Zod.parse schema body = inr parsed →
  OPENAI_API_KEY = Normal apiKey →
  fetch (sent_with apiKey parsed) = Normal upstream →
  Fetch.ok upstream = false →
  run (handler (Body body)) =
  (Normal
     match Fetch.text upstream with
     | Normal details =>
         NextResponse_json
           (Data (UpstreamFailure
                    (js "Video generation failed with status "
                       ++ decimal (Fetch.status upstream))
                    details))
           502
     | Throw t => catch_response NotAnError_text t
     end,
   [sent_with apiKey parsed]).
Proof.
  intros Hp Hkey Hfetch Hok. unfold run, POST, try_catch, mbind, Eff_bind. simpl.
  rewrite Hp, Hkey. simpl. unfold call. rewrite Hfetch, Hok. simpl.
  by destruct (Fetch.text upstream).
Qed.

(** X17.  When the upstream response of a valid video request is ok, fetch
    has been called exactly once and the answer follows the body.  A body
    that cannot be read as JSON is answered by the catch block.  The body null
    is answered by the catch block too, with status 500 and the message of the
    TypeError that reading json.data throws.  For an object, the handler
    answers 200 with raw the object as received; with a first item, videoUrl,
    status, etaSeconds and taskId are read from it (status 'queued' when it
    has none, taskId falling back to task_id when it has no id); without
    items, videoUrl and etaSeconds are absent, status is 'queued' and taskId
    is task_id. *)
Theorem video_generation_reply body parsed apiKey upstream :
  Zod.parse schema body = inr parsed →
  OPENAI_API_KEY = Normal apiKey →
  fetch (sent_with apiKey parsed) = Normal upstream →
  Fetch.ok upstream = true →
  ∃ response,
    run (handler (Body body)) = (Normal response, [sent_with apiKey parsed]) ∧
    match Fetch.json upstream with
    | Throw t => response = catch_response NotAnError_text t
    | Normal Sora.Null =>
        response = NextResponse_json (ErrorMessage TypeError_message) 500
    | Normal (Sora.Object json) =>
        ∃ generated,
          response = NextResponse_json (Data (Video generated)) 200 ∧
          raw generated = json ∧
          match Sora.data json with
          | Some (first :: _) =>
              videoUrl generated = Sora.url first ∧
              status generated = default (js "queued") (Sora.status first) ∧
              etaSeconds generated = Sora.eta_seconds first ∧
              taskId generated =
                match Sora.id first with
                | Some i => Some i
                | None => Sora.task_id json
                end
          | _ =>
              videoUrl generated = None ∧ status generated = js "queued" ∧
              etaSeconds generated = None ∧ taskId generated = Sora.task_id json
          end
    end.
Proof.
  intros Hp Hkey Hfetch Hok.
  unfold run, POST, try_catch, mbind, Eff_bind. simpl.
  rewrite Hp, Hkey. simpl. unfold call. rewrite Hfetch, Hok. simpl.
  destruct (Fetch.json upstream) as [[|json]|t]; simpl.
  - eexists. split; [done|]. done.
  - eexists. split; [done|]. eexists. split; [done|]. simpl. split; [done|].
    by destruct (Sora.data json) as [[|first rest]|].
  - eexists. split; [done|]. done.
Qed.

(** X18.  One trailing slash of OPENAI_BASE_URL makes no difference: base
    followed by '/' gives base, a base that does not end in '/' is kept as it
    is, and without the variable the base is https://api.openai.com/v1. *)
Theorem video_base_url_join base :
  baseUrl (Some (base ++ js "/")) = base ∧
  (last base ≠ Some 47%N → baseUrl (Some base) = base) ∧
  baseUrl None = js "https://api.openai.com/v1".
Proof.
  unfold baseUrl. split_and!; [|apply strip_trailing_slash_id|done].
  apply strip_trailing_slash_app.
Qed.

End VideoRouteFacts.

(** ** The page *)

Section SplitFacts.

Lemma split_without sep s : sep ∉ s → split sep s = [s].
Proof.
  induction s as [|c s IH]; [done|].
  rewrite not_elem_of_cons. intros [Hc Hs]. simpl.
  rewrite decide_False by done. by rewrite IH.
Qed.

Lemma split_at_first sep before after :
  sep ∉ before → split sep (before ++ sep :: after) = before :: split sep after.
Proof.
  induction before as [|c before IH]; simpl.
  - intros _. by rewrite decide_True.
  - rewrite not_elem_of_cons. intros [Hc Hb].
    rewrite decide_False by done. by rewrite IH.
Qed.

Lemma startsWith_app prefix rest : startsWith (prefix ++ rest) prefix = true.
Proof.
  induction prefix as [|c prefix IH]; simpl; [by destruct rest|].
  by rewrite bool_decide_eq_true_2, IH.
Qed.

Lemma split_pieces sep s : Forall (λ piece, sep ∉ piece) (split sep s).
Proof.
  induction s as [|c s IH]; simpl.
  - repeat constructor. apply not_elem_of_nil.
  - case_decide as Hc.
    + constructor; [apply not_elem_of_nil | done].
    + destruct (split sep s) as [|piece pieces].
      * repeat constructor. rewrite not_elem_of_cons. split; [congruence|].
        apply not_elem_of_nil.
      * inversion IH; subst. constructor; [|done].
        rewrite not_elem_of_cons. split; [congruence | done].
Qed.

End SplitFacts.

Section TrimFacts.
Import ImageRoute.

Lemma trimStart_keeps_last xs c :
  is_white_space c = false → ∃ ys, trimStart (xs ++ [c]) = ys ++ [c].
Proof.
  intros Hc. induction xs as [|d xs [ys IH]]; simpl.
  - rewrite Hc. by exists [].
  - destruct (is_white_space d); [by exists ys|].
    by exists (d :: xs).
Qed.

Lemma trimStart_id s c rest : s = c :: rest → is_white_space c = false → trimStart s = s.
Proof. intros -> Hc. simpl. by rewrite Hc. Qed.

Lemma trim_ends s c rest :
  trim s = c :: rest →
  is_white_space c = false ∧
  ∃ d, last (c :: rest) = Some d ∧ is_white_space d = false.
Proof.
  unfold trim. intros Ht.
  destruct (trimStart s) as [|c1 s1] eqn:Hs1; [done|].
  pose proof (trimStart_head _ _ _ Hs1) as Hc1.
  rewrite reverse_cons in Ht.
  destruct (trimStart_keeps_last (reverse s1) c1 Hc1) as [ys Hys].
  split.
  - rewrite Hys, reverse_app in Ht. simpl in Ht. by injection Ht as <- _.
  - rewrite <-Ht, last_reverse.
    destruct (trimStart (reverse s1 ++ [c1])) as [|d r] eqn:Hd.
    + by destruct ys.
    + exists d. split; [done|]. by eapply trimStart_head.
Qed.

Lemma trim_id s c rest d :
  s = c :: rest → is_white_space c = false →
  last s = Some d → is_white_space d = false → trim s = s.
Proof.
  intros Hs Hc Hl Hd. unfold trim. rewrite (trimStart_id s c rest) by done.
  assert (∃ r, reverse s = d :: r) as [r Hr].
  { destruct (reverse s) as [|e r] eqn:He.
    - apply (f_equal reverse) in He. rewrite reverse_involutive in He.
      by subst s.
    - rewrite <-(reverse_involutive s), He, last_reverse in Hl.
      simpl in Hl. injection Hl as ->. eauto. }
  rewrite (trimStart_id _ d r) by done. apply reverse_involutive.
Qed.

Lemma trim_idempotent s : trim (trim s) = trim s.
Proof.
  destruct (trim s) as [|c rest] eqn:Ht; [done|].
  destruct (trim_ends _ _ _ Ht) as (Hc & d & Hl & Hd).
  by eapply trim_id.
Qed.

Lemma trimStart_elem_of s c : c ∈ trimStart s → c ∈ s.
Proof.
  induction s as [|d s IH]; simpl; [done|].
  destruct (is_white_space d); [|done]. intros ?. right. by apply IH.
Qed.

Lemma trim_elem_of s c : c ∈ trim s → c ∈ s.
Proof.
  unfold trim. rewrite elem_of_reverse. intros H%trimStart_elem_of.
  rewrite elem_of_reverse in H. by apply trimStart_elem_of.
Qed.

End TrimFacts.

Section PageFacts.
Import Page.
Variable URL_ok : jsstring → bool.

(** X19.  activePlatforms never holds a platform twice, keeps the order x,
    instagram, tiktok, youtube, holds exactly the platforms switched on in
    platformConfig, and holds only literals the publish schema recognizes. *)
Theorem active_platforms_are_distinct_and_known s :
  NoDup (activePlatforms s) ∧
  activePlatforms s `sublist_of` platforms ∧
  (∀ p, p ∈ activePlatforms s ↔ platformConfig s p = true) ∧
  Forall (λ p, JStr (Socials.platform_literal p) ∈ recognized_platforms)
    (activePlatforms s).
Proof.
  unfold activePlatforms. split_and!.
  - apply NoDup_filter. unfold platforms.
    apply (bool_decide_unpack _). by vm_compute.
  - apply sublist_filter.
  - intros p. rewrite list_elem_of_filter. split; [tauto|].
    intros Hp. split; [done|]. unfold platforms. destruct p; repeat constructor.
  - apply Forall_forall. intros p _. apply recognized_literal.
Qed.

(** X20.  Every tag the page sends is non-empty, has no white space at either
    end (trimming it again changes nothing) and contains no comma. *)
Theorem tags_are_trimmed_and_non_empty tags :
  Forall (λ tag, tag ≠ [] ∧ ImageRoute.trim tag = tag ∧ 44%N ∉ tag) (tags_of tags).
Proof.
  unfold tags_of. apply Forall_forall. intros tag.
  rewrite list_elem_of_filter, list_elem_of_fmap.
  intros [Hne (piece & -> & Hpiece)]. split_and!; [done|apply trim_idempotent|].
  intros Hin%trim_elem_of.
  pose proof (split_pieces 44%N tags) as Hall.
  rewrite Forall_forall in Hall. by apply (Hall piece).
Qed.

Lemma get_prop_app key l1 l2 :
  get_prop key (l1 ++ l2) =
  match get_prop key l1 with Some v => Some v | None => get_prop key l2 end.
Proof.
  induction l1 as [|[k v] l1 IH]; simpl; [done|]. by case_decide.
Qed.

(** What the route finds under each key of the page's request. *)
Lemma publish_props_lookup s a :
  get_prop (js "mediaType") (publish_props s a) = Some (JStr (MediaType_literal (type a))) ∧
  get_prop (js "caption") (publish_props s a) = Some (JStr (caption s)) ∧
  get_prop (js "title") (publish_props s a) = Some (JStr (title s)) ∧
  get_prop (js "tags") (publish_props s a) = Some (JArr (JStr <$> tags_of (tags s))) ∧
  get_prop (js "mediaUrl") (publish_props s a) = JStr <$> mediaUrl_of a ∧
  get_prop (js "mediaBase64") (publish_props s a) = JStr <$> mediaBase64_of a ∧
  get_prop (js "mimeType") (publish_props s a) = JStr <$> mimeType a ∧
  get_prop (js "callToActionUrl") (publish_props s a) = JStr <$> or_undefined (ctaUrl s) ∧
  get_prop (js "campaignId") (publish_props s a) = None ∧
  get_prop (js "platforms") (publish_props s a) =
    Some (JArr ((λ p, JStr (Socials.platform_literal p)) <$> activePlatforms s)).
Proof.
  unfold publish_props, optional_key.
  destruct (mediaUrl_of a), (mediaBase64_of a), (mimeType a), (or_undefined (ctaUrl s));
    repeat split; reflexivity.
Qed.

Lemma optional_string_fmap check (value : option jsstring) :
  optional_string check (JStr <$> value) value ↔
  match value with Some v => check v = true | None => True end.
Proof. destruct value; simpl; tauto. Qed.

Lemma optional_string_inv check (value o : option jsstring) :
  optional_string check (JStr <$> value) o → o = value.
Proof. destruct value; simpl; [by intros [-> _] | done]. Qed.

(** X21.  The request body handlePublish builds is accepted by publishSchema
    if and only if the caption has length at least 3, at least one platform is
    active, the media URL sent (if any) and the call-to-action URL (if not
    empty) are well formed, and the asset yields a truthy mediaUrl or
    mediaBase64. *)
Theorem page_request_accepted_iff s a :
  (∃ parsed, Zod.parse (PublishRoute.publishSchema URL_ok) (publish_body s a) = inr parsed)
  ↔
  3 ≤ length (caption s) ∧
  activePlatforms s ≠ [] ∧
  url_or_absent URL_ok (mediaUrl_of a) ∧
  url_or_absent URL_ok (or_undefined (ctaUrl s)) ∧
  (truthy (mediaUrl_of a) = true ∨ truthy (mediaBase64_of a) = true).
Proof.
  destruct (publish_props_lookup s a)
    as (Hm & Hc & Ht & Htags & Hu & Hb & Hmime & Hcta & Hcamp & Hp).
  unfold publish_body. split.
  - intros [parsed (? & [= <-] & Hf & Hmedia)%publishSchema_accepts].
    unfold fields_as in Hf.
    rewrite Hm, Hc, Ht, Htags, Hu, Hb, Hmime, Hcta, Hcamp, Hp in Hf.
    destruct Hf as (_ & [= Hcap] & Hlen & _ & _ & Hu' & Hb' & _ & Hcta' & _ & [= Hpl] & Hne).
    rewrite <-Hcap in Hlen.
    pose proof (optional_string_inv _ _ _ Hu') as Hu''.
    pose proof (optional_string_inv _ _ _ Hb') as Hb''.
    pose proof (optional_string_inv _ _ _ Hcta') as Hcta''.
    rewrite Hu'' in Hu', Hmedia. rewrite Hb'' in Hmedia. rewrite Hcta'' in Hcta'.
    apply optional_string_fmap in Hu', Hcta'.
    split_and!; try done.
    intros Hnil. apply Hne.
    apply (f_equal length) in Hpl. rewrite !length_fmap, Hnil in Hpl.
    by destruct (PublishRoute.platforms parsed).
  - intros (Hlen & Hne & Hu' & Hcta' & Hmedia).
    exists (page_request s a). apply publishSchema_accepts.
    eexists. split; [done|]. split; [|done].
    unfold fields_as.
    rewrite Hm, Hc, Ht, Htags, Hu, Hb, Hmime, Hcta, Hcamp, Hp.
    unfold page_request.
    cbn [PublishRoute.mediaType PublishRoute.caption PublishRoute.title
      PublishRoute.tags PublishRoute.mediaUrl PublishRoute.mediaBase64
      PublishRoute.mimeType PublishRoute.callToActionUrl PublishRoute.campaignId
      PublishRoute.platforms].
    split_and!; try done.
    + eauto.
    + by apply optional_string_fmap.
    + by apply optional_string_fmap; destruct (mediaBase64_of a).
    + by apply optional_string_fmap; destruct (mimeType a).
    + by apply optional_string_fmap.
Qed.

End PageFacts.

Section PageHandlers.
Import Page.
Variable URL_ok : jsstring → bool.
Variable ZodError_message : list ZodIssue → jsstring.

(** X22.  Without an asset, or with no active platform, handlePublish shows
    one error toast and sends no request. *)
Theorem publish_needs_asset_and_platform publish_api s :
  asset s = None ∨ activePlatforms s = [] →
  ∃ text,
    run (handlePublish ZodError_message publish_api s) = (Normal (), [toast_error text]).
Proof.
  unfold run, handlePublish.
  destruct (asset s) as [a|]; [|by eexists].
  intros [?|Hnil]; [done|]. rewrite Hnil. by eexists.
Qed.

Lemma handlePublish_run publish_api s a :
  asset s = Some a → activePlatforms s ≠ [] →
  run (handlePublish ZodError_message publish_api s) =
  match publish_api (publish_body s a) with
  | Throw t =>
      (Normal (),
       [fetched (js "/api/publish") (publish_body s a);
        toast_error (message_or ZodError_message (js "Publishing failed.") t)])
  | Normal response =>
      if response_ok response then
        let results :=
          match response_body response with Data results => results | _ => [] end in
        let successes :=
          filter (λ r, Socials.status r = Socials.success) results in
        let failures :=
          filter (λ r, Socials.status r ≠ Socials.success) results in
        (Normal (),
         [fetched (js "/api/publish") (publish_body s a)]
         ++ (if bool_decide (0 < length successes) then
               [toast_success
                  (js "Published to " ++ decimal (length successes)
                     ++ js " platform"
                     ++ (if bool_decide (1 < length successes) then js "s" else [])
                     ++ js ".")]
             else [])
         ++ (failure_toast <$> failures))
      else
        (Normal (),
         [fetched (js "/api/publish") (publish_body s a);
          toast_error
            (error_text (js "Publishing failed for social platforms.")
               (response_body response) (λ _, None))])
  end.
Proof.
  intros Ha Hne. unfold run, handlePublish. rewrite Ha.
  rewrite bool_decide_eq_false_2 by (by destruct (activePlatforms s)).
  unfold try_catch, mbind, Eff_bind, call. cbn -[js decimal app].
  destruct (publish_api (publish_body s a)) as [response|t]; [|done].
  destruct (response_ok response); cbn -[js decimal app]; [|done].
  set (results := match response_body response with Data r => r | _ => [] end).
  case_bool_decide; unfold emit at 1, mret, Eff_ret; cbn -[js decimal app mapM].
  - rewrite (mapM_Eff_total _ (λ _, ()) failure_toast) by done.
    cbn -[js decimal app]. by rewrite <-app_assoc.
  - by rewrite (mapM_Eff_total _ (λ _, ()) failure_toast) by done.
Qed.

Lemma unpublishable policy adapter s a :
  asset s = Some a → url a = None → base64 a = None →
  activePlatforms s ≠ [] →
  run (handlePublish ZodError_message (publish_server URL_ok policy adapter) s) =
    (Normal (),
     [fetched (js "/api/publish") (publish_body s a);
      toast_error (js "[object Object]")]) ∧
  (run (PublishRoute.POST URL_ok policy adapter (Body (publish_body s a)))).2 = [].
Proof.
  intros Ha Hu Hb Hne.
  destruct (not_accepted_rejected URL_ok policy adapter (publish_body s a))
    as (issues & _ & Hrun).
  { intros parsed Hp. unfold publish_body in Hp.
    destruct (publish_props_lookup s a) as (_ & _ & _ & _ & Hmu & Hmb & _).
    destruct (accepted_media _ _ _ Hp) as [H|H];
      [rewrite Hmu in H | rewrite Hmb in H];
      unfold mediaUrl_of, mediaBase64_of in H; by rewrite ?Hu, ?Hb in H. }
  split; [|by rewrite Hrun].
  rewrite (handlePublish_run _ _ _ Ha Hne). unfold publish_server. rewrite Hrun.
  done.
Qed.

(** X23.  When the video route answers 200 without a videoUrl,
    handleGenerateVideo stores the asset and shows 'Sora-2 task queued';
    publishing that asset always fails: the request carries neither mediaUrl
    nor mediaBase64, the publish route rejects it before any adapter is
    invoked, and the page shows the error toast '[object Object]'. *)
Theorem queued_video_cannot_be_published video_api policy adapter s0 generated :
  video_api (video_body s0) =
    Normal (NextResponse_json (Data (VideoRoute.Video generated)) 200) →
  VideoRoute.videoUrl generated = None →
  ∃ a description,
    run (handleGenerateVideo ZodError_message video_api s0) =
      (Normal (),
       [fetched (js "/api/generate/video") (video_body s0); setAsset a;
        toast_message (js "Sora-2 task queued") description]) ∧
    ∀ s,
      asset s = Some a → activePlatforms s ≠ [] →
      run (handlePublish ZodError_message (publish_server URL_ok policy adapter) s) =
        (Normal (),
         [fetched (js "/api/publish") (publish_body s a);
          toast_error (js "[object Object]")]) ∧
      (run (PublishRoute.POST URL_ok policy adapter (Body (publish_body s a)))).2 = [].
Proof.
  intros Hapi Hurl. eexists _, _. split.
  - unfold run, handleGenerateVideo.
    unfold try_catch, mbind, Eff_bind, call. cbn -[js app]. rewrite Hapi.
    cbn -[js app]. rewrite Hurl. cbn -[js app]. reflexivity.
  - intros s Ha Hne. by apply unpublishable.
Qed.

(** X24.  After a 200 response with results, handlePublish shows one success
    toast when N >= 1 results succeeded, 'Published to N platform.' with an s
    after platform when N > 1 (and no success toast when N = 0), followed by
    one error toast per result that did not succeed, in the order of the
    results. *)
Theorem publish_toasts_follow_results publish_api s a results :
  asset s = Some a → activePlatforms s ≠ [] →
  publish_api (publish_body s a) = Normal (NextResponse_json (Data results) 200) →
  ∃ toasts,
    run (handlePublish ZodError_message publish_api s) =
      (Normal (), fetched (js "/api/publish") (publish_body s a) :: toasts) ∧
    let successes := filter (λ r, Socials.status r = Socials.success) results in
    let failures := filter (λ r, Socials.status r ≠ Socials.success) results in
    toasts =
      (if bool_decide (0 < length successes) then
         [toast_success
            (js "Published to " ++ decimal (length successes) ++ js " platform"
               ++ (if bool_decide (1 < length successes) then js "s" else [])
               ++ js ".")]
       else [])
      ++ (failure_toast <$> failures).
Proof.
  intros Ha Hne Hapi. rewrite (handlePublish_run _ _ _ Ha Hne), Hapi.
  eexists. split; [done|]. done.
Qed.

End PageHandlers.

Section ImageFlow.
Import Page.
Variable URL_ok : jsstring → bool.
Variable ZodError_message : list ZodIssue → jsstring.

Lemma handleGenerateImage_run image_api s generated :
  image_api (image_body s) = Normal (NextResponse_json (Data generated) 200) →
  truthy (ImageRoute.imageBase64 generated) = true ∨
  truthy (ImageRoute.imageUrl generated) = true →
  run (handleGenerateImage ZodError_message image_api s) =
  (Normal (),
   [fetched (js "/api/generate/image") (image_body s);
    setAsset
      {| type := image;
         base64 := ImageRoute.imageBase64 generated;
         url := dataUrl (ImageRoute.imageUrl generated)
                  (ImageRoute.imageBase64 generated);
         revisedPrompt := ImageRoute.revisedPrompt generated;
         mimeType := Some (js "image/png");
         status := None; taskId := None; etaSeconds := None |};
    toast_success (js "Image generated with Veo-3.")]).
Proof.
  intros Hapi Hsome. unfold run, handleGenerateImage.
  unfold try_catch, mbind, Eff_bind, call. cbn -[js app]. rewrite Hapi.
  cbn -[js app].
  destruct Hsome as [H|H]; rewrite H; cbn -[js app]; [done|].
  by rewrite andb_false_r.
Qed.

(** X25.  When the image route returns both an imageUrl (not a data: URL) and
    an imageBase64, the asset stored by handleGenerateImage makes every later
    publish request carry both mediaUrl and mediaBase64. *)
Theorem image_with_url_and_base64_publishes_both image_api s generated u b :
  image_api (image_body s) = Normal (NextResponse_json (Data generated) 200) →
  ImageRoute.imageUrl generated = Some u →
  ImageRoute.imageBase64 generated = Some b →
  u ≠ [] → startsWith u (js "data:") = false →
  ∃ a,
    run (handleGenerateImage ZodError_message image_api s) =
      (Normal (),
       [fetched (js "/api/generate/image") (image_body s); setAsset a;
        toast_success (js "Image generated with Veo-3.")]) ∧
    ∀ s',
      get_prop (js "mediaUrl") (publish_props s' a) = Some (JStr u) ∧
      get_prop (js "mediaBase64") (publish_props s' a) = Some (JStr b).
Proof.
  intros Hapi Hu Hb Hne Hdata.
  rewrite (handleGenerateImage_run _ _ _ Hapi)
    by (right; rewrite Hu; by destruct u).
  eexists. split; [done|]. intros s'.
  destruct (publish_props_lookup s' {| type := image;
      base64 := ImageRoute.imageBase64 generated;
      url := dataUrl (ImageRoute.imageUrl generated) (ImageRoute.imageBase64 generated);
      revisedPrompt := ImageRoute.revisedPrompt generated;
      mimeType := Some (js "image/png");
      status := None; taskId := None; etaSeconds := None |})
    as (_ & _ & _ & _ & Hmu & Hmb & _).
  rewrite Hmu, Hmb. unfold mediaUrl_of, mediaBase64_of, dataUrl.
  cbn [url base64]. rewrite Hu, Hb, Hdata. by destruct u.
Qed.

(** X26.  When the image route returns only a non-empty imageBase64, the
    asset's url is the data:image/png;base64 URL of it, and every later
    publish request carries no mediaUrl, the same base64 as mediaBase64 and
    mimeType image/png. *)
Theorem base64_image_round_trip image_api s generated b :
  image_api (image_body s) = Normal (NextResponse_json (Data generated) 200) →
  ImageRoute.imageUrl generated = None →
  ImageRoute.imageBase64 generated = Some b →
  b ≠ [] →
  ∃ a,
    run (handleGenerateImage ZodError_message image_api s) =
      (Normal (),
       [fetched (js "/api/generate/image") (image_body s); setAsset a;
        toast_success (js "Image generated with Veo-3.")]) ∧
    url a = Some (js "data:image/png;base64," ++ b) ∧
    ∀ s',
      get_prop (js "mediaUrl") (publish_props s' a) = None ∧
      get_prop (js "mediaBase64") (publish_props s' a) = Some (JStr b) ∧
      get_prop (js "mimeType") (publish_props s' a) = Some (JStr (js "image/png")).
Proof.
  intros Hapi Hu Hb Hne.
  rewrite (handleGenerateImage_run _ _ _ Hapi)
    by (left; rewrite Hb; by destruct b).
  eexists. split; [done|].
  assert (dataUrl (ImageRoute.imageUrl generated) (ImageRoute.imageBase64 generated)
          = Some (js "data:image/png;base64," ++ b)) as Hd.
  { unfold dataUrl. rewrite Hu, Hb. by destruct b. }
  split; [done|]. intros s'.
  destruct (publish_props_lookup s' {| type := image;
      base64 := ImageRoute.imageBase64 generated;
      url := dataUrl (ImageRoute.imageUrl generated) (ImageRoute.imageBase64 generated);
      revisedPrompt := ImageRoute.revisedPrompt generated;
      mimeType := Some (js "image/png");
      status := None; taskId := None; etaSeconds := None |})
    as (_ & _ & _ & _ & Hmu & Hmb & Hmime & _).
  rewrite Hmu, Hmb, Hmime. unfold mediaUrl_of, mediaBase64_of.
  cbn [url base64 mimeType]. rewrite Hd, Hb.
  change (js "data:image/png;base64," ++ b)
    with (js "data:" ++ (js "image/png;base64," ++ b)).
  by rewrite startsWith_app, andb_false_r.
Qed.

(** X27.  For an asset without base64 whose url is 'data:' + meta + ',' +
    payload, with no comma in meta or payload, the publish request has no
    mediaUrl and its mediaBase64 is exactly payload. *)
Theorem data_url_is_decoded a meta b :
  base64 a = None →
  url a = Some (js "data:" ++ meta ++ js "," ++ b) →
  44%N ∉ meta → 44%N ∉ b →
  mediaUrl_of a = None ∧ mediaBase64_of a = Some b.
Proof.
  intros Hb Hu Hmeta Hpayload. unfold mediaUrl_of, mediaBase64_of.
  rewrite Hb, Hu, startsWith_app, andb_false_r. split; [done|].
  change (js "," ++ b) with (44%N :: b). rewrite app_assoc.
  rewrite split_at_first.
  - by rewrite split_without.
  - rewrite not_elem_of_app. split; [|done].
    by apply (bool_decide_unpack _).
Qed.

(** X28.  Page and image route together: when the image API throws an Error,
    the page shows its message as the error toast, and when the API returns no
    image, the page shows 'Image generation returned no results.'; in both
    cases no asset is stored. *)
Theorem image_failure_is_shown_with_its_text VEO_MODEL openai s parsed text :
  Zod.parse (ImageRoute.requestSchema URL_ok) (image_body s) = inr parsed →
  OpenAI.images_generate openai (ImageRoute.payload_of VEO_MODEL parsed)
    = Throw (Error text) ∨
  (∃ upstream,
     OpenAI.images_generate openai (ImageRoute.payload_of VEO_MODEL parsed)
       = Normal upstream ∧
     OpenAI.data upstream ≫= head = None ∧
     text = js "Image generation returned no results.") →
  run (handleGenerateImage ZodError_message
         (image_server URL_ok VEO_MODEL (Normal openai)) s) =
  (Normal (),
   [fetched (js "/api/generate/image") (image_body s); toast_error text]).
Proof.
  intros Hp Hfail. unfold run, handleGenerateImage, image_server.
  rewrite (image_run_accepted _ _ _ _ _ Hp).
  unfold try_catch, mbind, Eff_bind, call. cbn -[js app].
  destruct Hfail as [->|(upstream & -> & Hnone & ->)]; [done|].
  by destruct (OpenAI.data upstream) as [[|first rest]|].
Qed.

End ImageFlow.

Section PageStates.
Import Page.
Variable URL_ok : jsstring → bool.

Lemma step_keeps_options s s' :
  step s s' → selectors_hold_options s → selectors_hold_options s'.
Proof.
  unfold selectors_hold_options.
  destruct 1; try destruct (mode s); simpl; tauto.
Qed.

Lemma reachable_options s : reachable s → selectors_hold_options s.
Proof.
  unfold reachable. revert s. apply rtc_ind_r.
  - unfold selectors_hold_options, initial. simpl.
    split_and!; apply (bool_decide_unpack _); by vm_compute.
  - intros y z _ Hstep IH. by eapply step_keeps_options.
Qed.

Lemma imageStyle_option_literal value :
  value ∈ imageStyle_options → ∃ style, value = Style_literal style.
Proof.
  unfold imageStyle_options. intros (name & -> & Hin)%list_elem_of_fmap.
  repeat (apply elem_of_cons in Hin as [->|Hin]); [..|by apply elem_of_nil in Hin].
  - by exists ImageRoute.cinematic.
  - by exists ImageRoute.style_3d.
  - by exists ImageRoute.illustration.
  - by exists ImageRoute.digital_art.
  - by exists ImageRoute.photographic.
Qed.

Lemma imageQuality_option_literal value :
  value ∈ imageQuality_options → ∃ quality, value = Quality_literal quality.
Proof.
  unfold imageQuality_options. intros (name & -> & Hin)%list_elem_of_fmap.
  repeat (apply elem_of_cons in Hin as [->|Hin]); [..|by apply elem_of_nil in Hin].
  - by exists ImageRoute.standard.
  - by exists ImageRoute.high.
Qed.

(** X29.  In every state the page can reach through its inputs and selectors,
    the image request it sends is accepted by the image route's schema if and
    only if the image prompt has length at least 10: style, quality and aspect
    ratio are always among the accepted literals. *)
Theorem page_image_request_is_valid_iff s :
  reachable s →
  (∃ parsed, Zod.parse (ImageRoute.requestSchema URL_ok) (image_body s) = inr parsed)
  ↔ 10 ≤ length (imagePrompt s).
Proof.
  intros (Hstyle & Hquality & _)%reachable_options. split.
  - intros [parsed (props & [= <-] & Hacc)%image_schema_accepts].
    destruct Hacc as (Hp & Hlen & _). simpl in Hp.
    injection Hp as Heq. by rewrite Heq.
  - intros Hlen.
    destruct (imageStyle_option_literal _ Hstyle) as [style Hs].
    destruct (imageQuality_option_literal _ Hquality) as [quality Hq].
    exists {| ImageRoute.prompt := imagePrompt s;
              ImageRoute.aspectRatio := imageAspect s;
              ImageRoute.style := style;
              ImageRoute.negativePrompt := Some (negativePrompt s);
              ImageRoute.quality := quality |}.
    apply image_schema_accepts. unfold image_body.
    eexists. split; [done|]. unfold image_accepts_as, defaulted. simpl.
    rewrite Hs, Hq. done.
Qed.

End PageStates.

(** ** The further properties on sample requests *)

Section MoreOnSamples.
Import Socials PublishRoute.

Lemma publish_handler_validates_before_dispatch_witness :
  ∃ response,
    run (PublishHandler.POST Samples.URL_ok Examples.post_everywhere
           (Malformed (js "Unexpected end of JSON input"))) = (Normal response, []) ∧
    response = NextResponse_json (ErrorMessage (js "Unexpected end of JSON input")) 500.
Proof.
  apply (publish_handler_validates_before_dispatch Samples.URL_ok
           Examples.post_everywhere (Malformed (js "Unexpected end of JSON input"))).
  intros body parsed H. discriminate H.
Defined.

Lemma publish_handler_forwards_witness :
  get_prop (js "platforms")
    (Samples.props "image" "abc" Samples.by_url ["tiktok"; "x"]) =
    Some (JArr [JStr (js "tiktok"); JStr (js "x")]) ∧
  run (PublishHandler.POST Samples.URL_ok Examples.post_everywhere
         (Body (JObj (Samples.props "image" "abc" Samples.by_url ["tiktok"; "x"])))) =
  (Normal (NextResponse_json
             (Data [Samples.posted platform_tiktok; Samples.posted platform_x]) 200),
   []).
Proof.
  edestruct (publish_handler_forwards Samples.URL_ok Examples.post_everywhere
               (Samples.props "image" "abc" Samples.by_url ["tiktok"; "x"]))
    as [Hplatforms Hrun].
  - vm_compute. reflexivity.
  - split; [exact Hplatforms | exact Hrun].
Defined.

Lemma publishSchema_reads_its_keys_witness :
  Zod.parse (publishSchema Samples.URL_ok)
    (JObj ((js "debug", JBool true)
           :: Samples.props "image" "abc" Samples.by_url ["x"])) =
  Zod.parse (publishSchema Samples.URL_ok)
    (JObj (Samples.props "image" "abc" Samples.by_url ["x"])).
Proof.
  apply (publishSchema_reads_its_keys Samples.URL_ok).
  intros key Hkey. unfold publish_keys in Hkey.
  simpl. rewrite decide_False; [reflexivity|].
  intros <-. revert Hkey. apply (bool_decide_unpack _). vm_compute. exact I.
Defined.

Lemma short_caption_is_reported_witness :
  ∃ issues,
    Zod.parse (publishSchema Samples.URL_ok)
      (JObj (Samples.props "image" "ab" Samples.by_url ["x"])) = inl (ZodError issues) ∧
    caption_issue ∈ issues.
Proof.
  apply (short_caption_is_reported Samples.URL_ok
           (Samples.props "image" "ab" Samples.by_url ["x"]) (js "ab")).
  - reflexivity.
  - exact (le_n 3).
Defined.

Lemma empty_platforms_is_reported_witness :
  ∃ issues,
    Zod.parse (publishSchema Samples.URL_ok)
      (JObj (Samples.props "image" "abc" Samples.by_url [])) = inl (ZodError issues) ∧
    platforms_issue ∈ issues.
Proof.
  apply (empty_platforms_is_reported Samples.URL_ok
           (Samples.props "image" "abc" Samples.by_url [])).
  reflexivity.
Defined.

Lemma missing_media_is_the_only_issue_witness :
  Zod.parse (publishSchema Samples.URL_ok)
    (JObj (Samples.props "image" "abc" [] ["x"])) = inl (ZodError [media_issue]).
Proof.
  eapply (missing_media_is_the_only_issue Samples.URL_ok
            (Samples.props "image" "abc" [] ["x"])
            {| mediaType := image; caption := js "abc"; title := None; tags := None;
               mediaUrl := None; mediaBase64 := None; mimeType := None;
               callToActionUrl := None; campaignId := None;
               platforms := [platform_x] |}).
  - apply (publishObject_OK Samples.URL_ok []). vm_compute. reflexivity.
  - reflexivity.
  - reflexivity.
Defined.

Lemma image_invalid_request_sends_nothing_witness :
  ∃ issues,
    Zod.parse (ImageRoute.requestSchema Samples.URL_ok)
      (JObj [(js "prompt", JStr (js "too short"))]) = inl (ZodError issues) ∧
    run (ImageRoute.POST Samples.URL_ok None (Normal Samples.one_image)
           (Body (JObj [(js "prompt", JStr (js "too short"))]))) =
    (Normal (NextResponse_json (ErrorFlatten issues) 422), []).
Proof.
  apply (image_invalid_request_sends_nothing Samples.URL_ok None
           (Normal Samples.one_image)).
  intros parsed H. vm_compute in H. discriminate H.
Defined.

Lemma image_payload_follows_request_witness :
  ∃ parsed,
    Zod.parse (ImageRoute.requestSchema Samples.URL_ok)
      (JObj [(js "prompt", JStr (js "a red fox at dawn"));
             (js "style", JStr (js "photographic"))]) = inr parsed ∧
    OpenAI.model (ImageRoute.payload_of None parsed) ≠ [] ∧
    OpenAI.style (ImageRoute.payload_of None parsed) = OpenAI.natural ∧
    OpenAI.quality (ImageRoute.payload_of None parsed) = OpenAI.hd.
Proof.
  eexists. split; [vm_compute; reflexivity|].
  edestruct (image_payload_follows_request Samples.URL_ok None
               [(js "prompt", JStr (js "a red fox at dawn"));
                (js "style", JStr (js "photographic"))])
    as (Hmodel & Hstyle & _).
  - vm_compute. reflexivity.
  - split; [exact Hmodel|]. split; [|reflexivity].
    apply (proj2 Hstyle). reflexivity.
Defined.

Lemma image_handler_outcomes_witness :
  ∃ response sent,
    run (ImageRoute.POST Samples.URL_ok None (Normal Examples.no_image)
           (Body Samples.image_request)) = (Normal response, sent) ∧
    length sent = 1 ∧
    response =
      NextResponse_json
        (ErrorMessage (js "Image generation returned no results.")) 502.
Proof.
  edestruct (image_handler_outcomes Samples.URL_ok None (Normal Examples.no_image)
               Samples.image_request)
    as (response & sent & Hrun & Hsent & Hresponse).
  - vm_compute. reflexivity.
  - exists response, sent. split; [exact Hrun|].
    split; [rewrite Hsent; reflexivity | exact Hresponse].
Defined.

(** The bounds of [duration]: 1, 60 and 8 pass, an absent duration is 10, and
    0, 61 and 60.5 are reported. *)
Example duration_bounds :
  let issues input := code <$> (VideoRoute.duration_1_to_60 [] input).2 in
  VideoRoute.duration_1_to_60 [] None = (Zod.OK (js "10"), []) ∧
  VideoRoute.duration_1_to_60 [] (Some (JNum (js "8"))) = (Zod.OK (js "8"), []) ∧
  issues (Some (JNum (js "1"))) = [] ∧
  issues (Some (JNum (js "60"))) = [] ∧
  issues (Some (JNum (js "0"))) = [too_small] ∧
  issues (Some (JNum (js "61"))) = [too_big] ∧
  issues (Some (JNum (js "60.5"))) = [too_big] ∧
  issues (Some (JNum (js "-5e3"))) = [too_small] ∧
  issues (Some (JStr (js "8"))) = [invalid_type].
Proof. vm_compute. repeat split. Qed.

(** A duration out of bounds fails the request before [fetch] is called. *)
Example video_duration_61_is_rejected :
  run (VideoRoute.POST Samples.URL_ok Examples.duration_schema
         (Normal (js "sk-test")) None None Examples.queueing_fetch
         Examples.TypeError_message
         (Body (JObj [(js "prompt", JStr (js "a slow pan over a misty lake"));
                      (js "duration", JNum (js "61"))]))) =
  (Normal (NextResponse_json
             (ErrorFlatten [Zod.issue too_big [Key (js "duration")] None]) 422),
   []).
Proof. vm_compute. reflexivity. Qed.

Lemma video_invalid_request_is_not_fetched_witness :
  ∃ issues,
    Zod.parse (VideoRoute.requestSchema Samples.URL_ok Examples.duration_schema)
      (JObj [(js "prompt", JStr (js "too short"))]) = inl (ZodError issues) ∧
    run (VideoRoute.POST Samples.URL_ok Examples.duration_schema
           (Normal (js "sk-test")) None None Examples.queueing_fetch
           Examples.TypeError_message
           (Body (JObj [(js "prompt", JStr (js "too short"))]))) =
    (Normal (NextResponse_json (ErrorFlatten issues) 422), []).
Proof.
  apply (video_invalid_request_is_not_fetched Samples.URL_ok Examples.duration_schema
           (Normal (js "sk-test")) None None Examples.queueing_fetch
           Examples.TypeError_message).
  intros parsed H. vm_compute in H. discriminate H.
Defined.

Lemma video_without_key_is_not_fetched_witness :
  run (VideoRoute.POST Samples.URL_ok Examples.duration_schema
         (Throw (Error (js "Missing OPENAI_API_KEY"))) None None
         Examples.queueing_fetch Examples.TypeError_message
         (Body Examples.video_request)) =
  (Normal (NextResponse_json (ErrorMessage (js "Missing OPENAI_API_KEY")) 500), []).
Proof.
  eapply (video_without_key_is_not_fetched Samples.URL_ok Examples.duration_schema
            (Throw (Error (js "Missing OPENAI_API_KEY"))) None None
            Examples.queueing_fetch Examples.TypeError_message
            Examples.video_request)
    with (t := Error (js "Missing OPENAI_API_KEY")).
  - vm_compute. reflexivity.
  - reflexivity.
Defined.

Lemma video_upstream_refusal_is_502_witness :
  (run (VideoRoute.POST Samples.URL_ok Examples.duration_schema
          (Normal (js "sk-test")) (Some (js "https://proxy.example.com/v1/")) None
          Examples.refusing_fetch Examples.TypeError_message
          (Body Examples.video_request))).1 =
  Normal (NextResponse_json
            (Data (VideoRoute.UpstreamFailure
                     (js "Video generation failed with status 429")
                     (js "rate limited")))
            502).
Proof.
  rewrite (video_upstream_refusal_is_502 Samples.URL_ok
             Examples.duration_schema
             (Normal (js "sk-test")) (Some (js "https://proxy.example.com/v1/")) None
             Examples.refusing_fetch Examples.TypeError_message
             Examples.video_request
             Examples.video_parsed (js "sk-test") Examples.refusal
             ltac:(vm_compute; reflexivity) eq_refl eq_refl eq_refl).
  vm_compute. reflexivity.
Defined.

Lemma video_generation_reply_witness :
  (∃ generated,
     run (VideoRoute.POST Samples.URL_ok Examples.duration_schema
            (Normal (js "sk-test")) None None Examples.queueing_fetch
            Examples.TypeError_message (Body Examples.video_request)) =
       (Normal (NextResponse_json (Data (VideoRoute.Video generated)) 200),
        [VideoRoute.fetch_call None (js "sk-test")
           (VideoRoute.payload_of None Examples.video_parsed)]) ∧
     VideoRoute.videoUrl generated = None ∧
     VideoRoute.status generated = js "queued" ∧
     VideoRoute.taskId generated = Some (js "task-7")) ∧
  run (VideoRoute.POST Samples.URL_ok Examples.duration_schema
         (Normal (js "sk-test")) None None Examples.null_fetch
         Examples.TypeError_message (Body Examples.video_request)) =
    (Normal (NextResponse_json (ErrorMessage Examples.TypeError_message) 500),
     [VideoRoute.fetch_call None (js "sk-test")
        (VideoRoute.payload_of None Examples.video_parsed)]).
Proof.
  split.
  - destruct (video_generation_reply Samples.URL_ok Examples.duration_schema
                (Normal (js "sk-test")) None None Examples.queueing_fetch
                Examples.TypeError_message
                Examples.video_request Examples.video_parsed (js "sk-test")
                Examples.queued
                ltac:(vm_compute; reflexivity) eq_refl eq_refl eq_refl)
      as (response & Hrun & generated & -> & _ & Hurl & Hstatus & _ & Htask).
    exists generated. split; [exact Hrun|].
    split; [exact Hurl|]. split; [exact Hstatus | exact Htask].
  - destruct (video_generation_reply Samples.URL_ok Examples.duration_schema
                (Normal (js "sk-test")) None None Examples.null_fetch
                Examples.TypeError_message
                Examples.video_request Examples.video_parsed (js "sk-test")
                Examples.null_body
                ltac:(vm_compute; reflexivity) eq_refl eq_refl eq_refl)
      as (response & Hrun & ->).
    exact Hrun.
Defined.

Lemma video_base_url_join_witness :
  VideoRoute.baseUrl (Some (js "https://proxy.example.com/v1/"))
    = js "https://proxy.example.com/v1" ∧
  VideoRoute.baseUrl (Some (js "https://proxy.example.com/v1"))
    = js "https://proxy.example.com/v1".
Proof.
  split.
  - exact (proj1 (video_base_url_join (js "https://proxy.example.com/v1"))).
  - apply (proj1 (proj2 (video_base_url_join (js "https://proxy.example.com/v1")))).
    vm_compute. intros H. discriminate H.
Defined.

Lemma publish_needs_asset_and_platform_witness :
  ∃ text,
    run (Page.handlePublish Examples.ZodError_message
           (Page.publish_server Samples.URL_ok merge_duplicates Samples.healthy)
           Page.initial) = (Normal (), [Page.toast_error text]).
Proof.
  apply (publish_needs_asset_and_platform Examples.ZodError_message).
  left. reflexivity.
Defined.

Lemma queued_video_cannot_be_published_witness :
  ∃ a description,
    run (Page.handleGenerateVideo Examples.ZodError_message
           (λ _, Normal (NextResponse_json
                           (Data (VideoRoute.Video Examples.queued_reply)) 200))
           Page.initial) =
      (Normal (),
       [Page.fetched (js "/api/generate/video") (Page.video_body Page.initial);
        Page.setAsset a;
        Page.toast_message (js "Sora-2 task queued") description]) ∧
    ∀ s,
      Page.asset s = Some a → Page.activePlatforms s ≠ [] →
      run (Page.handlePublish Examples.ZodError_message
             (Page.publish_server Samples.URL_ok merge_duplicates Samples.healthy) s) =
        (Normal (),
         [Page.fetched (js "/api/publish") (Page.publish_body s a);
          Page.toast_error (js "[object Object]")]) ∧
      (run (POST Samples.URL_ok merge_duplicates Samples.healthy
              (Body (Page.publish_body s a)))).2 = [].
Proof.
  apply (queued_video_cannot_be_published Samples.URL_ok Examples.ZodError_message
           (λ _, Normal (NextResponse_json
                           (Data (VideoRoute.Video Examples.queued_reply)) 200))
           merge_duplicates Samples.healthy Page.initial Examples.queued_reply).
  - reflexivity.
  - reflexivity.
Defined.

Lemma publish_toasts_follow_results_witness :
  ∃ toasts,
    run (Page.handlePublish Examples.ZodError_message
           (Page.publish_server Samples.URL_ok merge_duplicates Samples.instagram_down)
           (Examples.page_with Examples.remote_image)) =
      (Normal (),
       Page.fetched (js "/api/publish")
         (Page.publish_body (Examples.page_with Examples.remote_image)
            Examples.remote_image) :: toasts) ∧
    toasts =
      [Page.toast_success (js "Published to 3 platforms.");
       Page.toast_error (js "Failed to publish on Instagram. socket hang up")].
Proof.
  edestruct (publish_toasts_follow_results Examples.ZodError_message
               (Page.publish_server Samples.URL_ok merge_duplicates
                  Samples.instagram_down)
               (Examples.page_with Examples.remote_image) Examples.remote_image)
    as (toasts & Hrun & Htoasts).
  - reflexivity.
  - vm_compute. intros H. discriminate H.
  - vm_compute. reflexivity.
  - exists toasts. split; [exact Hrun|]. rewrite Htoasts. vm_compute. reflexivity.
Defined.

Lemma image_with_url_and_base64_publishes_both_witness :
  ∃ a,
    run (Page.handleGenerateImage Examples.ZodError_message
           (λ _, Normal (NextResponse_json (Data Examples.generated_both) 200))
           Page.initial) =
      (Normal (),
       [Page.fetched (js "/api/generate/image") (Page.image_body Page.initial);
        Page.setAsset a;
        Page.toast_success (js "Image generated with Veo-3.")]) ∧
    ∀ s',
      get_prop (js "mediaUrl") (Page.publish_props s' a) = Some (JStr Samples.cdn_url) ∧
      get_prop (js "mediaBase64") (Page.publish_props s' a) = Some (JStr (js "aGVsbG8=")).
Proof.
  apply (image_with_url_and_base64_publishes_both Examples.ZodError_message
           (λ _, Normal (NextResponse_json (Data Examples.generated_both) 200))
           Page.initial Examples.generated_both Samples.cdn_url (js "aGVsbG8=")).
  - reflexivity.
  - reflexivity.
  - reflexivity.
  - vm_compute. intros H. discriminate H.
  - vm_compute. reflexivity.
Defined.

Lemma base64_image_round_trip_witness :
  ∃ a,
    run (Page.handleGenerateImage Examples.ZodError_message
           (λ _, Normal (NextResponse_json (Data Examples.generated_inline) 200))
           Page.initial) =
      (Normal (),
       [Page.fetched (js "/api/generate/image") (Page.image_body Page.initial);
        Page.setAsset a;
        Page.toast_success (js "Image generated with Veo-3.")]) ∧
    Page.url a = Some (js "data:image/png;base64," ++ js "aGVsbG8=") ∧
    ∀ s',
      get_prop (js "mediaUrl") (Page.publish_props s' a) = None ∧
      get_prop (js "mediaBase64") (Page.publish_props s' a) = Some (JStr (js "aGVsbG8=")) ∧
      get_prop (js "mimeType") (Page.publish_props s' a) = Some (JStr (js "image/png")).
Proof.
  apply (base64_image_round_trip Examples.ZodError_message
           (λ _, Normal (NextResponse_json (Data Examples.generated_inline) 200))
           Page.initial Examples.generated_inline (js "aGVsbG8=")).
  - reflexivity.
  - reflexivity.
  - reflexivity.
  - vm_compute. intros H. discriminate H.
Defined.

Lemma data_url_is_decoded_witness :
  Page.mediaUrl_of
    {| Page.type := image;
       Page.url := Some (js "data:" ++ js "image/png;base64" ++ js "," ++ js "aGVsbG8=");
       Page.base64 := None; Page.mimeType := None; Page.revisedPrompt := None;
       Page.status := None; Page.taskId := None; Page.etaSeconds := None |} = None ∧
  Page.mediaBase64_of
    {| Page.type := image;
       Page.url := Some (js "data:" ++ js "image/png;base64" ++ js "," ++ js "aGVsbG8=");
       Page.base64 := None; Page.mimeType := None; Page.revisedPrompt := None;
       Page.status := None; Page.taskId := None; Page.etaSeconds := None |}
    = Some (js "aGVsbG8=").
Proof.
  apply (data_url_is_decoded _ (js "image/png;base64") (js "aGVsbG8=")).
  - reflexivity.
  - reflexivity.
  - apply (bool_decide_unpack _). vm_compute. exact I.
  - apply (bool_decide_unpack _). vm_compute. exact I.
Defined.

Lemma image_failure_is_shown_with_its_text_witness :
  run (Page.handleGenerateImage Examples.ZodError_message
         (Page.image_server Samples.URL_ok None (Normal Examples.no_image))
         Page.initial) =
  (Normal (),
   [Page.fetched (js "/api/generate/image") (Page.image_body Page.initial);
    Page.toast_error (js "Image generation returned no results.")]).
Proof.
  eapply (image_failure_is_shown_with_its_text Samples.URL_ok
            Examples.ZodError_message None Examples.no_image Page.initial)
    with (text := js "Image generation returned no results.").
  - vm_compute. reflexivity.
  - right. eexists. split; [reflexivity|]. split; reflexivity.
Defined.

Lemma page_image_request_is_valid_iff_witness :
  (∃ parsed,
     Zod.parse (ImageRoute.requestSchema Samples.URL_ok)
       (Page.image_body (Page.setImageStyle (js "photographic") Page.initial))
     = inr parsed)
  ↔ 10 ≤ length (Page.imagePrompt (Page.setImageStyle (js "photographic") Page.initial)).
Proof.
  apply (page_image_request_is_valid_iff Samples.URL_ok).
  apply rtc_once. apply Page.select_imageStyle.
  - reflexivity.
  - apply (bool_decide_unpack _). vm_compute. exact I.
Defined.

End MoreOnSamples.
